(** * Dynamic hedging engine: a shallow embedding and its properties

    Source files embedded here:
    - [src/instruments.py]    : [EuropeanOption]
    - [src/hedging_engine.py] : [PortfolioManager], [HedgingSimulation]
    - [src/market_env.py]     : [MarketEnvironment]

    Numbers.  The Python code computes with IEEE doubles.  The main
    embedding reads every float as an exact rational ([Qc], canonical
    fractions with Leibniz equality), so rounding is outside that model: an
    identity proved there is the identity the program computes before
    rounding.  Where a statement compares two results that rounding can
    separate, the same code is also read over binary64 itself (module
    [Binary64], on the kernel's primitive floats), and the two readings
    are told apart in the statement.  Division is total in [Qc]
    ([x / 0 = 0]); every division the engine performs on hedge sizes is
    guarded by the program itself, and the remaining one is by [base_vol],
    the volatility of the first snapshot, which the data model takes to be
    positive.

    Errors.  In the engine a Python exception is modelled by [None]:
    [IndexError] on an empty scenario, [ZeroDivisionError] on
    [step_counter % 0], [AttributeError] on a method call on [None].  In
    the scenario generator the exception itself matters and is kept. *)

From Stdlib Require Import PrimFloat.
From Stdlib Require Import QArith Qcanon Qcabs ZArith List Lia Bool.
From Stdlib Require Import String Ascii Permutation.
Import ListNotations.

Local Open Scope Qc_scope.

(** ** Floats as exact rationals *)

Abbreviation float := Qc.

(** Decimal literals of the source. *)
Definition lit (n : Z) (d : positive) : float := Q2Qc (n # d).

Definition Qcltb (x y : float) : bool :=
  match x ?= y with Lt => true | _ => false end.

Definition Qcleb (x y : float) : bool :=
  match x ?= y with Gt => false | _ => true end.

Definition Qceqb (x y : float) : bool :=
  match x ?= y with Eq => true | _ => false end.

(** Python's [max(a, b)]: the first argument unless the second is larger. *)
Definition py_max (a b : float) : float := if Qcltb a b then b else a.

(** [m] is the larger of [a] and [b]. *)
Definition is_max (m a b : float) : Prop :=
  a <= m /\ b <= m /\ (m = a \/ m = b).

(** ** Dates

    [pd.to_datetime] yields a [Timestamp], a count of nanoseconds since the
    epoch.  The difference of two timestamps is a [Timedelta] whose [.days]
    attribute is the floor of the difference in whole days. *)

Definition Timestamp := Z.

Definition ns_per_day : Z := 86400 * 1000000000.

Definition timedelta_days (later earlier : Timestamp) : Z :=
  ((later - earlier) / ns_per_day)%Z.

Definition float_of_int (z : Z) : float := Q2Qc (inject_Z z).

(** ** [str.lower] on ASCII text *)

Definition lower_ascii (c : ascii) : ascii :=
  let n := nat_of_ascii c in
  if (65 <=? n)%nat && (n <=? 90)%nat then ascii_of_nat (n + 32) else c.

Fixpoint lower (s : string) : string :=
  match s with
  | EmptyString => EmptyString
  | String c s' => String (lower_ascii c) (lower s')
  end.

(** ** instruments.py : [EuropeanOption] *)

Module EuropeanOption.

Record t := mk {
  strike : float;
  expiry_date : Timestamp;
  option_type : string
}.

(** [__init__(self, strike, expiry_date, option_type='call')] *)
Definition __init__ (strike : float) (expiry_date : Timestamp)
    (option_type : string) : t :=
  {| strike := strike;
     expiry_date := expiry_date;
     option_type := lower option_type |}.

Definition get_time_to_maturity (self : t) (current_date : Timestamp) : float :=
  let days_remaining := timedelta_days (expiry_date self) current_date in
  if (days_remaining <? 0)%Z then 0
  else float_of_int days_remaining / lit 365 1.

Definition is_call (self : t) : bool := String.eqb (option_type self) "call".

Section BlackScholes.

(** [numpy] and [scipy.stats.norm] are outside the repository: the
    transcendental functions are parameters of the pricing formulas. *)
Variables np_log np_exp np_sqrt norm_cdf norm_pdf : float -> float.

Definition _calculate_d1_d2 (self : t) (S T r sigma : float) : float * float :=
  if Qcleb T (lit 1 1000000) then (0, 0)
  else
    let d1 := (np_log (S / strike self) + (r + lit 1 2 * sigma ^ 2) * T)
              / (sigma * np_sqrt T) in
    let d2 := d1 - sigma * np_sqrt T in
    (d1, d2).

Definition price (self : t) (S : float) (current_date : Timestamp)
    (r sigma : float) : float :=
  let T := get_time_to_maturity self current_date in
  if Qcleb T (lit 1 1000000) then
    if is_call self then py_max 0 (S - strike self)
    else py_max 0 (strike self - S)
  else
    let '(d1, d2) := _calculate_d1_d2 self S T r sigma in
    if is_call self then
      S * norm_cdf d1 - strike self * np_exp (- r * T) * norm_cdf d2
    else
      strike self * np_exp (- r * T) * norm_cdf (- d2) - S * norm_cdf (- d1).

Definition delta (self : t) (S : float) (current_date : Timestamp)
    (r sigma : float) : float :=
  let T := get_time_to_maturity self current_date in
  if Qcltb T (lit 1 1000000) then
    if is_call self then (if Qcltb (strike self) S then 1 else 0)
    else (if Qcltb S (strike self) then - (1) else 0)
  else
    let '(d1, _) := _calculate_d1_d2 self S T r sigma in
    if is_call self then norm_cdf d1 else norm_cdf d1 - 1.

Definition gamma (self : t) (S : float) (current_date : Timestamp)
    (r sigma : float) : float :=
  let T := get_time_to_maturity self current_date in
  if Qcltb T (lit 1 1000000) then 0
  else
    let '(d1, _) := _calculate_d1_d2 self S T r sigma in
    norm_pdf d1 / (S * sigma * np_sqrt T).

Definition vega (self : t) (S : float) (current_date : Timestamp)
    (r sigma : float) : float :=
  let T := get_time_to_maturity self current_date in
  if Qcleb T (lit 1 1000000) then 0
  else
    let '(d1, _) := _calculate_d1_d2 self S T r sigma in
    S * np_sqrt T * norm_pdf d1 / lit 100 1.

End BlackScholes.

End EuropeanOption.

(** Less than one whole day to the expiry, or past it. *)
Definition at_expiry (o : EuropeanOption.t) (current_date : Timestamp) : Prop :=
  (EuropeanOption.expiry_date o - current_date < ns_per_day)%Z.

(** ** The instrument capability

    The engine is duck-typed: anything with the four methods
    [price], [delta], [gamma], [vega] of signature
    [(S, current_date, r, sigma)] is an instrument. *)

Record Instrument := mkInstrument {
  price : float -> Timestamp -> float -> float -> float;
  delta : float -> Timestamp -> float -> float -> float;
  gamma : float -> Timestamp -> float -> float -> float;
  vega  : float -> Timestamp -> float -> float -> float
}.

(** A [EuropeanOption] seen through that interface. *)
Definition option_instrument
    (np_log np_exp np_sqrt norm_cdf norm_pdf : float -> float)
    (o : EuropeanOption.t) : Instrument :=
  {| price := EuropeanOption.price np_log np_exp np_sqrt norm_cdf o;
     delta := EuropeanOption.delta np_log np_sqrt norm_cdf o;
     gamma := EuropeanOption.gamma np_log np_sqrt norm_pdf o;
     vega  := EuropeanOption.vega np_log np_sqrt norm_pdf o |}.

(** ** hedging_engine.py : [PortfolioManager] *)

(** The dictionary [{'instrument': ..., 'qty': ...}]. *)
Record Position := mkPosition {
  instrument : Instrument;
  qty : float
}.

(** The dictionary [{'price', 'delta', 'gamma', 'vega'}]. *)
Module Greeks.
Record t := mk {
  price : float;
  delta : float;
  gamma : float;
  vega  : float
}.

Definition zero : t := mk 0 0 0 0.

Definition add (a b : t) : t :=
  mk (price a + price b) (delta a + delta b)
     (gamma a + gamma b) (vega a + vega b).

(** Componentwise sum of a family of risk vectors. *)
Definition sum (gs : list t) : t := fold_right add zero gs.
End Greeks.

Module PortfolioManager.

Record t := mk { positions : list Position }.

(** [PortfolioManager()] *)
Definition __init__ : t := {| positions := [] |}.

Definition add_position (self : t) (inst : Instrument) (q : float) : t :=
  {| positions := positions self ++ [mkPosition inst q] |}.

(** One iteration of the loop of [get_greeks]. *)
Definition accumulate (S vol : float) (current_date : Timestamp) (r : float)
    (greeks : Greeks.t) (pos : Position) : Greeks.t :=
  let inst := instrument pos in
  let q := qty pos in
  Greeks.mk
    (Greeks.price greeks + price inst S current_date r vol * q)
    (Greeks.delta greeks + delta inst S current_date r vol * q)
    (Greeks.gamma greeks + gamma inst S current_date r vol * q)
    (Greeks.vega  greeks + vega  inst S current_date r vol * q).

Definition get_greeks (self : t) (S vol : float) (current_date : Timestamp)
    (r : float) : Greeks.t :=
  fold_left (accumulate S vol current_date r) (positions self) Greeks.zero.

(** The idiom used three times by the engine:
    [v = PortfolioManager(); for p in positions: v.add_position(p['instrument'], p['qty'])]. *)
Definition copy_positions (ps : list Position) : t :=
  fold_left (fun v p => add_position v (instrument p) (qty p)) ps __init__.

End PortfolioManager.

(** ** The market scenario: a data frame indexed by date *)

Record Row := mkRow {
  spot : float;
  vol : float;
  sofr : float;
  credit_spread : float
}.

Definition DataFrame := list (Timestamp * Row).

(** ** One row of the result frame *)

Module Result.
Record t := mk {
  date : Timestamp;
  spot : float;
  total_pnl : float;
  stock_pos : float;
  gamma_hedge_pos : float;
  vega_hedge_pos : float;
  txn_costs : float;
  funding_cost : float
}.
End Result.

(** ** hedging_engine.py : [HedgingSimulation] *)

Module HedgingSimulation.

(** The attributes of [self].  The first five and the last three are set
    once by [__init__]; [cash] and the three positions are the mutable
    ledger. *)
Record t := mk {
  portfolio : PortfolioManager.t;
  scenario_df : DataFrame;
  gamma_inst : option Instrument;
  vega_inst : option Instrument;
  rehedge_interval : Z;
  cash : float;
  pos_stock : float;
  pos_gamma_hedge : float;
  pos_vega_hedge : float;
  base_vol : float;
  stock_spread_bps : float;
  option_spread_bps : float
}.

Definition set_cash (self : t) (c : float) : t :=
  mk (portfolio self) (scenario_df self) (gamma_inst self) (vega_inst self)
     (rehedge_interval self) c (pos_stock self) (pos_gamma_hedge self)
     (pos_vega_hedge self) (base_vol self) (stock_spread_bps self)
     (option_spread_bps self).

Definition set_pos_stock (self : t) (p : float) : t :=
  mk (portfolio self) (scenario_df self) (gamma_inst self) (vega_inst self)
     (rehedge_interval self) (cash self) p (pos_gamma_hedge self)
     (pos_vega_hedge self) (base_vol self) (stock_spread_bps self)
     (option_spread_bps self).

Definition set_pos_gamma_hedge (self : t) (p : float) : t :=
  mk (portfolio self) (scenario_df self) (gamma_inst self) (vega_inst self)
     (rehedge_interval self) (cash self) (pos_stock self) p
     (pos_vega_hedge self) (base_vol self) (stock_spread_bps self)
     (option_spread_bps self).

Definition set_pos_vega_hedge (self : t) (p : float) : t :=
  mk (portfolio self) (scenario_df self) (gamma_inst self) (vega_inst self)
     (rehedge_interval self) (cash self) (pos_stock self)
     (pos_gamma_hedge self) p (base_vol self) (stock_spread_bps self)
     (option_spread_bps self).

(** The guard [abs(unit) > 1e-9]. *)
Definition eps : float := lit 1 1000000000.

Definition above_eps (unit : float) : bool := Qcltb eps (Qcabs unit).

(** *** [__init__]: the Day-0 pre-hedge (lines 67-178) *)

(** Step 2: the gamma hedge. *)
Definition init_pos_gamma (gamma_hedge_inst : option Instrument)
    (initial_greeks : Greeks.t) (S : float) (date : Timestamp)
    (r vol : float) : float :=
  match gamma_hedge_inst with
  | Some g =>
      let unit_gamma := gamma g S date r vol in
      if above_eps unit_gamma
      then - Greeks.gamma initial_greeks / unit_gamma
      else 0
  | None => 0
  end.

(** Step 3: the vega hedge, after the vega the gamma hedge brought. *)
Definition init_pos_vega (gamma_hedge_inst vega_hedge_inst : option Instrument)
    (initial_greeks : Greeks.t) (pos_gamma : float) (S : float)
    (date : Timestamp) (r vol : float) : float :=
  match vega_hedge_inst with
  | Some v =>
      let added_vega_from_gamma_hedge :=
        match gamma_hedge_inst with
        | Some g => pos_gamma * vega g S date r vol
        | None => 0
        end in
      let unit_vega := vega v S date r vol in
      if above_eps unit_vega
      then - (Greeks.vega initial_greeks + added_vega_from_gamma_hedge)
           / unit_vega
      else 0
  | None => 0
  end.

(** [pos * inst.metric(...)] if the instrument is given, else [0]. *)
Definition leg (inst : option Instrument)
    (metric : Instrument -> float -> Timestamp -> float -> float -> float)
    (pos : float) (S : float) (date : Timestamp) (r vol : float) : float :=
  match inst with
  | Some i => pos * metric i S date r vol
  | None => 0
  end.

Definition __init__ (portfolio : PortfolioManager.t)
    (market_scenario_df : DataFrame)
    (gamma_hedge_inst vega_hedge_inst : option Instrument)
    (rehedge_interval : Z) : option t :=
  match market_scenario_df with
  | [] => None                                   (* [.iloc[0]]: IndexError *)
  | (date, initial_scenario_row) :: _ =>
      let S := spot initial_scenario_row in
      let vol := vol initial_scenario_row in
      let r := sofr initial_scenario_row in
      (* 1. initial risk view *)
      let initial_portfolio_view :=
        PortfolioManager.copy_positions
          (PortfolioManager.positions portfolio) in
      let initial_greeks :=
        PortfolioManager.get_greeks initial_portfolio_view S vol date r in
      (* 2. gamma hedge, 3. vega hedge *)
      let pos_gamma :=
        init_pos_gamma gamma_hedge_inst initial_greeks S date r vol in
      let pos_vega :=
        init_pos_vega gamma_hedge_inst vega_hedge_inst initial_greeks
                      pos_gamma S date r vol in
      (* 4. delta hedge *)
      let added_delta_g := leg gamma_hedge_inst delta pos_gamma S date r vol in
      let added_delta_v := leg vega_hedge_inst delta pos_vega S date r vol in
      let pos_stock :=
        - (Greeks.delta initial_greeks + added_delta_g + added_delta_v) in
      (* 5. cash *)
      let cost_gamma := leg gamma_hedge_inst price pos_gamma S date r vol in
      let cost_vega := leg vega_hedge_inst price pos_vega S date r vol in
      let cost_stock := pos_stock * S in
      Some {| portfolio := portfolio;
              scenario_df := market_scenario_df;
              gamma_inst := gamma_hedge_inst;
              vega_inst := vega_hedge_inst;
              rehedge_interval := rehedge_interval;
              cash := - (cost_gamma + cost_vega + cost_stock);
              pos_stock := pos_stock;
              pos_gamma_hedge := pos_gamma;
              pos_vega_hedge := pos_vega;
              base_vol := vol;
              stock_spread_bps := lit 5 1;
              option_spread_bps := lit 100 1 |}
  end.

(** *** [_get_spread_cost] (lines 184-214) *)

Definition _get_spread_cost (self : t) (notional current_vol : float)
    (is_option : bool) : float :=
  let multiplier := current_vol / base_vol self in
  let base :=
    if is_option then option_spread_bps self else stock_spread_bps self in
  let spread_decimal := (base * multiplier) / lit 10000 1 in
  Qcabs notional * (spread_decimal / lit 2 1).

(** *** [run] (lines 216-361) *)

Definition dt : float := 1 / lit 252 1.

(** Step 1 of the loop body: funding on the cash balance (lines 228-238). *)
Definition funding_rate (self : t) (row : Row) : float :=
  if Qcltb (cash self) 0 then sofr row + credit_spread row else sofr row.

Definition funding (self : t) (row : Row) : float :=
  cash self * funding_rate self row * dt.

Definition accrue_funding (self : t) (row : Row) : t :=
  set_cash self (cash self + funding self row).

(** [if pos != 0: view.add_position(inst, pos)]; the later [get_greeks]
    raises [AttributeError] when [inst] is [None]. *)
Definition add_hedge (view : PortfolioManager.t) (inst : option Instrument)
    (pos : float) : option PortfolioManager.t :=
  if negb (Qceqb pos 0) then
    match inst with
    | Some i => Some (PortfolioManager.add_position view i pos)
    | None => None
    end
  else Some view.

(** Step 2: base portfolio plus the hedges held (lines 249-260). *)
Definition current_portfolio_view (self : t) : option PortfolioManager.t :=
  let view :=
    PortfolioManager.copy_positions
      (PortfolioManager.positions (portfolio self)) in
  match add_hedge view (gamma_inst self) (pos_gamma_hedge self) with
  | Some view' => add_hedge view' (vega_inst self) (pos_vega_hedge self)
  | None => None
  end.

(** Step A: re-hedge gamma (lines 274-297).  Returns the engine, the
    updated risk view and [cost_spread_gamma]. *)
Definition rehedge_gamma (self : t) (S : float) (date : Timestamp)
    (sofr vol : float) (port_greeks : Greeks.t) : t * Greeks.t * float :=
  match gamma_inst self with
  | Some g =>
      let unit_gamma := gamma g S date sofr vol in
      if above_eps unit_gamma then
        let trade_qty := - Greeks.gamma port_greeks / unit_gamma in
        let price := price g S date sofr vol in
        let cost_spread_gamma :=
          _get_spread_cost self (trade_qty * price * lit 100 1) vol true in
        let self1 :=
          set_cash self (cash self - (trade_qty * price + cost_spread_gamma)) in
        let self2 :=
          set_pos_gamma_hedge self1 (pos_gamma_hedge self1 + trade_qty) in
        let port_greeks' :=
          Greeks.mk
            (Greeks.price port_greeks)
            (Greeks.delta port_greeks + trade_qty * delta g S date sofr vol)
            (Greeks.gamma port_greeks)
            (Greeks.vega port_greeks + trade_qty * vega g S date sofr vol) in
        (self2, port_greeks', cost_spread_gamma)
      else (self, port_greeks, 0)
  | None => (self, port_greeks, 0)
  end.

(** Step B: re-hedge vega (lines 301-312). *)
Definition rehedge_vega (self : t) (S : float) (date : Timestamp)
    (sofr vol : float) (port_greeks : Greeks.t) : t * Greeks.t * float :=
  match vega_inst self with
  | Some v =>
      let unit_vega := vega v S date sofr vol in
      if above_eps unit_vega then
        let trade_qty := - Greeks.vega port_greeks / unit_vega in
        let price := price v S date sofr vol in
        let cost_spread_vega :=
          _get_spread_cost self (trade_qty * price * lit 100 1) vol true in
        let self1 :=
          set_cash self (cash self - (trade_qty * price + cost_spread_vega)) in
        let self2 :=
          set_pos_vega_hedge self1 (pos_vega_hedge self1 + trade_qty) in
        let port_greeks' :=
          Greeks.mk
            (Greeks.price port_greeks)
            (Greeks.delta port_greeks + trade_qty * delta v S date sofr vol)
            (Greeks.gamma port_greeks)
            (Greeks.vega port_greeks) in
        (self2, port_greeks', cost_spread_vega)
      else (self, port_greeks, 0)
  | None => (self, port_greeks, 0)
  end.

(** Step C: re-hedge delta with the underlying (lines 318-327). *)
Definition rehedge_delta (self : t) (S vol : float) (port_greeks : Greeks.t)
    : t * float :=
  let target_stock := - Greeks.delta port_greeks in
  let stock_trade := target_stock - pos_stock self in
  let cost_spread_delta := _get_spread_cost self (stock_trade * S) vol false in
  let self1 :=
    set_cash self (cash self - (stock_trade * S + cost_spread_delta)) in
  (set_pos_stock self1 target_stock, cost_spread_delta).

(** The three costs of one step, in the order gamma, vega, delta. *)
Definition Costs := (float * float * float)%type.

(** The body of [if step_counter % self.rehedge_interval == 0:]. *)
Definition rebalance (self : t) (date : Timestamp) (row : Row)
    : option (t * Costs) :=
  let S := spot row in
  let vol := vol row in
  let sofr := sofr row in
  match current_portfolio_view self with
  | None => None
  | Some view =>
      let port_greeks := PortfolioManager.get_greeks view S vol date sofr in
      let '(self_a, greeks_a, cost_spread_gamma) :=
        rehedge_gamma self S date sofr vol port_greeks in
      let '(self_b, greeks_b, cost_spread_vega) :=
        rehedge_vega self_a S date sofr vol greeks_a in
      let '(self_c, cost_spread_delta) :=
        rehedge_delta self_b S vol greeks_b in
      Some (self_c, (cost_spread_gamma, cost_spread_vega, cost_spread_delta))
  end.

(** The gate: [step_counter % 0] raises [ZeroDivisionError]. *)
Definition gate (self : t) (step_counter : Z) (date : Timestamp) (row : Row)
    : option (t * Costs) :=
  if (rehedge_interval self =? 0)%Z then None
  else if (step_counter mod rehedge_interval self =? 0)%Z
       then rebalance self date row
       else Some (self, (0, 0, 0)).

(** Valuation of the hedges (lines 338-344): the option legs first, each
    only when its instrument is given, then the stock leg. *)
Definition pv_hedges (self : t) (S : float) (date : Timestamp)
    (sofr vol : float) : float :=
  let pv := 0 in
  let pv :=
    match gamma_inst self with
    | Some g => pv + pos_gamma_hedge self * price g S date sofr vol
    | None => pv
    end in
  let pv :=
    match vega_inst self with
    | Some v => pv + pos_vega_hedge self * price v S date sofr vol
    | None => pv
    end in
  pv + pos_stock self * S.

(** Valuation of the base portfolio alone (lines 332-335). *)
Definition pv_base (self : t) (S : float) (date : Timestamp)
    (sofr vol : float) : float :=
  let val_base :=
    PortfolioManager.copy_positions
      (PortfolioManager.positions (portfolio self)) in
  Greeks.price (PortfolioManager.get_greeks val_base S vol date sofr).

(** The dictionary appended to [results] (lines 346-357). *)
Definition report (self : t) (date : Timestamp) (row : Row)
    (costs : Costs) (funding : float) : Result.t :=
  let S := spot row in
  let '(cost_spread_gamma, cost_spread_vega, cost_spread_delta) := costs in
  let total_pnl :=
    pv_base self S date (sofr row) (vol row)
    + pv_hedges self S date (sofr row) (vol row)
    + cash self in
  {| Result.date := date;
     Result.spot := S;
     Result.total_pnl := total_pnl;
     Result.stock_pos := pos_stock self;
     Result.gamma_hedge_pos := pos_gamma_hedge self;
     Result.vega_hedge_pos := pos_vega_hedge self;
     Result.txn_costs :=
       cost_spread_delta + cost_spread_gamma + cost_spread_vega;
     Result.funding_cost := funding |}.

(** One iteration of [for date, row in self.scenario_df.iterrows()]:
    the engine after the iteration and the row it appended. *)
Definition step (self : t) (step_counter : Z) (date : Timestamp) (row : Row)
    : option (t * Result.t) :=
  let fund := funding self row in
  let self1 := accrue_funding self row in
  match gate self1 step_counter date row with
  | None => None
  | Some (self2, costs) => Some (self2, report self2 date row costs fund)
  end.

(** The loop, instrumented: beside each result row, the engine as it
    stands when the row is appended. *)
Fixpoint run_loop (rows : DataFrame) (self : t) (step_counter : Z)
    : option (list (t * Result.t)) :=
  match rows with
  | [] => Some []
  | (date, row) :: rows' =>
      match step self step_counter date row with
      | None => None
      | Some (self', res) =>
          match run_loop rows' self' (step_counter + 1) with
          | None => None
          | Some trace => Some ((self', res) :: trace)
          end
      end
  end.

Definition trace (self : t) : option (list (t * Result.t)) :=
  run_loop (scenario_df self) self 0.

(** [run]: the result rows, in date order.  On an empty list of rows
    [pd.DataFrame(results).set_index('date')] raises [KeyError]. *)
Definition run (self : t) : option (list Result.t) :=
  match trace self with
  | Some (x :: tr) => Some (map snd (x :: tr))
  | _ => None
  end.

(** The engine before the [i]-th iteration of a run that started from
    [self] and produced [tr]. *)
Definition before (self : t) (tr : list (t * Result.t)) (i : nat) : option t :=
  match i with
  | O => Some self
  | S j => option_map fst (nth_error tr j)
  end.

(** What [__init__] fixes for the whole run. *)
Definition config (self : t) :=
  (portfolio self, scenario_df self, gamma_inst self, vega_inst self,
   rehedge_interval self, base_vol self, stock_spread_bps self,
   option_spread_bps self).

(** A hedge is held only in an instrument that was given. *)
Definition hedges_configured (self : t) : Prop :=
  (gamma_inst self = None -> pos_gamma_hedge self = 0) /\
  (vega_inst self = None -> pos_vega_hedge self = 0).

(** The engine [s] is [self] as constructed or as it stands after some
    step of the run of [self]. *)
Definition reached (self s : t) : Prop :=
  s = self \/ exists tr res, trace self = Some tr /\ In (s, res) tr.

End HedgingSimulation.

(** ** Notions used to state properties of the engine *)

(** A risk vector multiplied by a number. *)
Definition greeks_scale (c : float) (g : Greeks.t) : Greeks.t :=
  Greeks.mk (c * Greeks.price g) (c * Greeks.delta g)
            (c * Greeks.gamma g) (c * Greeks.vega g).

(** Every quantity of a list of positions multiplied by a number. *)
Definition scale_positions (c : float) (ps : list Position) : list Position :=
  map (fun p => mkPosition (instrument p) (c * qty p)) ps.

(** The risk of the book an engine holds in options: the base portfolio
    and the two option hedges, each hedge counted when its instrument is
    configured. *)
Definition book_risk (self : HedgingSimulation.t) (S : float)
    (date : Timestamp) (sofr vol : float) : Greeks.t :=
  let base :=
    PortfolioManager.get_greeks (HedgingSimulation.portfolio self) S vol
      date sofr in
  let hedge metric :=
    HedgingSimulation.leg (HedgingSimulation.gamma_inst self) metric
      (HedgingSimulation.pos_gamma_hedge self) S date sofr vol
    + HedgingSimulation.leg (HedgingSimulation.vega_inst self) metric
        (HedgingSimulation.pos_vega_hedge self) S date sofr vol in
  Greeks.mk (Greeks.price base + hedge price)
            (Greeks.delta base + hedge delta)
            (Greeks.gamma base + hedge gamma)
            (Greeks.vega base + hedge vega).

(** The hedges and the cash, marked to a snapshot. *)
Definition ledger_value (self : HedgingSimulation.t) (S : float)
    (date : Timestamp) (sofr vol : float) : float :=
  HedgingSimulation.pv_hedges self S date sofr vol
  + HedgingSimulation.cash self.

(** ** market_env.py : [MarketEnvironment]

    Here the exception matters, so a call either returns or raises. *)

Inductive PyError : Type :=
  | IndexError
  | ZeroDivisionError
  | AttributeError
  | ValueError.

Inductive Outcome (A : Type) : Type :=
  | Returns (a : A)
  | Raises (e : PyError).

Arguments Returns {A} a.
Arguments Raises {A} e.

Module MarketEnvironment.

Record t := mk {
  S0 : float;
  sigma0 : float;
  r0 : float;
  cs0 : float
}.

(** [__init__(self, spot_start=100.0, vol_start=0.20, sofr_start=0.04,
    spread_start=0.01)] *)
Definition __init__ (spot_start vol_start sofr_start spread_start : float) : t :=
  {| S0 := spot_start;
     sigma0 := vol_start;
     r0 := sofr_start;
     cs0 := spread_start |}.

Definition default : t :=
  __init__ (lit 100 1) (lit 20 100) (lit 4 100) (lit 1 100).

Section Calendar.

(** [pd.bdate_range(start=..., periods=...)] is outside the repository: the
    business-day calendar is a parameter. *)
Variable bdate_range : Timestamp -> Z -> Outcome (list Timestamp).

(** The body of [for i in range(1, steps)] (lines 78-96), run [n] times
    from the values of the previous row; [(self.S0 - current_spot) / self.S0]
    raises [ZeroDivisionError] when [S0] is zero. *)
Fixpoint evolve (self : t) (spot_daily_ret r_sofr_step cs_step vol_mult : float)
    (n : nat) (current_spot sofr_prev spread_prev : float)
    : Outcome (list Row) :=
  match n with
  | O => Returns []
  | S n' =>
      let current_spot := current_spot * (1 + spot_daily_ret) in
      let sofr_i := sofr_prev + r_sofr_step in
      let spread_i := spread_prev + cs_step in
      if Qceqb (S0 self) 0 then Raises ZeroDivisionError
      else
        let pct_drop := (S0 self - current_spot) / S0 self in
        let vol_i :=
          if Qcltb 0 pct_drop
          then sigma0 self * (1 + pct_drop * vol_mult)
          else py_max (lit 5 100) (sigma0 self * lit 95 100) in
        match evolve self spot_daily_ret r_sofr_step cs_step vol_mult n'
                current_spot sofr_i spread_i with
        | Raises e => Raises e
        | Returns rows =>
            Returns (mkRow current_spot vol_i sofr_i spread_i :: rows)
        end
  end.

(** [simulate_scenario] (lines 41-103). *)
Definition simulate_scenario (self : t) (start_date : Timestamp) (num_days : Z)
    (spot_ret vol_mult d_sofr d_spread : float) : Outcome DataFrame :=
  match bdate_range start_date (num_days + 1) with
  | Raises e => Raises e
  | Returns dates =>
      let steps := List.length dates in
      match steps with
      | O => Raises IndexError              (* [spot[0] = self.S0] *)
      | S iterations =>
          if (num_days =? 0)%Z then Raises ZeroDivisionError
          else
            let spot_daily_ret := spot_ret / float_of_int num_days in
            let r_sofr_step := d_sofr / float_of_int num_days in
            let cs_step := d_spread / float_of_int num_days in
            match evolve self spot_daily_ret r_sofr_step cs_step vol_mult
                    iterations (S0 self) (r0 self) (cs0 self) with
            | Raises e => Raises e
            | Returns rows =>
                Returns
                  (combine dates
                     (mkRow (S0 self) (sigma0 self) (r0 self) (cs0 self)
                      :: rows))
            end
      end
  end.

(** Attribute lookup on an instance, for the names the presets call: the
    class defines [simulate_scenario] and no [simulate_custom_scenario]. *)
Definition getattr (name : string)
    : Outcome (t -> Timestamp -> Z -> float -> float -> float -> float
               -> Outcome DataFrame) :=
  if String.eqb name "simulate_scenario" then Returns simulate_scenario
  else Raises AttributeError.

Definition call (name : string) (self : t) (start_date : Timestamp)
    (num_days : Z) (spot_ret vol_mult d_sofr d_spread : float)
    : Outcome DataFrame :=
  match getattr name with
  | Returns method =>
      method self start_date num_days spot_ret vol_mult d_sofr d_spread
  | Raises e => Raises e
  end.

(** The presets (lines 108-192), [days] defaulting to 20, 20, 5, 20, 20
    and 10. *)
Definition taper_tantrum_2013 (self : t) (start_date : Timestamp) (days : Z) :=
  call "simulate_custom_scenario" self start_date days
    (lit (-5) 100) (lit 15 10) 0 (lit 5 1000).

Definition trump_reflation_2016 (self : t) (start_date : Timestamp) (days : Z) :=
  call "simulate_scenario" self start_date days
    (lit 10 100) 0 0 (lit (-10) 10000).

Definition repo_crisis_2019 (self : t) (start_date : Timestamp) (days : Z) :=
  call "simulate_scenario" self start_date days
    (lit (-2) 100) (lit 2 1) (lit 5 100) (lit 3 100).

Definition covid_crash_2020 (self : t) (start_date : Timestamp) (days : Z) :=
  call "simulate_custom_scenario" self start_date days
    (lit (-30) 100) (lit 4 1) (lit (-15) 1000) (lit 4 100).

Definition inflation_shock_2022 (self : t) (start_date : Timestamp) (days : Z) :=
  call "simulate_scenario" self start_date days
    (lit (-15) 100) (lit 15 10) (lit 15 1000) (lit 5 1000).

Definition liberation_day_2025 (self : t) (start_date : Timestamp) (days : Z) :=
  call "simulate_scenario" self start_date days
    (lit (-15) 100) (lit 2 1) (lit 25 10000) (lit 2 100).

End Calendar.

(** The calendar call returned the index [dates], of [periods] dates: what
    [pd.bdate_range(start=..., periods=...)] does for a valid start date
    and a positive [periods]. *)
Definition calendar_gives
    (bdate_range : Timestamp -> Z -> Outcome (list Timestamp))
    (start : Timestamp) (periods : Z) (dates : list Timestamp) : Prop :=
  bdate_range start periods = Returns dates /\
  Z.of_nat (List.length dates) = periods.

End MarketEnvironment.

(** ** Notions used to state properties of the scenarios *)

(** A natural number as a float. *)
Definition of_nat (n : nat) : float := float_of_int (Z.of_nat n).

(** The volatility the loop of [simulate_scenario] gives to a row whose
    spot is [x]. *)
Definition vol_after (self : MarketEnvironment.t) (vol_mult x : float) : float :=
  let pct_drop :=
    (MarketEnvironment.S0 self - x) / MarketEnvironment.S0 self in
  if Qcltb 0 pct_drop
  then MarketEnvironment.sigma0 self * (1 + pct_drop * vol_mult)
  else py_max (lit 5 100) (MarketEnvironment.sigma0 self * lit 95 100).

(** The row of day [i] of a scenario, in closed form. *)
Definition on_path (self : MarketEnvironment.t) (num_days : Z)
    (spot_ret vol_mult d_sofr d_spread : float) (i : nat) (row : Row) : Prop :=
  spot row
  = MarketEnvironment.S0 self * (1 + spot_ret / float_of_int num_days) ^ i /\
  sofr row
  = MarketEnvironment.r0 self + of_nat i * (d_sofr / float_of_int num_days) /\
  credit_spread row
  = MarketEnvironment.cs0 self + of_nat i * (d_spread / float_of_int num_days) /\
  vol row
  = match i with
    | O => MarketEnvironment.sigma0 self
    | S _ => vol_after self vol_mult (spot row)
    end.

(** An outcome that is a frame of [days + 1] rows whose last row carries
    the funding rate [rate] and the credit spread [spread]. *)
Definition ends_at (out : Outcome DataFrame) (days : Z) (rate spread : float)
    : Prop :=
  exists df d row,
    out = Returns df /\
    Z.of_nat (List.length df) = (days + 1)%Z /\
    nth_error df (Z.to_nat days) = Some (d, row) /\
    sofr row = rate /\ credit_spread row = spread.

(** ** The friction cost model in the words of the specification

    Section 4.3: [multiplier = current_vol / base_vol];
    [base_spread_bps = 100] for option trades, [5] for underlying trades;
    [spread_fraction = (base_spread_bps * multiplier) / 10000];
    [cost = |notional| * spread_fraction / 2]. *)

Module FrictionCostModel.

Definition base_spread_bps (is_option : bool) : float :=
  if is_option then lit 100 1 else lit 5 1.

Definition cost (base_vol notional current_vol : float) (is_option : bool)
    : float :=
  let multiplier := current_vol / base_vol in
  let spread_fraction :=
    (base_spread_bps is_option * multiplier) / lit 10000 1 in
  Qcabs notional * spread_fraction / lit 2 1.

End FrictionCostModel.

(** ** Concrete data

    A small desk used to run the engine: instruments with closed-form
    rational Greeks, and a three-day scenario. *)

Module Examples.

(** An instrument whose four metrics do not depend on the market. *)
Definition flat (p d g v : float) : Instrument :=
  {| price := fun _ _ _ _ => p;
     delta := fun _ _ _ _ => d;
     gamma := fun _ _ _ _ => g;
     vega  := fun _ _ _ _ => v |}.

(** The underlying asset: price [S], delta 1, no gamma, no vega. *)
Definition underlying : Instrument :=
  {| price := fun S _ _ _ => S;
     delta := fun _ _ _ _ => 1;
     gamma := fun _ _ _ _ => 0;
     vega  := fun _ _ _ _ => 0 |}.

(** A convex claim on the spot: value [S^2 / 200], vega growing with vol. *)
Definition convex : Instrument :=
  {| price := fun S _ _ sigma => S * S / lit 200 1 + sigma;
     delta := fun S _ _ _ => S / lit 100 1;
     gamma := fun _ _ _ _ => lit 1 100;
     vega  := fun _ _ _ _ => lit 1 4 |}.

Definition short_dated : Instrument := flat (lit 2 1) (lit 1 2) (lit 1 20) (lit 1 10).
Definition long_dated : Instrument := flat (lit 5 1) (lit 3 5) (lit 1 50) (lit 1 2).

Definition book : PortfolioManager.t :=
  PortfolioManager.add_position
    (PortfolioManager.add_position PortfolioManager.__init__
       convex (lit 1000 1))
    underlying (lit 50 1).

Definition day (k : Z) : Timestamp := (k * ns_per_day)%Z.

Definition row0 : Row := mkRow (lit 100 1) (lit 1 5) (lit 1 25) (lit 1 100).
Definition row1 : Row := mkRow (lit 98 1) (lit 1 4) (lit 1 25) (lit 3 200).
Definition row2 : Row := mkRow (lit 95 1) (lit 3 10) (lit 1 20) (lit 1 50).

Definition scenario : DataFrame := [(day 0, row0); (day 1, row1); (day 2, row2)].

(** Both hedges, re-hedging every second day. *)
Definition desk : option HedgingSimulation.t :=
  HedgingSimulation.__init__ book scenario
    (Some short_dated) (Some long_dated) 2.

(** Delta hedging only, every day. *)
Definition delta_only : option HedgingSimulation.t :=
  HedgingSimulation.__init__ book scenario None None 1.

(** A business-day calendar in the manner of [pd.bdate_range]: days are
    counted from 1970-01-01, a Thursday; Monday is weekday 0; a start on
    a week-end rolls forward to the Monday; the index is empty when
    [periods] is not positive. *)
Definition weekday (d : Z) : Z := ((d + 3) mod 7)%Z.

Definition roll_forward (d : Z) : Z :=
  if (weekday d <? 5)%Z then d
  else if (weekday d =? 5)%Z then (d + 2)%Z else (d + 1)%Z.

Fixpoint business_days (n : nat) (d : Z) : list Z :=
  match n with
  | O => []
  | S n' => let d' := roll_forward d in d' :: business_days n' (d' + 1)
  end.

Definition bdate_range (start : Timestamp) (periods : Z)
    : Outcome (list Timestamp) :=
  Returns
    (map (fun d => (d * ns_per_day)%Z)
       (business_days (Z.to_nat periods) (start / ns_per_day))).

(** The first four and the first six business days from 1970-01-01. *)
Definition four_days : list Timestamp := [day 0; day 1; day 4; day 5].

Definition six_days : list Timestamp :=
  [day 0; day 1; day 4; day 5; day 6; day 7].

(** A book of 100 units of the underlying, delta-hedged every day. *)
Definition stock_book : PortfolioManager.t :=
  PortfolioManager.add_position PortfolioManager.__init__
    underlying (lit 100 1).

Definition stock_desk : option HedgingSimulation.t :=
  HedgingSimulation.__init__ stock_book scenario None None 1.

End Examples.

(** * The same code over IEEE doubles

    [PortfolioManager.get_greeks] and [_get_spread_cost] once more, with
    every [+], [*], [/] and [abs] the binary64 operation Python performs
    (round to nearest, ties to even).  A decimal literal denotes the
    nearest double, as it does in Python. *)

Module Binary64.

Abbreviation double := PrimFloat.float.

Local Open Scope float_scope.

(** An object with the four methods the aggregator calls. *)
Record Instrument := mkInstrument {
  price : double -> Timestamp -> double -> double -> double;
  delta : double -> Timestamp -> double -> double -> double;
  gamma : double -> Timestamp -> double -> double -> double;
  vega  : double -> Timestamp -> double -> double -> double
}.

Record Position := mkPosition {
  instrument : Instrument;
  qty : double
}.

Record Greeks := mkGreeks {
  g_price : double;
  g_delta : double;
  g_gamma : double;
  g_vega  : double
}.

(** One iteration of the loop of [get_greeks] (lines 48-56):
    [greeks[k] += inst.k(S, current_date, r, vol) * qty]. *)
Definition accumulate (S vol : double) (current_date : Timestamp) (r : double)
    (greeks : Greeks) (pos : Position) : Greeks :=
  let inst := instrument pos in
  let q := qty pos in
  mkGreeks
    (g_price greeks + price inst S current_date r vol * q)
    (g_delta greeks + delta inst S current_date r vol * q)
    (g_gamma greeks + gamma inst S current_date r vol * q)
    (g_vega  greeks + vega  inst S current_date r vol * q).

(** [get_greeks] (lines 34-58), from
    [{'price': 0.0, 'delta': 0.0, 'gamma': 0.0, 'vega': 0.0}]. *)
Definition get_greeks (positions : list Position) (S vol : double)
    (current_date : Timestamp) (r : double) : Greeks :=
  fold_left (accumulate S vol current_date r) positions (mkGreeks 0 0 0 0).

(** [_get_spread_cost] (lines 204-214) on an engine with the given
    [base_vol], [stock_spread_bps] and [option_spread_bps]. *)
Definition _get_spread_cost (base_vol stock_spread_bps option_spread_bps : double)
    (notional current_vol : double) (is_option : bool) : double :=
  let multiplier := current_vol / base_vol in
  let base := if is_option then option_spread_bps else stock_spread_bps in
  let spread_decimal := (base * multiplier) / 10000 in
  abs notional * (spread_decimal / 2).

(** The cost on a constructed engine: [__init__] assigns the spreads
    [5.0] and [100.0] (lines 87-88). *)
Definition constructed_cost (base_vol notional current_vol : double)
    (is_option : bool) : double :=
  _get_spread_cost base_vol 5 100 notional current_vol is_option.

(** One unit of the underlying: price [S], delta 1, no gamma, no vega. *)
Definition underlying : Instrument :=
  {| price := fun S _ _ _ => S;
     delta := fun _ _ _ _ => 1;
     gamma := fun _ _ _ _ => 0;
     vega  := fun _ _ _ _ => 0 |}.

(** Three positions in the underlying, of 0.1, 0.2 and 0.3 units. *)
#[warnings="-inexact-float"]
Definition three_lots : list Position :=
  [mkPosition underlying 0.1; mkPosition underlying 0.2;
   mkPosition underlying 0.3].

(** An option trade of notional 400 at volatility 0.3, on an engine built
    on a scenario whose first volatility is 0.2; and the stock trade of
    the same notional at the same volatility. *)
#[warnings="-inexact-float"]
Definition option_trade_cost : double := constructed_cost 0.2 400 0.3 true.

#[warnings="-inexact-float"]
Definition stock_trade_cost : double := constructed_cost 0.2 400 0.3 false.

End Binary64.

(** * Properties *)

(** ** The comparisons and the order of [Qc] *)

Lemma Qcltb_lt (x y : float) : Qcltb x y = true <-> x < y.
Proof.
  unfold Qcltb. rewrite Qclt_alt.
  destruct (x ?= y); split; congruence.
Qed.

Lemma Qcltb_ge (x y : float) : Qcltb x y = false <-> y <= x.
Proof.
  unfold Qcltb. destruct (x ?= y) eqn:E.
  - apply Qceq_alt in E. subst y. split; [intros _; apply Qcle_refl | reflexivity].
  - apply Qclt_alt in E. split; [discriminate | intros H].
    now apply Qclt_not_le in E.
  - apply Qcgt_alt in E. split; [intros _ | reflexivity].
    now apply Qclt_le_weak.
Qed.

Lemma Qcleb_le (x y : float) : Qcleb x y = true <-> x <= y.
Proof.
  unfold Qcleb. rewrite Qcle_alt.
  destruct (x ?= y); split; congruence.
Qed.

Lemma Qceqb_eq (x y : float) : Qceqb x y = true <-> x = y.
Proof.
  unfold Qceqb. rewrite Qceq_alt.
  destruct (x ?= y); split; congruence.
Qed.

Lemma Qceqb_refl (x : float) : Qceqb x x = true.
Proof. now apply Qceqb_eq. Qed.

Lemma Qcmult_nonneg (x y : float) : 0 <= x -> 0 <= y -> 0 <= x * y.
Proof.
  intros Hx Hy. rewrite <- (Qcmult_0_l y).
  now apply Qcmult_le_compat_r.
Qed.

Lemma Qcmult_pos (x y : float) : 0 < x -> 0 < y -> 0 < x * y.
Proof.
  intros Hx Hy. rewrite <- (Qcmult_0_l y).
  now apply Qcmult_lt_compat_r.
Qed.

Lemma Qcinv_pos (x : float) : 0 < x -> 0 < / x.
Proof.
  intros Hx. unfold Qclt in *.
  change (0 < Qred (/ x))%Q. rewrite Qred_correct.
  apply Qinv_lt_0_compat. exact Hx.
Qed.

Lemma Qcabs_0 : Qcabs 0 = 0.
Proof. apply Qcabs_pos, Qcle_refl. Qed.

Lemma Qcabs_pos_iff (x : float) : 0 < Qcabs x <-> x <> 0.
Proof.
  split.
  - intros H ->. rewrite Qcabs_0 in H. now apply Qclt_not_eq in H.
  - intros Hx. destruct (Qcle_lt_or_eq _ _ (Qcabs_nonneg x)) as [H | H].
    + exact H.
    + symmetry in H. now apply Qcabs_null in H.
Qed.

Lemma eps_pos : 0 < HedgingSimulation.eps.
Proof. reflexivity. Qed.

Lemma above_eps_nonzero (u : float) :
  HedgingSimulation.above_eps u = true -> u <> 0.
Proof.
  unfold HedgingSimulation.above_eps. rewrite Qcltb_lt. intros H.
  apply Qcabs_pos_iff. eapply Qclt_trans; [apply eps_pos | exact H].
Qed.

Lemma within_eps_0 : Qcabs 0 <= HedgingSimulation.eps.
Proof. rewrite Qcabs_0. apply Qclt_le_weak, eps_pos. Qed.


(** ** The portfolio aggregator *)

Lemma greeks_eq (a b : Greeks.t) :
  Greeks.price a = Greeks.price b ->
  Greeks.delta a = Greeks.delta b ->
  Greeks.gamma a = Greeks.gamma b ->
  Greeks.vega a = Greeks.vega b ->
  a = b.
Proof. destruct a, b; cbn; intros; subst; reflexivity. Qed.

Lemma greeks_add_comm (a b : Greeks.t) : Greeks.add a b = Greeks.add b a.
Proof. apply greeks_eq; cbn; ring. Qed.

Lemma greeks_add_assoc (a b c : Greeks.t) :
  Greeks.add a (Greeks.add b c) = Greeks.add (Greeks.add a b) c.
Proof. apply greeks_eq; cbn; ring. Qed.

Lemma greeks_add_zero_l (a : Greeks.t) : Greeks.add Greeks.zero a = a.
Proof. apply greeks_eq; cbn; ring. Qed.

Lemma greeks_add_zero_r (a : Greeks.t) : Greeks.add a Greeks.zero = a.
Proof. rewrite greeks_add_comm. apply greeks_add_zero_l. Qed.

Section Aggregation.

Variables (S vol : float) (current_date : Timestamp) (r : float).

Let acc := PortfolioManager.accumulate S vol current_date r.
Let agg (ps : list Position) : Greeks.t :=
  PortfolioManager.get_greeks (PortfolioManager.mk ps) S vol current_date r.

(** The loop started from any accumulator adds the aggregate of the
    list to it. *)
Lemma fold_accumulate (ps : list Position) (g : Greeks.t) :
  fold_left acc ps g = Greeks.add g (agg ps).
Proof.
  unfold agg, PortfolioManager.get_greeks. cbn [PortfolioManager.positions].
  fold acc. revert g.
  induction ps as [| p ps IH]; intros g; cbn [fold_left].
  - now rewrite greeks_add_zero_r.
  - rewrite (IH (acc g p)), (IH (acc Greeks.zero p)).
    rewrite greeks_add_assoc. f_equal.
    apply greeks_eq; subst acc; cbn; ring.
Qed.

Lemma get_greeks_nil : agg [] = Greeks.zero.
Proof. reflexivity. Qed.

Lemma get_greeks_cons (p : Position) (ps : list Position) :
  agg (p :: ps) = Greeks.add (agg [p]) (agg ps).
Proof.
  unfold agg at 1, PortfolioManager.get_greeks.
  cbn [PortfolioManager.positions fold_left]. fold acc.
  now rewrite fold_accumulate.
Qed.

Lemma get_greeks_app (ps qs : list Position) :
  agg (ps ++ qs) = Greeks.add (agg ps) (agg qs).
Proof.
  induction ps as [| p ps IH]; cbn [app].
  - now rewrite get_greeks_nil, greeks_add_zero_l.
  - rewrite get_greeks_cons, IH, greeks_add_assoc.
    now rewrite <- get_greeks_cons.
Qed.

Lemma get_greeks_perm (ps qs : list Position) :
  Permutation ps qs -> agg ps = agg qs.
Proof.
  induction 1 as [| p ps qs _ IH | p q ps | ps qs rs _ IH1 _ IH2].
  - reflexivity.
  - now rewrite (get_greeks_cons p ps), (get_greeks_cons p qs), IH.
  - rewrite (get_greeks_cons q (p :: ps)), (get_greeks_cons p ps).
    rewrite (get_greeks_cons p (q :: ps)), (get_greeks_cons q ps).
    rewrite !greeks_add_assoc. f_equal. apply greeks_add_comm.
  - now rewrite IH1.
Qed.

Lemma get_greeks_concat (parts : list (list Position)) :
  agg (List.concat parts) = Greeks.sum (map agg parts).
Proof.
  induction parts as [| ps parts IH]; cbn [List.concat map].
  - reflexivity.
  - rewrite get_greeks_app, IH. reflexivity.
Qed.

End Aggregation.

Lemma copy_positions_from (ps : list Position) (v : PortfolioManager.t) :
  fold_left
    (fun v p => PortfolioManager.add_position v (instrument p) (qty p)) ps v
  = PortfolioManager.mk (PortfolioManager.positions v ++ ps).
Proof.
  revert v. induction ps as [| p ps IH]; intros [qs]; cbn [fold_left].
  - cbn. now rewrite app_nil_r.
  - rewrite IH. cbn. destruct p. cbn. now rewrite <- app_assoc.
Qed.

(** Copying a portfolio position by position gives the same portfolio. *)
Lemma copy_positions_id (p : PortfolioManager.t) :
  PortfolioManager.copy_positions (PortfolioManager.positions p) = p.
Proof.
  unfold PortfolioManager.copy_positions. rewrite copy_positions_from.
  now destruct p.
Qed.

(** ** The engine: what a step leaves alone *)

Import HedgingSimulation.

Lemma rehedge_gamma_config self S date sofr vol pg :
  config (fst (fst (rehedge_gamma self S date sofr vol pg))) = config self.
Proof.
  unfold rehedge_gamma. destruct (gamma_inst self) as [g |]; [| reflexivity].
  destruct (above_eps _); reflexivity.
Qed.

Lemma rehedge_vega_config self S date sofr vol pg :
  config (fst (fst (rehedge_vega self S date sofr vol pg))) = config self.
Proof.
  unfold rehedge_vega. destruct (vega_inst self) as [v |]; [| reflexivity].
  destruct (above_eps _); reflexivity.
Qed.

Lemma rebalance_config self date row self' costs :
  rebalance self date row = Some (self', costs) -> config self' = config self.
Proof.
  unfold rebalance. destruct (current_portfolio_view self) as [view |];
    [| discriminate].
  set (pg := PortfolioManager.get_greeks _ _ _ _ _).
  pose proof (rehedge_gamma_config self (spot row) date (sofr row) (vol row) pg)
    as Ha.
  destruct (rehedge_gamma _ _ _ _ _ pg) as [[self_a greeks_a] cg].
  pose proof (rehedge_vega_config self_a (spot row) date (sofr row) (vol row)
                greeks_a) as Hb.
  destruct (rehedge_vega _ _ _ _ _ greeks_a) as [[self_b greeks_b] cv].
  cbn [fst] in Ha, Hb. cbn. intros [= <- _].
  now rewrite <- Ha, <- Hb.
Qed.

Lemma gate_config self k date row self' costs :
  gate self k date row = Some (self', costs) -> config self' = config self.
Proof.
  unfold gate. destruct (rehedge_interval self =? 0)%Z; [discriminate |].
  destruct (_ =? 0)%Z.
  - apply rebalance_config.
  - now intros [= <- _].
Qed.

Lemma step_config self k date row self' res :
  step self k date row = Some (self', res) -> config self' = config self.
Proof.
  unfold step. destruct (gate _ _ _ _) as [[self2 costs] |] eqn:E;
    [| discriminate].
  intros [= <- _]. now apply gate_config in E.
Qed.

(** The instrumented loop, row by row: the [i]-th entry of the trace is the
    outcome of [step] on the engine left by the entry before it. *)
Lemma run_loop_nth rows : forall self k tr i date row,
  run_loop rows self k = Some tr ->
  nth_error rows i = Some (date, row) ->
  exists s s' res,
    before self tr i = Some s /\
    nth_error tr i = Some (s', res) /\
    step s (k + Z.of_nat i) date row = Some (s', res) /\
    config s = config self.
Proof.
  induction rows as [| [d0 r0] rows IH]; intros self k tr i date row Hrun Hi.
  - destruct i; discriminate.
  - cbn [run_loop] in Hrun.
    destruct (step self k d0 r0) as [[self1 res1] |] eqn:Hstep;
      [| discriminate].
    destruct (run_loop rows self1 (k + 1)) as [tr1 |] eqn:Hrest;
      [| discriminate].
    injection Hrun as <-.
    destruct i as [| i].
    + injection Hi as <- <-. exists self, self1, res1. cbn.
      rewrite Z.add_0_r. auto.
    + cbn [nth_error] in Hi.
      destruct (IH _ _ _ _ _ _ Hrest Hi) as (s & s' & res & Hb & Hn & Hs & Hc).
      exists s, s', res. repeat split.
      * destruct i as [| i]; cbn in Hb |- *; [| exact Hb].
        now injection Hb as <-.
      * exact Hn.
      * rewrite <- Hs. f_equal. lia.
      * rewrite Hc. now apply step_config in Hstep.
Qed.

Lemma run_loop_length rows : forall self k tr,
  run_loop rows self k = Some tr -> List.length tr = List.length rows.
Proof.
  induction rows as [| [d0 r0] rows IH]; intros self k tr Hrun.
  - now injection Hrun as <-.
  - cbn [run_loop] in Hrun.
    destruct (step self k d0 r0) as [[self1 res1] |]; [| discriminate].
    destruct (run_loop rows self1 (k + 1)) as [tr1 |] eqn:Hrest;
      [| discriminate].
    injection Hrun as <-. cbn. f_equal. eauto.
Qed.

(** ** Hedges are held only in configured instruments *)

Lemma init_hedges_configured portfolio df g v N self :
  __init__ portfolio df g v N = Some self -> hedges_configured self.
Proof.
  unfold __init__. destruct df as [| [date row0] rest]; [discriminate |].
  intros [= <-]. split; cbn; intros ->; reflexivity.
Qed.

Lemma rehedge_gamma_configured self S date sofr vol pg :
  hedges_configured self ->
  hedges_configured (fst (fst (rehedge_gamma self S date sofr vol pg))).
Proof.
  intros [Hg Hv]. unfold rehedge_gamma.
  destruct (gamma_inst self) as [g |] eqn:Eg; [| split; cbn; auto].
  destruct (above_eps _); split; cbn; auto; now rewrite Eg.
Qed.

Lemma rehedge_vega_configured self S date sofr vol pg :
  hedges_configured self ->
  hedges_configured (fst (fst (rehedge_vega self S date sofr vol pg))).
Proof.
  intros [Hg Hv]. unfold rehedge_vega.
  destruct (vega_inst self) as [v |] eqn:Ev; [| split; cbn; auto].
  destruct (above_eps _); split; cbn; auto; now rewrite Ev.
Qed.

Lemma rebalance_configured self date row self' costs :
  hedges_configured self ->
  rebalance self date row = Some (self', costs) ->
  hedges_configured self'.
Proof.
  intros Hwf. unfold rebalance.
  destruct (current_portfolio_view self) as [view |]; [| discriminate].
  set (pg := PortfolioManager.get_greeks _ _ _ _ _).
  pose proof (rehedge_gamma_configured self (spot row) date (sofr row)
                (vol row) pg Hwf) as Ha.
  destruct (rehedge_gamma _ _ _ _ _ pg) as [[self_a greeks_a] cg].
  pose proof (rehedge_vega_configured self_a (spot row) date (sofr row)
                (vol row) greeks_a Ha) as Hb.
  destruct (rehedge_vega _ _ _ _ _ greeks_a) as [[self_b greeks_b] cv].
  cbn [fst] in Hb. cbn. intros [= <- _]. exact Hb.
Qed.

Lemma step_configured self k date row self' res :
  hedges_configured self ->
  step self k date row = Some (self', res) ->
  hedges_configured self'.
Proof.
  intros Hwf. unfold step.
  assert (Hwf1 : hedges_configured (accrue_funding self row)) by exact Hwf.
  destruct (gate _ k date row) as [[self2 costs] |] eqn:E; [| discriminate].
  intros [= <- _]. unfold gate in E.
  destruct (_ =? 0)%Z; [discriminate |].
  destruct (_ =? 0)%Z.
  - eapply rebalance_configured; [exact Hwf1 | exact E].
  - now injection E as <- _.
Qed.

Lemma run_loop_configured rows : forall self k tr s res,
  hedges_configured self ->
  run_loop rows self k = Some tr ->
  In (s, res) tr ->
  hedges_configured s.
Proof.
  induction rows as [| [d0 r0] rows IH]; intros self k tr s res Hwf Hrun Hin.
  - injection Hrun as <-. contradiction.
  - cbn [run_loop] in Hrun.
    destruct (step self k d0 r0) as [[self1 res1] |] eqn:Hstep;
      [| discriminate].
    destruct (run_loop rows self1 (k + 1)) as [tr1 |] eqn:Hrest;
      [| discriminate].
    injection Hrun as <-.
    pose proof (step_configured _ _ _ _ _ _ Hwf Hstep) as Hwf1.
    destruct Hin as [[= <- _] | Hin]; [exact Hwf1 |].
    eapply IH; eauto.
Qed.

(** ** The run returns *)

Lemma add_hedge_total view inst pos :
  (inst = None -> pos = 0) -> exists view', add_hedge view inst pos = Some view'.
Proof.
  intros H. unfold add_hedge. destruct inst as [i |].
  - destruct (negb _); eauto.
  - rewrite (H eq_refl), Qceqb_refl. cbn. eauto.
Qed.

Lemma current_portfolio_view_total self :
  hedges_configured self -> exists view, current_portfolio_view self = Some view.
Proof.
  intros [Hg Hv]. unfold current_portfolio_view.
  destruct (add_hedge_total
              (PortfolioManager.copy_positions
                 (PortfolioManager.positions (portfolio self)))
              _ _ Hg) as [view' ->].
  now apply add_hedge_total.
Qed.

Lemma rebalance_total self date row :
  hedges_configured self -> exists out, rebalance self date row = Some out.
Proof.
  intros Hwf. unfold rebalance.
  destruct (current_portfolio_view_total self Hwf) as [view ->].
  destruct (rehedge_gamma _ _ _ _ _ _) as [[self_a greeks_a] cg].
  destruct (rehedge_vega _ _ _ _ _ _) as [[self_b greeks_b] cv].
  cbn. eauto.
Qed.

Lemma gate_total self k date row :
  hedges_configured self -> rehedge_interval self <> 0%Z ->
  exists out, gate self k date row = Some out.
Proof.
  intros Hwf HN. unfold gate. apply Z.eqb_neq in HN. rewrite HN.
  destruct (k mod rehedge_interval self =? 0)%Z.
  - now apply rebalance_total.
  - eauto.
Qed.

Lemma step_total self k date row :
  hedges_configured self -> rehedge_interval self <> 0%Z ->
  exists out, step self k date row = Some out.
Proof.
  intros Hwf HN. unfold step.
  destruct (gate_total (accrue_funding self row) k date row Hwf HN)
    as [[self2 costs] ->].
  eauto.
Qed.

Lemma run_loop_total rows : forall self k,
  hedges_configured self -> rehedge_interval self <> 0%Z ->
  exists tr, run_loop rows self k = Some tr.
Proof.
  induction rows as [| [d0 r0] rows IH]; intros self k Hwf HN.
  - cbn. eauto.
  - cbn [run_loop].
    destruct (step_total self k d0 r0 Hwf HN) as [[self1 res1] Hstep].
    rewrite Hstep.
    destruct (IH self1 (k + 1)%Z) as [tr1 ->].
    + eapply step_configured; eauto.
    + apply step_config in Hstep. unfold config in Hstep.
      injection Hstep as _ _ _ _ -> _ _ _. exact HN.
    + eauto.
Qed.

Lemma run_loop_In_config rows : forall self k tr s res,
  run_loop rows self k = Some tr -> In (s, res) tr -> config s = config self.
Proof.
  induction rows as [| [d0 r0] rows IH]; intros self k tr s res Hrun Hin.
  - injection Hrun as <-. contradiction.
  - cbn [run_loop] in Hrun.
    destruct (step self k d0 r0) as [[self1 res1] |] eqn:Hstep;
      [| discriminate].
    destruct (run_loop rows self1 (k + 1)) as [tr1 |] eqn:Hrest;
      [| discriminate].
    injection Hrun as <-. apply step_config in Hstep.
    destruct Hin as [[= <- _] | Hin]; [exact Hstep |].
    rewrite <- Hstep. eapply IH; eauto.
Qed.

(** ** What the constructor fixes *)

Lemma init_some portfolio df g v N self :
  __init__ portfolio df g v N = Some self ->
  exists date row0 rest,
    df = (date, row0) :: rest /\
    config self
    = (portfolio, df, g, v, N, vol row0, lit 5 1, lit 100 1).
Proof.
  unfold __init__. destruct df as [| [date row0] rest]; [discriminate |].
  intros [= <-]. exists date, row0, rest. split; reflexivity.
Qed.

Lemma init_total portfolio date row0 rest g v N :
  exists self, __init__ portfolio ((date, row0) :: rest) g v N = Some self.
Proof. cbn. eauto. Qed.

(** ** The friction cost *)

Lemma spread_cost_refines self notional current_vol is_option :
  stock_spread_bps self = lit 5 1 ->
  option_spread_bps self = lit 100 1 ->
  _get_spread_cost self notional current_vol is_option
  = FrictionCostModel.cost (base_vol self) notional current_vol is_option.
Proof.
  intros Hs Ho. unfold _get_spread_cost, FrictionCostModel.cost,
    FrictionCostModel.base_spread_bps.
  rewrite Hs, Ho. unfold Qcdiv. destruct is_option; ring.
Qed.

(** The model is linear in the volatility. *)
Lemma cost_linear base_vol notional current_vol is_option :
  FrictionCostModel.cost base_vol notional current_vol is_option
  = current_vol
    * (Qcabs notional * FrictionCostModel.base_spread_bps is_option
       * / base_vol * / lit 20000 1).
Proof.
  unfold FrictionCostModel.cost, Qcdiv.
  replace (/ lit 20000 1) with (/ lit 10000 1 * / lit 2 1).
  - ring.
  - rewrite <- Qcinv_mult_distr. f_equal.
Qed.

Lemma base_spread_pos is_option :
  0 < FrictionCostModel.base_spread_bps is_option.
Proof. destruct is_option; reflexivity. Qed.

Lemma cost_slope_nonneg base_vol notional is_option :
  0 < base_vol ->
  0 <= Qcabs notional * FrictionCostModel.base_spread_bps is_option
       * / base_vol * / lit 20000 1.
Proof.
  intros Hb. repeat apply Qcmult_nonneg.
  - apply Qcabs_nonneg.
  - apply Qclt_le_weak, base_spread_pos.
  - now apply Qclt_le_weak, Qcinv_pos.
  - apply Qclt_le_weak, Qcinv_pos. reflexivity.
Qed.

(** ** The aggregator and the cost model: claims *)

(** C9 (Greek additivity), with floats read as exact rationals.  For every
    market snapshot and every list of positions, the aggregated risk vector
    equals the componentwise sum of the risk vectors of the parts of any
    partition of the list (the parts taken in any order, each aggregated
    on its own); in particular it does not depend on the order of the
    positions; and the empty portfolio aggregates to the all-zero
    vector. *)
Theorem C9_greek_additivity
    (S vol : float) (current_date : Timestamp) (r : float) :
  let agg ps :=
    PortfolioManager.get_greeks (PortfolioManager.mk ps) S vol current_date r in
  (forall (ps : list Position) (parts : list (list Position)),
      Permutation (List.concat parts) ps ->
      agg ps = Greeks.sum (map agg parts)) /\
  (forall ps qs : list Position, Permutation ps qs -> agg ps = agg qs) /\
  PortfolioManager.get_greeks PortfolioManager.__init__ S vol current_date r
  = Greeks.mk 0 0 0 0.
Proof.
  intros agg. split; [| split].
  - intros ps parts Hperm. subst agg. cbn beta.
    rewrite <- (get_greeks_perm S vol current_date r _ _ Hperm).
    apply get_greeks_concat.
  - intros ps qs Hperm. now apply get_greeks_perm.
  - reflexivity.
Qed.

(** The desk's book split into its two positions, taken in reverse order. *)
Lemma C9_greek_additivity_witness :
  let S := lit 100 1 in
  let vol := lit 1 5 in
  let r := lit 1 25 in
  let agg ps :=
    PortfolioManager.get_greeks (PortfolioManager.mk ps) S vol
      (Examples.day 0) r in
  let p1 := mkPosition Examples.convex (lit 1000 1) in
  let p2 := mkPosition Examples.underlying (lit 50 1) in
  Permutation (List.concat [[p2]%list; [p1]%list]) [p1; p2] /\
  agg [p1; p2] = Greeks.sum (map agg [[p2]%list; [p1]%list]).
Proof.
  intros S vol r agg p1 p2.
  assert (Hperm : Permutation (List.concat [[p2]%list; [p1]%list]) [p1; p2])
    by apply perm_swap.
  split; [exact Hperm |].
  exact (proj1 (C9_greek_additivity S vol (Examples.day 0) r)
           [p1; p2] [[p2]%list; [p1]%list] Hperm).
Defined.

(** C9 as stated fails over IEEE doubles, where the loop of [get_greeks]
    adds in list order: three positions of 0.1, 0.2 and 0.3 units of the
    underlying aggregate to the delta 0.6000000000000001, and the same
    positions in the reverse order to 0.6. *)
#[warnings="-inexact-float"]
Lemma C9_counterexample :
  Permutation Binary64.three_lots (rev Binary64.three_lots) /\
  Binary64.g_delta
    (Binary64.get_greeks Binary64.three_lots 100 0.2 (Examples.day 0) 0.04)
  = 0.6000000000000001%float /\
  Binary64.g_delta
    (Binary64.get_greeks (rev Binary64.three_lots) 100 0.2 (Examples.day 0)
       0.04)
  = 0.6%float /\
  PrimFloat.ltb 0.6 0.6000000000000001 = true.
Proof.
  split; [apply Permutation_rev |].
  split; [vm_compute; reflexivity |].
  split; vm_compute; reflexivity.
Qed.

(** C5 (friction cost formula).  For an engine built by [__init__], for
    every notional, every current volatility and both values of
    [is_option], [_get_spread_cost] returns
    [|notional| * ((base_spread_bps * (current_vol / base_vol)) / 10000) / 2]
    with [base_spread_bps] 100 for options and 5 otherwise, and [base_vol]
    the volatility of the first snapshot; the same holds for the engine as
    it stands after any step of the run, so [base_vol] is fixed for the
    run. *)
Theorem C5_spread_cost_formula portfolio df gamma_hedge_inst vega_hedge_inst
    N self :
  __init__ portfolio df gamma_hedge_inst vega_hedge_inst N = Some self ->
  exists date row0 rest,
    df = (date, row0) :: rest /\
    forall s,
      reached self s ->
      forall (notional current_vol : float) (is_option : bool),
        _get_spread_cost s notional current_vol is_option
        = Qcabs notional
          * (((if is_option then lit 100 1 else lit 5 1)
              * (current_vol / vol row0)) / lit 10000 1)
          / lit 2 1.
Proof.
  intros Hinit. destruct (init_some _ _ _ _ _ _ Hinit)
    as (date & row0 & rest & Hdf & Hcfg).
  exists date, row0, rest. split; [exact Hdf |].
  intros s Hs notional current_vol is_option.
  assert (Hc : config s = config self).
  { destruct Hs as [-> | (tr & res & Htr & Hin)]; [reflexivity |].
    eapply run_loop_In_config; eauto. }
  rewrite Hcfg in Hc. unfold config in Hc.
  injection Hc as _ _ _ _ _ Hbv Hss Hos.
  rewrite spread_cost_refines by assumption. now rewrite Hbv.
Qed.

(** On the desk of [Examples]: an option trade of notional -300 at
    volatility 0.4, twice the base volatility 0.2, costs 3. *)
Lemma C5_spread_cost_formula_witness :
  exists self,
    Examples.desk = Some self /\
    _get_spread_cost self (lit (-300) 1) (lit 2 5) true = lit 3 1.
Proof.
  destruct (init_total Examples.book (Examples.day 0) Examples.row0
              [(Examples.day 1, Examples.row1); (Examples.day 2, Examples.row2)]
              (Some Examples.short_dated) (Some Examples.long_dated) 2)
    as [self Hself].
  exists self. split; [exact Hself |].
  destruct (C5_spread_cost_formula _ _ _ _ _ _ Hself)
    as (date & row0 & rest & Hdf & Hcost).
  rewrite (Hcost self (or_introl eq_refl)).
  injection Hdf as _ <- _.
  apply Qc_is_canon. reflexivity.
Defined.

(** C6 (cost monotonicity), with floats read as exact rationals.  For an
    engine built by [__init__] whose base volatility is positive: for every
    notional and flag the friction cost is non-decreasing in the current
    volatility over non-negative volatilities; at a positive current
    volatility the cost is zero if and only if the notional is zero; and
    for every notional and volatility the cost of an option trade is at
    least 20 times the cost of a stock trade. *)
Theorem C6_cost_monotone portfolio df gamma_hedge_inst vega_hedge_inst N self :
  __init__ portfolio df gamma_hedge_inst vega_hedge_inst N = Some self ->
  0 < base_vol self ->
  (forall notional is_option v1 v2,
      0 <= v1 -> v1 <= v2 ->
      _get_spread_cost self notional v1 is_option
      <= _get_spread_cost self notional v2 is_option) /\
  (forall notional is_option current_vol,
      0 < current_vol ->
      (_get_spread_cost self notional current_vol is_option = 0
       <-> notional = 0)) /\
  (forall notional current_vol,
      lit 20 1 * _get_spread_cost self notional current_vol false
      <= _get_spread_cost self notional current_vol true).
Proof.
  intros Hinit Hbv.
  destruct (init_some _ _ _ _ _ _ Hinit) as (date & row0 & rest & _ & Hcfg).
  unfold config in Hcfg. injection Hcfg as _ _ _ _ _ _ Hss Hos.
  assert (Hbv0 : base_vol self <> 0)
    by (intros E; rewrite E in Hbv; discriminate).
  split; [| split].
  - intros notional is_option v1 v2 _ Hle.
    rewrite !spread_cost_refines, !cost_linear by assumption.
    apply Qcmult_le_compat_r; [exact Hle |].
    now apply cost_slope_nonneg.
  - intros notional is_option current_vol Hv.
    rewrite spread_cost_refines, cost_linear by assumption. split.
    + intros H.
      apply Qcmult_integral in H. destruct H as [H | H].
      { rewrite H in Hv. discriminate. }
      apply Qcmult_integral in H. destruct H as [H | H].
      2:{ discriminate. }
      apply Qcmult_integral in H. destruct H as [H | H].
      2:{ exfalso. apply (Qclt_not_eq _ _ (Qcinv_pos _ Hbv)). now symmetry. }
      apply Qcmult_integral in H. destruct H as [H | H].
      * now apply Qcabs_null.
      * destruct is_option; discriminate.
    + intros ->. rewrite Qcabs_0. ring.
  - intros notional current_vol.
    rewrite !spread_cost_refines, !cost_linear by assumption.
    unfold FrictionCostModel.base_spread_bps.
    replace (lit 100 1) with (lit 20 1 * lit 5 1) by reflexivity.
    match goal with |- ?a <= ?b => replace a with b by ring end.
    apply Qcle_refl.
Qed.

(** On the desk of [Examples] (base volatility 0.2): a stock trade of
    notional 400 costs no more at volatility 0.2 than at 0.3. *)
Lemma C6_cost_monotone_witness :
  exists self,
    Examples.desk = Some self /\
    0 < base_vol self /\
    _get_spread_cost self (lit 400 1) (lit 1 5) false
    <= _get_spread_cost self (lit 400 1) (lit 3 10) false.
Proof.
  destruct (init_total Examples.book (Examples.day 0) Examples.row0
              [(Examples.day 1, Examples.row1); (Examples.day 2, Examples.row2)]
              (Some Examples.short_dated) (Some Examples.long_dated) 2)
    as [self Hself].
  assert (Hbv : 0 < base_vol self).
  { destruct (init_some _ _ _ _ _ _ Hself) as (d & r0 & rest & Hdf & Hcfg).
    unfold config in Hcfg. injection Hcfg as _ _ _ _ _ -> _ _.
    injection Hdf as _ <- _. reflexivity. }
  exists self. split; [exact Hself |]. split; [exact Hbv |].
  apply (proj1 (C6_cost_monotone _ _ _ _ _ _ Hself Hbv)); discriminate.
Defined.

(** C6 as stated fails over IEEE doubles: on an engine whose base
    volatility is 0.2, at notional 400 and volatility 0.3, the option
    trade costs 2.9999999999999996 and the stock trade 0.15, so the
    option cost is below 20 times the stock cost, which is 3. *)
#[warnings="-inexact-float"]
Lemma C6_counterexample :
  PrimFloat.ltb 0 0.2 = true /\
  Binary64.option_trade_cost = 2.9999999999999996%float /\
  Binary64.stock_trade_cost = 0.15%float /\
  PrimFloat.mul 20 Binary64.stock_trade_cost = 3%float /\
  PrimFloat.leb (PrimFloat.mul 20 Binary64.stock_trade_cost)
    Binary64.option_trade_cost = false.
Proof. repeat split; vm_compute; reflexivity. Qed.

Lemma init_spreads portfolio df gamma_hedge_inst vega_hedge_inst N self :
  __init__ portfolio df gamma_hedge_inst vega_hedge_inst N = Some self ->
  stock_spread_bps self = lit 5 1 /\ option_spread_bps self = lit 100 1.
Proof.
  intros Hinit.
  destruct (init_some _ _ _ _ _ _ Hinit) as (date & row0 & rest & _ & Hcfg).
  unfold config in Hcfg. injection Hcfg as _ _ _ _ _ _ Hss Hos. now split.
Qed.

(** C7, as the code has it.  The constructor takes the portfolio, the
    scenario, the two optional hedge instruments and the re-hedge
    interval, and nothing else: every engine it builds has a stock spread
    of 5 basis points and an option spread of 100 basis points, and keeps
    them through the run. *)
Theorem C7_spreads_fixed portfolio df gamma_hedge_inst vega_hedge_inst N self :
  __init__ portfolio df gamma_hedge_inst vega_hedge_inst N = Some self ->
  forall s,
    reached self s ->
    stock_spread_bps s = lit 5 1 /\ option_spread_bps s = lit 100 1.
Proof.
  intros Hinit s Hs.
  destruct (init_spreads _ _ _ _ _ _ Hinit) as [Hss Hos].
  assert (Hc : config s = config self).
  { destruct Hs as [-> | (tr & res & Htr & Hin)]; [reflexivity |].
    eapply run_loop_In_config; eauto. }
  unfold config in Hc. injection Hc as _ _ _ _ _ _ -> ->. now split.
Qed.

Lemma C7_spreads_fixed_witness :
  exists self,
    Examples.delta_only = Some self /\
    stock_spread_bps self = lit 5 1 /\ option_spread_bps self = lit 100 1.
Proof.
  destruct (init_total Examples.book (Examples.day 0) Examples.row0
              [(Examples.day 1, Examples.row1); (Examples.day 2, Examples.row2)]
              None None 1) as [self Hself].
  exists self. split; [exact Hself |].
  exact (C7_spreads_fixed _ _ _ _ _ _ Hself self (or_introl eq_refl)).
Defined.

(** C7 as stated fails: engines can be constructed (the desk of
    [Examples] is one), and none of them has a base spread other than 5
    and 100 basis points, whatever the arguments of the constructor. *)
Lemma C7_counterexample :
  (exists self, Examples.desk = Some self) /\
  ~ (exists portfolio df gamma_hedge_inst vega_hedge_inst N self,
        __init__ portfolio df gamma_hedge_inst vega_hedge_inst N = Some self /\
        (stock_spread_bps self <> lit 5 1 \/
         option_spread_bps self <> lit 100 1)).
Proof.
  split.
  - apply init_total.
  - intros (portfolio & df & g & v & N & self & Hinit & Hne).
    destruct (init_spreads _ _ _ _ _ _ Hinit) as [Hss Hos].
    destruct Hne as [Hne | Hne]; contradiction.
Qed.

(** ** The option at its expiry *)

Lemma timedelta_days_same (d : Timestamp) : timedelta_days d d = 0%Z.
Proof. unfold timedelta_days. now rewrite Z.sub_diag. Qed.

Lemma time_to_maturity_at_expiry (o : EuropeanOption.t) :
  EuropeanOption.get_time_to_maturity o (EuropeanOption.expiry_date o) = 0.
Proof.
  unfold EuropeanOption.get_time_to_maturity.
  rewrite timedelta_days_same. cbn. apply Qc_is_canon. reflexivity.
Qed.

Lemma py_max_spec (a b : float) : is_max (py_max a b) a b.
Proof.
  unfold is_max, py_max. destruct (Qcltb a b) eqn:E.
  - apply Qcltb_lt in E. repeat split; auto using Qcle_refl, Qclt_le_weak.
  - apply Qcltb_ge in E. repeat split; auto using Qcle_refl.
Qed.

(** C8 (expiry boundary).  For every European option, spot, rate and
    volatility, when the current date is the expiry date: [price] returns
    the larger of 0 and [S - K] for a call and the larger of 0 and [K - S]
    for a put, and [gamma] and [vega] return 0, whatever the
    transcendental functions of the pricing formulas are. *)
Theorem C8_expiry_boundary
    (np_log np_exp np_sqrt norm_cdf norm_pdf : float -> float)
    (o : EuropeanOption.t) (S r sigma : float) (current_date : Timestamp) :
  current_date = EuropeanOption.expiry_date o ->
  let K := EuropeanOption.strike o in
  let p :=
    EuropeanOption.price np_log np_exp np_sqrt norm_cdf o S current_date
      r sigma in
  (EuropeanOption.option_type o = "call"%string -> is_max p 0 (S - K)) /\
  (EuropeanOption.option_type o = "put"%string -> is_max p 0 (K - S)) /\
  EuropeanOption.gamma np_log np_sqrt norm_pdf o S current_date r sigma = 0 /\
  EuropeanOption.vega np_log np_sqrt norm_pdf o S current_date r sigma = 0.
Proof.
  intros -> K p. subst K p.
  unfold EuropeanOption.price, EuropeanOption.gamma, EuropeanOption.vega,
    EuropeanOption.is_call.
  rewrite time_to_maturity_at_expiry.
  change (Qcleb 0 (lit 1 1000000)) with true.
  change (Qcltb 0 (lit 1 1000000)) with true.
  cbn iota. split; [| split; [| split]].
  - intros ->. apply py_max_spec.
  - intros ->. apply py_max_spec.
  - reflexivity.
  - reflexivity.
Qed.

(** A call struck at 100 and written with the type [Call]: at expiry and a
    spot of 120 it is worth 20. *)
Lemma C8_expiry_boundary_witness :
  let o := EuropeanOption.__init__ (lit 100 1) (Examples.day 30) "Call" in
  let id := fun x : float => x in
  Examples.day 30 = EuropeanOption.expiry_date o /\
  EuropeanOption.option_type o = "call"%string /\
  is_max
    (EuropeanOption.price id id id id o (lit 120 1) (Examples.day 30)
       (lit 1 25) (lit 1 5))
    0 (lit 120 1 - lit 100 1).
Proof.
  intros o id.
  assert (Hd : Examples.day 30 = EuropeanOption.expiry_date o) by reflexivity.
  assert (Ht : EuropeanOption.option_type o = "call"%string) by reflexivity.
  split; [exact Hd |]. split; [exact Ht |].
  exact (proj1 (C8_expiry_boundary id id id id id o (lit 120 1) (lit 1 25)
                  (lit 1 5) (Examples.day 30) Hd) Ht).
Defined.

(** ** One step of the run, taken apart *)

Lemma step_inv self k date row self' res :
  step self k date row = Some (self', res) ->
  exists costs,
    gate (accrue_funding self row) k date row = Some (self', costs) /\
    res = report self' date row costs (funding self row).
Proof.
  unfold step. destruct (gate _ _ _ _) as [[self2 costs] |]; [| discriminate].
  intros [= <- <-]. eauto.
Qed.

Lemma report_fields self date row costs fund :
  Result.total_pnl (report self date row costs fund)
  = pv_base self (spot row) date (sofr row) (vol row)
    + pv_hedges self (spot row) date (sofr row) (vol row)
    + cash self /\
  Result.stock_pos (report self date row costs fund) = pos_stock self /\
  Result.gamma_hedge_pos (report self date row costs fund)
  = pos_gamma_hedge self /\
  Result.vega_hedge_pos (report self date row costs fund)
  = pos_vega_hedge self /\
  Result.funding_cost (report self date row costs fund) = fund /\
  Result.txn_costs (report self date row costs fund)
  = snd costs + fst (fst costs) + snd (fst costs).
Proof. destruct costs as [[cg cv] cd]. cbn. auto 10. Qed.

(** The valuation of the hedges, leg by leg. *)
Lemma pv_hedges_legs self S date sofr vol :
  pv_hedges self S date sofr vol
  = pos_stock self * S
    + leg (gamma_inst self) price (pos_gamma_hedge self) S date sofr vol
    + leg (vega_inst self) price (pos_vega_hedge self) S date sofr vol.
Proof.
  unfold pv_hedges, leg.
  destruct (gamma_inst self), (vega_inst self); ring.
Qed.

Lemma config_fields s self :
  config s = config self ->
  portfolio s = portfolio self /\ gamma_inst s = gamma_inst self /\
  vega_inst s = vega_inst self /\ rehedge_interval s = rehedge_interval self.
Proof. unfold config. intros [= -> _ -> -> -> _ _ _]. auto. Qed.

Lemma Qcabs_small_0 (x y : float) (tol : float) :
  x = y -> 0 <= tol -> Qcabs (x - y) <= tol.
Proof.
  intros -> Htol. replace (y - y) with 0 by ring. now rewrite Qcabs_0.
Qed.

(** C1 (ledger conservation).  For every run and every step of it, the
    [total_pnl] of the step's result row equals [pv_base + pv_hedges + cash]
    at the step's snapshot, where [pv_base] is the aggregated price of the
    base positions, [pv_hedges] is [stock_position * S] plus each option
    hedge position times the price of its instrument (0 for a leg that is
    not configured), and [cash] and the positions are those of the ledger
    after the step, which are also the positions the row reports; the two
    sides are equal, hence within 1e-6 of each other. *)
Theorem C1_ledger_conservation self tr (i : nat) date row s' res :
  trace self = Some tr ->
  nth_error (scenario_df self) i = Some (date, row) ->
  nth_error tr i = Some (s', res) ->
  let S := spot row in
  let pv_base :=
    Greeks.price
      (PortfolioManager.get_greeks (portfolio self) S (vol row) date
         (sofr row)) in
  let pv_hedges :=
    pos_stock s' * S
    + leg (gamma_inst self) price (pos_gamma_hedge s') S date (sofr row)
        (vol row)
    + leg (vega_inst self) price (pos_vega_hedge s') S date (sofr row)
        (vol row) in
  Result.total_pnl res = pv_base + pv_hedges + cash s' /\
  Qcabs (Result.total_pnl res - (pv_base + pv_hedges + cash s'))
  <= lit 1 1000000 /\
  Result.stock_pos res = pos_stock s' /\
  Result.gamma_hedge_pos res = pos_gamma_hedge s' /\
  Result.vega_hedge_pos res = pos_vega_hedge s'.
Proof.
  intros Htr Hrow Hnth S pvb pvh.
  destruct (run_loop_nth _ _ _ _ _ _ _ Htr Hrow)
    as (s0 & s1 & res1 & _ & Hn & Hstep & Hc0).
  rewrite Hnth in Hn. injection Hn as <- <-.
  pose proof (step_config _ _ _ _ _ _ Hstep) as Hc1.
  rewrite Hc0 in Hc1.
  destruct (config_fields _ _ Hc1) as (Hp & Hg & Hv & _).
  destruct (step_inv _ _ _ _ _ _ Hstep) as (costs & _ & ->).
  destruct (report_fields s' date row costs (funding s0 row))
    as (Hpnl & Hst & Hgp & Hvp & _).
  assert (Heq : Result.total_pnl
                  (report s' date row costs (funding s0 row))
                = pvb + pvh + cash s').
  { rewrite Hpnl, pv_hedges_legs. unfold pv_base.
    rewrite copy_positions_id, Hp, Hg, Hv. reflexivity. }
  repeat split; try assumption.
  apply Qcabs_small_0; [exact Heq | discriminate].
Qed.

(** C4 (funding accrual).  At every step of a run the funding is
    [cash * rate * (1/252)] with [rate = sofr + credit_spread] when the cash
    balance before the step is negative and [rate = sofr] otherwise; the
    gate and the rebalancing act on the ledger whose cash is already
    increased by the funding; and that amount is the [funding_cost] of the
    step's result row. *)
Theorem C4_funding_accrual self tr (i : nat) date row s s' res :
  trace self = Some tr ->
  nth_error (scenario_df self) i = Some (date, row) ->
  before self tr i = Some s ->
  nth_error tr i = Some (s', res) ->
  exists rate funding_amount costs,
    (cash s < 0 -> rate = sofr row + credit_spread row) /\
    (~ cash s < 0 -> rate = sofr row) /\
    funding_amount = cash s * rate * (1 / lit 252 1) /\
    gate (set_cash s (cash s + funding_amount)) (Z.of_nat i) date row
    = Some (s', costs) /\
    Result.funding_cost res = funding_amount.
Proof.
  intros Htr Hrow Hbef Hnth.
  destruct (run_loop_nth _ _ _ _ _ _ _ Htr Hrow)
    as (s0 & s1 & res1 & Hb & Hn & Hstep & _).
  rewrite Hbef in Hb. injection Hb as <-.
  rewrite Hnth in Hn. injection Hn as <- <-.
  destruct (step_inv _ _ _ _ _ _ Hstep) as (costs & Hgate & ->).
  exists (funding_rate s row), (funding s row), costs.
  destruct (report_fields s' date row costs (funding s row))
    as (_ & _ & _ & _ & Hf & _).
  unfold funding_rate. repeat split.
  - intros Hneg. apply Qcltb_lt in Hneg. now rewrite Hneg.
  - intros Hpos. destruct (Qcltb (cash s) 0) eqn:E; [| reflexivity].
    apply Qcltb_lt in E. contradiction.
  - exact Hgate.
  - exact Hf.
Qed.

(** ** Constructed engines run to the end *)

Lemma constructed_runs portfolio df gamma_hedge_inst vega_hedge_inst N self :
  __init__ portfolio df gamma_hedge_inst vega_hedge_inst N = Some self ->
  N <> 0%Z ->
  exists tr,
    trace self = Some tr /\ List.length tr = List.length df /\
    scenario_df self = df /\ rehedge_interval self = N.
Proof.
  intros Hinit HN.
  destruct (init_some _ _ _ _ _ _ Hinit) as (date & row0 & rest & _ & Hcfg).
  unfold config in Hcfg. injection Hcfg as _ Hdf _ _ HNs _ _ _.
  destruct (run_loop_total (scenario_df self) self 0) as [tr Htr].
  - eapply init_hedges_configured; eauto.
  - now rewrite HNs.
  - exists tr. repeat split; try assumption.
    rewrite <- Hdf. eapply run_loop_length; eauto.
Qed.

(** [run] returns the rows of the instrumented loop. *)
Lemma run_rows self rows :
  run self = Some rows ->
  exists tr, trace self = Some tr /\ rows = map snd tr.
Proof.
  unfold run. destruct (trace self) as [[| x tr] |]; try discriminate.
  intros [= <-]. eauto.
Qed.

(** A constructed engine with a non-zero interval returns one row per
    snapshot of its scenario. *)
Lemma constructed_run_returns portfolio df gamma_hedge_inst vega_hedge_inst
    N self :
  __init__ portfolio df gamma_hedge_inst vega_hedge_inst N = Some self ->
  N <> 0%Z ->
  exists rows, run self = Some rows /\ List.length rows = List.length df.
Proof.
  intros Hinit HN.
  destruct (constructed_runs _ _ _ _ _ _ Hinit HN) as (tr & Htr & Hlen & _).
  destruct (init_some _ _ _ _ _ _ Hinit) as (date & row0 & rest & -> & _).
  unfold run. rewrite Htr. destruct tr as [| x tr]; [discriminate |].
  exists (map snd (x :: tr)). split; [reflexivity |].
  now rewrite length_map.
Qed.

(** The desk of [Examples] and its run. *)
Lemma desk_runs :
  exists self tr,
    Examples.desk = Some self /\
    scenario_df self = Examples.scenario /\
    rehedge_interval self = 2%Z /\
    trace self = Some tr.
Proof.
  destruct (init_total Examples.book (Examples.day 0) Examples.row0
              [(Examples.day 1, Examples.row1); (Examples.day 2, Examples.row2)]
              (Some Examples.short_dated) (Some Examples.long_dated) 2)
    as [self Hself].
  destruct (constructed_runs _ _ _ _ _ _ Hself) as (tr & Htr & _ & Hdf & HN);
    [discriminate |].
  exists self, tr. auto.
Defined.

(** What a run holds at a row of the scenario. *)
Lemma trace_at self tr (i : nat) date row :
  trace self = Some tr ->
  nth_error (scenario_df self) i = Some (date, row) ->
  exists s s' res,
    before self tr i = Some s /\ nth_error tr i = Some (s', res).
Proof.
  intros Htr Hrow.
  destruct (run_loop_nth _ _ _ _ _ _ _ Htr Hrow)
    as (s & s' & res & Hb & Hn & _).
  eauto.
Defined.

(** The second row (day 1) of the desk's run. *)
Lemma C1_ledger_conservation_witness :
  exists self tr s' res,
    Examples.desk = Some self /\
    trace self = Some tr /\
    nth_error (scenario_df self) 1 = Some (Examples.day 1, Examples.row1) /\
    nth_error tr 1 = Some (s', res) /\
    Result.total_pnl res
    = Greeks.price
        (PortfolioManager.get_greeks (portfolio self) (lit 98 1) (lit 1 4)
           (Examples.day 1) (lit 1 25))
      + (pos_stock s' * lit 98 1
         + leg (gamma_inst self) price (pos_gamma_hedge s') (lit 98 1)
             (Examples.day 1) (lit 1 25) (lit 1 4)
         + leg (vega_inst self) price (pos_vega_hedge s') (lit 98 1)
             (Examples.day 1) (lit 1 25) (lit 1 4))
      + cash s'.
Proof.
  destruct desk_runs as (self & tr & Hself & Hdf & _ & Htr).
  assert (Hrow : nth_error (scenario_df self) 1
                 = Some (Examples.day 1, Examples.row1))
    by (rewrite Hdf; reflexivity).
  destruct (trace_at self tr 1 _ _ Htr Hrow) as (s & s' & res & _ & Hn).
  exists self, tr, s', res. repeat split; try assumption.
  exact (proj1 (C1_ledger_conservation self tr 1 _ _ s' res Htr Hrow Hn)).
Defined.

(** The second row (day 1) of the desk's run. *)
Lemma C4_funding_accrual_witness :
  exists self tr s s' res,
    Examples.desk = Some self /\
    trace self = Some tr /\
    nth_error (scenario_df self) 1 = Some (Examples.day 1, Examples.row1) /\
    before self tr 1 = Some s /\
    nth_error tr 1 = Some (s', res) /\
    exists rate,
      (cash s < 0 -> rate = lit 1 25 + lit 3 200) /\
      (~ cash s < 0 -> rate = lit 1 25) /\
      Result.funding_cost res = cash s * rate * (1 / lit 252 1).
Proof.
  destruct desk_runs as (self & tr & Hself & Hdf & _ & Htr).
  assert (Hrow : nth_error (scenario_df self) 1
                 = Some (Examples.day 1, Examples.row1))
    by (rewrite Hdf; reflexivity).
  destruct (trace_at self tr 1 _ _ Htr Hrow) as (s & s' & res & Hb & Hn).
  exists self, tr, s, s', res. repeat split; try assumption.
  destruct (C4_funding_accrual self tr 1 _ _ s s' res Htr Hrow Hb Hn)
    as (rate & f & costs & Hneg & Hpos & Hf & _ & Hres).
  exists rate. repeat split; try assumption. now rewrite Hres.
Defined.

(** C3 (re-hedge gate).  For every run and every step whose zero-based
    counter is not divisible by the re-hedge interval, the three hedge
    positions after the step are those before it, the transaction cost of
    the step's result row is 0, the cash changes by the funding accrual of
    the step and by nothing else, and that accrual is the [funding_cost]
    the row reports. *)
Theorem C3_rehedge_gate self tr (i : nat) date row s s' res :
  trace self = Some tr ->
  nth_error (scenario_df self) i = Some (date, row) ->
  before self tr i = Some s ->
  nth_error tr i = Some (s', res) ->
  (Z.of_nat i mod rehedge_interval self <> 0)%Z ->
  pos_stock s' = pos_stock s /\
  pos_gamma_hedge s' = pos_gamma_hedge s /\
  pos_vega_hedge s' = pos_vega_hedge s /\
  Result.txn_costs res = 0 /\
  cash s' = cash s + funding s row /\
  Result.funding_cost res = funding s row.
Proof.
  intros Htr Hrow Hbef Hnth Hmod.
  destruct (run_loop_nth _ _ _ _ _ _ _ Htr Hrow)
    as (s0 & s1 & res1 & Hb & Hn & Hstep & Hc).
  rewrite Hbef in Hb. injection Hb as <-.
  rewrite Hnth in Hn. injection Hn as <- <-.
  destruct (config_fields _ _ Hc) as (_ & _ & _ & HN).
  destruct (step_inv _ _ _ _ _ _ Hstep) as (costs & Hgate & ->).
  unfold gate in Hgate.
  change (rehedge_interval (accrue_funding s row))
    with (rehedge_interval s) in Hgate.
  rewrite HN, Z.add_0_l in Hgate.
  destruct (rehedge_interval self =? 0)%Z; [discriminate |].
  apply Z.eqb_neq in Hmod. rewrite Hmod in Hgate.
  injection Hgate as <- <-. cbn. repeat split; reflexivity.
Qed.

(** The desk re-hedges every second day: the second row (counter 1) is a
    skipped step. *)
Lemma C3_rehedge_gate_witness :
  exists self tr s s' res,
    Examples.desk = Some self /\
    trace self = Some tr /\
    nth_error (scenario_df self) 1 = Some (Examples.day 1, Examples.row1) /\
    before self tr 1 = Some s /\
    nth_error tr 1 = Some (s', res) /\
    (Z.of_nat 1 mod rehedge_interval self <> 0)%Z /\
    pos_stock s' = pos_stock s /\ Result.txn_costs res = 0.
Proof.
  destruct desk_runs as (self & tr & Hself & Hdf & HN & Htr).
  assert (Hrow : nth_error (scenario_df self) 1
                 = Some (Examples.day 1, Examples.row1))
    by (rewrite Hdf; reflexivity).
  assert (Hmod : (Z.of_nat 1 mod rehedge_interval self <> 0)%Z)
    by (rewrite HN; discriminate).
  destruct (trace_at self tr 1 _ _ Htr Hrow) as (s & s' & res & Hb & Hn).
  exists self, tr, s, s', res. repeat split; try assumption.
  - exact (proj1 (C3_rehedge_gate self tr 1 _ _ s s' res Htr Hrow Hb Hn Hmod)).
  - exact (proj1 (proj2 (proj2 (proj2
             (C3_rehedge_gate self tr 1 _ _ s s' res Htr Hrow Hb Hn Hmod))))).
Defined.

(** ** Hedges without an instrument *)

Lemma run_loop_In_step rows : forall self k tr s res,
  run_loop rows self k = Some tr -> In (s, res) tr ->
  exists s0 k0 date row, step s0 k0 date row = Some (s, res).
Proof.
  induction rows as [| [d0 r0] rows IH]; intros self k tr s res Hrun Hin.
  - injection Hrun as <-. contradiction.
  - cbn [run_loop] in Hrun.
    destruct (step self k d0 r0) as [[self1 res1] |] eqn:Hstep;
      [| discriminate].
    destruct (run_loop rows self1 (k + 1)) as [tr1 |] eqn:Hrest;
      [| discriminate].
    injection Hrun as <-.
    destruct Hin as [[= <- <-] | Hin]; [eauto | eapply IH; eauto].
Qed.

Lemma reached_config self s : reached self s -> config s = config self.
Proof.
  intros [-> | (tr & res & Htr & Hin)]; [reflexivity |].
  eapply run_loop_In_config; eauto.
Qed.

Lemma reached_configured self s :
  hedges_configured self -> reached self s -> hedges_configured s.
Proof.
  intros Hwf [-> | (tr & res & Htr & Hin)]; [exact Hwf |].
  eapply run_loop_configured; eauto.
Qed.

Lemma rehedge_gamma_none self S date sofr vol pg :
  gamma_inst self = None ->
  rehedge_gamma self S date sofr vol pg = (self, pg, 0).
Proof. unfold rehedge_gamma. now intros ->. Qed.

Lemma rehedge_vega_none self S date sofr vol pg :
  vega_inst self = None ->
  rehedge_vega self S date sofr vol pg = (self, pg, 0).
Proof. unfold rehedge_vega. now intros ->. Qed.

Lemma row_positions self tr s res :
  trace self = Some tr -> In (s, res) tr ->
  Result.stock_pos res = pos_stock s /\
  Result.gamma_hedge_pos res = pos_gamma_hedge s /\
  Result.vega_hedge_pos res = pos_vega_hedge s.
Proof.
  intros Htr Hin.
  destruct (run_loop_In_step _ _ _ _ _ _ Htr Hin) as (s0 & k0 & d & r & Hstep).
  destruct (step_inv _ _ _ _ _ _ Hstep) as (costs & _ & ->).
  destruct (report_fields s d r costs (funding s0 r)) as (_ & H1 & H2 & H3 & _).
  auto.
Qed.

(** C10 (unconfigured hedges).  For an engine constructed with no
    gamma-hedge instrument, the gamma-hedge position is 0 after
    construction and after every step, every result row reports 0 for it,
    and the gamma stage leaves the ledger and the risk view as they are
    and charges a cost of 0; the same holds for the vega hedge when no
    vega-hedge instrument is given; so, whatever the configuration, a
    hedge position is non-zero only when its instrument is configured. *)
Theorem C10_unconfigured_hedges portfolio df gamma_hedge_inst vega_hedge_inst
    N self :
  __init__ portfolio df gamma_hedge_inst vega_hedge_inst N = Some self ->
  (gamma_hedge_inst = None ->
   forall s, reached self s ->
     pos_gamma_hedge s = 0 /\
     (forall tr res, trace self = Some tr -> In (s, res) tr ->
        Result.gamma_hedge_pos res = 0) /\
     (forall S date sofr vol port_greeks,
        rehedge_gamma s S date sofr vol port_greeks = (s, port_greeks, 0))) /\
  (vega_hedge_inst = None ->
   forall s, reached self s ->
     pos_vega_hedge s = 0 /\
     (forall tr res, trace self = Some tr -> In (s, res) tr ->
        Result.vega_hedge_pos res = 0) /\
     (forall S date sofr vol port_greeks,
        rehedge_vega s S date sofr vol port_greeks = (s, port_greeks, 0))) /\
  (forall s, reached self s ->
     (pos_gamma_hedge s <> 0 -> gamma_inst s <> None) /\
     (pos_vega_hedge s <> 0 -> vega_inst s <> None)).
Proof.
  intros Hinit.
  pose proof (init_hedges_configured _ _ _ _ _ _ Hinit) as Hwf.
  destruct (init_some _ _ _ _ _ _ Hinit) as (date & row0 & rest & _ & Hcfg).
  unfold config in Hcfg. injection Hcfg as _ _ Hg Hv _ _ _ _.
  split; [| split].
  - intros -> s Hs.
    destruct (config_fields _ _ (reached_config _ _ Hs)) as (_ & Hgs & _ & _).
    rewrite Hg in Hgs.
    destruct (reached_configured _ _ Hwf Hs) as [Hpos _].
    specialize (Hpos Hgs). split; [exact Hpos | split].
    + intros tr res Htr Hin.
      destruct (row_positions _ _ _ _ Htr Hin) as (_ & -> & _). exact Hpos.
    + intros. now apply rehedge_gamma_none.
  - intros -> s Hs.
    destruct (config_fields _ _ (reached_config _ _ Hs)) as (_ & _ & Hvs & _).
    rewrite Hv in Hvs.
    destruct (reached_configured _ _ Hwf Hs) as [_ Hpos].
    specialize (Hpos Hvs). split; [exact Hpos | split].
    + intros tr res Htr Hin.
      destruct (row_positions _ _ _ _ Htr Hin) as (_ & _ & ->). exact Hpos.
    + intros. now apply rehedge_vega_none.
  - intros s Hs. destruct (reached_configured _ _ Hwf Hs) as [Hpg Hpv].
    split; intros Hne Hnone; apply Hne; auto.
Qed.

(** The delta-only engine of [Examples]: no hedge instrument at all. *)
Lemma C10_unconfigured_hedges_witness :
  exists self tr,
    Examples.delta_only = Some self /\
    trace self = Some tr /\
    pos_gamma_hedge self = 0 /\ pos_vega_hedge self = 0 /\
    Forall (fun x => pos_gamma_hedge (fst x) = 0 /\
                     Result.gamma_hedge_pos (snd x) = 0) tr.
Proof.
  destruct (init_total Examples.book (Examples.day 0) Examples.row0
              [(Examples.day 1, Examples.row1); (Examples.day 2, Examples.row2)]
              None None 1) as [self Hself].
  destruct (constructed_runs _ _ _ _ _ _ Hself) as (tr & Htr & _);
    [discriminate |].
  destruct (C10_unconfigured_hedges _ _ _ _ _ _ Hself) as (Hg & Hv & _).
  exists self, tr. split; [exact Hself |]. split; [exact Htr |].
  split; [apply (Hg eq_refl self), or_introl, eq_refl |].
  split; [apply (Hv eq_refl self), or_introl, eq_refl |].
  apply Forall_forall. intros [s res] Hin.
  assert (Hs : reached self s) by (right; eauto).
  destruct (Hg eq_refl s Hs) as (H0 & Hrow & _).
  split; [exact H0 | eapply Hrow; eauto].
Defined.

(** ** Day 0 *)

Lemma get_greeks_snoc S vol date r (ps : list Position) inst q :
  PortfolioManager.get_greeks
    (PortfolioManager.mk (ps ++ (mkPosition inst q :: nil))) S vol date r
  = PortfolioManager.accumulate S vol date r
      (PortfolioManager.get_greeks (PortfolioManager.mk ps) S vol date r)
      (mkPosition inst q).
Proof.
  unfold PortfolioManager.get_greeks. cbn [PortfolioManager.positions].
  now rewrite fold_left_app.
Qed.

Lemma above_eps_iff (u : float) : above_eps u = true <-> eps < Qcabs u.
Proof. apply Qcltb_lt. Qed.

Lemma within_eps_of_zero (x : float) : x = 0 -> Qcabs x <= eps.
Proof. intros ->. apply within_eps_0. Qed.

(** C2 fails on the desk of [Examples].  Both unit sensitivities exceed
    1e-9, and the Day-0 cascade of [__init__] sizes the gamma hedge at
    -200 and the vega hedge at -460 contracts; the gamma those 460
    contracts bring is never offset, so right after construction the
    aggregate gamma of the base portfolio with both option hedges is
    -46/5, not within 1e-9 of zero, where the comments of [__init__] call
    the portfolio neutral and delta-, gamma- and vega-hedged. *)
Lemma C2_day0_residual_gamma :
  exists self,
    Examples.desk = Some self /\
    eps < Qcabs (gamma Examples.short_dated (lit 100 1) (Examples.day 0)
                   (lit 1 25) (lit 1 5)) /\
    eps < Qcabs (vega Examples.long_dated (lit 100 1) (Examples.day 0)
                   (lit 1 25) (lit 1 5)) /\
    pos_gamma_hedge self = lit (-200) 1 /\
    pos_vega_hedge self = lit (-460) 1 /\
    let hedged :=
      PortfolioManager.mk
        ((PortfolioManager.positions Examples.book
          ++ (mkPosition Examples.short_dated (pos_gamma_hedge self) :: nil))
         ++ (mkPosition Examples.long_dated (pos_vega_hedge self) :: nil)) in
    let risk :=
      PortfolioManager.get_greeks hedged (lit 100 1) (lit 1 5)
        (Examples.day 0) (lit 1 25) in
    Greeks.gamma risk = lit (-46) 5 /\
    ~ Qcabs (Greeks.gamma risk) <= eps.
Proof.
  eexists. split; [reflexivity |].
  split; [reflexivity |]. split; [reflexivity |].
  split; [apply Qc_is_canon; vm_compute; reflexivity |].
  split; [apply Qc_is_canon; vm_compute; reflexivity |].
  cbv zeta. split.
  - apply Qc_is_canon. vm_compute. reflexivity.
  - apply Qclt_not_le. vm_compute. reflexivity.
Qed.

(** * Further properties of the code *)

(** ** [EuropeanOption]: time to maturity *)

Lemma float_of_int_le (a b : Z) :
  (a <= b)%Z -> float_of_int a <= float_of_int b.
Proof.
  intros H. unfold float_of_int, Qcle, Q2Qc. cbn [this].
  rewrite !Qred_correct. unfold Qle. cbn. lia.
Qed.

Lemma Qcdiv_le_compat (x y c : float) : 0 < c -> x <= y -> x / c <= y / c.
Proof.
  intros Hc Hxy. unfold Qcdiv. apply Qcmult_le_compat_r; [exact Hxy |].
  now apply Qclt_le_weak, Qcinv_pos.
Qed.

Lemma days_tenor_lower_bound (z : Z) :
  (1 <= z)%Z -> lit 1 365 <= float_of_int z / lit 365 1.
Proof.
  intros Hz.
  replace (lit 1 365) with (float_of_int 1 / lit 365 1)
    by (apply Qc_is_canon; reflexivity).
  apply Qcdiv_le_compat; [reflexivity | now apply float_of_int_le].
Qed.

Lemma ns_per_day_pos : (0 < ns_per_day)%Z.
Proof. reflexivity. Qed.

Lemma time_to_maturity_zero o current_date :
  at_expiry o current_date ->
  EuropeanOption.get_time_to_maturity o current_date = 0.
Proof.
  unfold at_expiry, EuropeanOption.get_time_to_maturity, timedelta_days.
  intros H.
  destruct (Z.ltb_spec
              ((EuropeanOption.expiry_date o - current_date) / ns_per_day) 0)
    as [Hneg | Hpos]; [reflexivity |].
  assert (Hz : ((EuropeanOption.expiry_date o - current_date) / ns_per_day
                = 0)%Z).
  { pose proof ns_per_day_pos as Hd.
    apply Z.le_antisymm; [| exact Hpos].
    apply Z.lt_succ_r. apply Z.div_lt_upper_bound; lia. }
  rewrite Hz. apply Qc_is_canon. reflexivity.
Qed.

Lemma time_to_maturity_whole_days o current_date :
  ~ at_expiry o current_date ->
  let days :=
    ((EuropeanOption.expiry_date o - current_date) / ns_per_day)%Z in
  (1 <= days)%Z /\
  EuropeanOption.get_time_to_maturity o current_date
  = float_of_int days / lit 365 1 /\
  lit 1 365 <= EuropeanOption.get_time_to_maturity o current_date.
Proof.
  intros H days. unfold at_expiry in H.
  assert (Hd : (1 <= days)%Z).
  { subst days. pose proof ns_per_day_pos.
    apply Z.div_le_lower_bound; lia. }
  assert (HT : EuropeanOption.get_time_to_maturity o current_date
               = float_of_int days / lit 365 1).
  { unfold EuropeanOption.get_time_to_maturity, timedelta_days. fold days.
    destruct (Z.ltb_spec days 0) as [Hneg | _]; [lia | reflexivity]. }
  split; [exact Hd |]. split; [exact HT |].
  rewrite HT. now apply days_tenor_lower_bound.
Qed.

Lemma tenor_above_threshold (T : float) :
  lit 1 365 <= T ->
  Qcleb T (lit 1 1000000) = false /\ Qcltb T (lit 1 1000000) = false.
Proof.
  intros HT. split.
  - destruct (Qcleb T (lit 1 1000000)) eqn:E; [| reflexivity].
    apply Qcleb_le in E. exfalso.
    apply (Qcle_not_lt _ _ (Qcle_trans _ _ _ HT E)). reflexivity.
  - apply Qcltb_ge. eapply Qcle_trans; [| exact HT]. discriminate.
Qed.

(** X1.  The time to maturity is 0 when less than one whole day is left to
    the expiry (or the expiry is past); otherwise it is the number of whole
    days left over 365, at least 1/365.  So the two tests of the source,
    [T <= 1e-6] (price, vega, d1/d2) and [T < 1e-6] (delta, gamma), always
    agree: both say that the time to maturity is 0. *)
Theorem time_to_maturity_dichotomy (o : EuropeanOption.t)
    (current_date : Timestamp) :
  let T := EuropeanOption.get_time_to_maturity o current_date in
  let days :=
    ((EuropeanOption.expiry_date o - current_date) / ns_per_day)%Z in
  ((at_expiry o current_date /\ T = 0 /\
    Qcleb T (lit 1 1000000) = true /\ Qcltb T (lit 1 1000000) = true) \/
   (~ at_expiry o current_date /\ (1 <= days)%Z /\
    T = float_of_int days / lit 365 1 /\ lit 1 365 <= T /\
    Qcleb T (lit 1 1000000) = false /\ Qcltb T (lit 1 1000000) = false)).
Proof.
  intros T days. subst T.
  destruct (Z_lt_dec (EuropeanOption.expiry_date o - current_date) ns_per_day)
    as [H | H].
  - left. split; [exact H |].
    rewrite (time_to_maturity_zero o current_date H). auto.
  - right. split; [exact H |].
    destruct (time_to_maturity_whole_days o current_date H) as (Hd & HT & Hb).
    destruct (tenor_above_threshold _ Hb) as [H1 H2]. auto 6.
Qed.

(** X2.  From one day before the expiry on, and for ever after it, a
    European option is at its terminal values: the price is the intrinsic
    value, the delta of a call is 1 in the money and 0 otherwise, the delta
    of a put is -1 in the money and 0 otherwise, and gamma and vega are 0,
    whatever the transcendental functions are. *)
Theorem expired_option_values
    (np_log np_exp np_sqrt norm_cdf norm_pdf : float -> float)
    (o : EuropeanOption.t) (S r sigma : float) (current_date : Timestamp) :
  at_expiry o current_date ->
  let K := EuropeanOption.strike o in
  let p :=
    EuropeanOption.price np_log np_exp np_sqrt norm_cdf o S current_date
      r sigma in
  let d :=
    EuropeanOption.delta np_log np_sqrt norm_cdf o S current_date r sigma in
  (EuropeanOption.is_call o = true ->
   is_max p 0 (S - K) /\ (K < S -> d = 1) /\ (S <= K -> d = 0)) /\
  (EuropeanOption.is_call o = false ->
   is_max p 0 (K - S) /\ (S < K -> d = - (1)) /\ (K <= S -> d = 0)) /\
  EuropeanOption.gamma np_log np_sqrt norm_pdf o S current_date r sigma = 0 /\
  EuropeanOption.vega np_log np_sqrt norm_pdf o S current_date r sigma = 0.
Proof.
  intros Hexp K p d. subst K p d.
  unfold EuropeanOption.price, EuropeanOption.delta, EuropeanOption.gamma,
    EuropeanOption.vega.
  rewrite (time_to_maturity_zero o current_date Hexp).
  change (Qcleb 0 (lit 1 1000000)) with true.
  change (Qcltb 0 (lit 1 1000000)) with true.
  cbn iota. split; [| split; [| split]]; try reflexivity.
  - intros ->. split; [apply py_max_spec |]. split.
    + intros H. apply Qcltb_lt in H. now rewrite H.
    + intros H. apply Qcltb_ge in H. now rewrite H.
  - intros ->. split; [apply py_max_spec |]. split.
    + intros H. apply Qcltb_lt in H. now rewrite H.
    + intros H. apply Qcltb_ge in H. now rewrite H.
Qed.

(** A put struck at 100, five hours after its expiry, the spot at 90. *)
Lemma expired_option_values_witness :
  let o := EuropeanOption.__init__ (lit 100 1) (Examples.day 30) "put" in
  let now := (Examples.day 30 + 5 * 3600 * 1000000000)%Z in
  let id := fun x : float => x in
  at_expiry o now /\
  EuropeanOption.is_call o = false /\
  is_max (EuropeanOption.price id id id id o (lit 90 1) now (lit 1 25)
            (lit 1 5))
         0 (lit 100 1 - lit 90 1) /\
  EuropeanOption.delta id id id o (lit 90 1) now (lit 1 25) (lit 1 5)
  = - (1).
Proof.
  intros o now id.
  assert (He : at_expiry o now) by reflexivity.
  destruct (expired_option_values id id id id id o (lit 90 1) (lit 1 25)
              (lit 1 5) now He) as (_ & Hput & _).
  destruct (Hput eq_refl) as (Hp & Hd & _).
  split; [exact He |]. split; [reflexivity |]. split; [exact Hp |].
  apply Hd. reflexivity.
Defined.

(** ** [EuropeanOption]: calls against puts *)

Lemma Qcopp_pos_neg (x : float) : 0 < - x -> x < 0.
Proof. intros H. apply Qclt_minus_iff. now rewrite Qcplus_0_l. Qed.

Lemma Qcopp_nonpos_nonneg (x : float) : - x <= 0 -> 0 <= x.
Proof.
  intros H. apply Qcle_minus_iff in H.
  now rewrite Qcplus_0_l, Qcopp_involutive in H.
Qed.

Lemma py_max_parity (x y : float) : y = - x -> py_max 0 x - py_max 0 y = x.
Proof.
  intros ->. unfold py_max.
  destruct (Qcltb 0 x) eqn:Ex, (Qcltb 0 (- x)) eqn:Ey.
  - apply Qcltb_lt in Ex, Ey. apply Qcopp_pos_neg in Ey. exfalso.
    apply (Qclt_not_eq _ _ (Qclt_trans _ _ _ Ex Ey)). reflexivity.
  - ring.
  - ring.
  - apply Qcltb_ge in Ex, Ey. apply Qcopp_nonpos_nonneg in Ey.
    replace (0 - 0) with 0 by ring. apply Qcle_antisym; assumption.
Qed.

(** X3.  Put-call parity before the expiry.  For a call and a put of the
    same strike and expiry with at least one whole day left, and a normal
    distribution function with [N(x) + N(-x) = 1]: the call price minus the
    put price is [S - K * exp(-r * T)], the call delta minus the put delta
    is 1, and gamma and vega are the same for both. *)
Theorem put_call_parity_before_expiry
    (np_log np_exp np_sqrt norm_cdf norm_pdf : float -> float)
    (K : float) (expiry : Timestamp) (S r sigma : float)
    (current_date : Timestamp) :
  let call := EuropeanOption.__init__ K expiry "call" in
  let put := EuropeanOption.__init__ K expiry "put" in
  ~ at_expiry call current_date ->
  (forall x, norm_cdf x + norm_cdf (- x) = 1) ->
  let T := EuropeanOption.get_time_to_maturity call current_date in
  EuropeanOption.price np_log np_exp np_sqrt norm_cdf call S current_date
    r sigma
  - EuropeanOption.price np_log np_exp np_sqrt norm_cdf put S current_date
      r sigma
  = S - K * np_exp (- r * T) /\
  EuropeanOption.delta np_log np_sqrt norm_cdf call S current_date r sigma
  - EuropeanOption.delta np_log np_sqrt norm_cdf put S current_date r sigma
  = 1 /\
  EuropeanOption.gamma np_log np_sqrt norm_pdf call S current_date r sigma
  = EuropeanOption.gamma np_log np_sqrt norm_pdf put S current_date r sigma /\
  EuropeanOption.vega np_log np_sqrt norm_pdf call S current_date r sigma
  = EuropeanOption.vega np_log np_sqrt norm_pdf put S current_date r sigma.
Proof.
  intros call put Hlive Hsym T.
  destruct (time_to_maturity_whole_days call current_date Hlive)
    as (_ & _ & Hb).
  destruct (tenor_above_threshold _ Hb) as [Hle Hlt].
  unfold EuropeanOption.price, EuropeanOption.delta, EuropeanOption.gamma,
    EuropeanOption.vega, EuropeanOption._calculate_d1_d2.
  change (EuropeanOption.get_time_to_maturity put current_date) with T.
  fold T in Hle, Hlt |- *. rewrite Hle, Hlt.
  change (EuropeanOption.is_call call) with true.
  change (EuropeanOption.is_call put) with false.
  change (EuropeanOption.strike call) with K.
  change (EuropeanOption.strike put) with K.
  cbn iota beta zeta.
  set (d1 := (np_log (S / K) + (r + lit 1 2 * sigma ^ 2) * T)
             / (sigma * np_sqrt T)).
  set (d2 := d1 - sigma * np_sqrt T).
  split; [| split; [| split]]; try reflexivity.
  - transitivity (S * (norm_cdf d1 + norm_cdf (- d1))
                  - K * np_exp (- r * T) * (norm_cdf d2 + norm_cdf (- d2))).
    + ring.
    + rewrite !Hsym. ring.
  - ring.
Qed.

(** A call and a put struck at 100, thirty days from the expiry, with a
    distribution function that is constantly 1/2. *)
Lemma put_call_parity_before_expiry_witness :
  let half := fun _ : float => lit 1 2 in
  let id := fun x : float => x in
  let call := EuropeanOption.__init__ (lit 100 1) (Examples.day 30) "call" in
  let put := EuropeanOption.__init__ (lit 100 1) (Examples.day 30) "put" in
  ~ at_expiry call (Examples.day 0) /\
  (forall x, half x + half (- x) = 1) /\
  EuropeanOption.delta id id half call (lit 90 1) (Examples.day 0)
    (lit 1 25) (lit 1 5)
  - EuropeanOption.delta id id half put (lit 90 1) (Examples.day 0)
      (lit 1 25) (lit 1 5)
  = 1.
Proof.
  intros half id call put.
  assert (Hlive : ~ at_expiry call (Examples.day 0)) by discriminate.
  assert (Hsym : forall x, half x + half (- x) = 1)
    by (intros x; apply Qc_is_canon; reflexivity).
  split; [exact Hlive |]. split; [exact Hsym |].
  exact (proj1 (proj2 (put_call_parity_before_expiry id id id half id
                         (lit 100 1) (Examples.day 30) (lit 90 1) (lit 1 25)
                         (lit 1 5) (Examples.day 0) Hlive Hsym))).
Defined.

(** X4.  Parity at the expiry.  For a call and a put of the same strike
    and expiry, from one day before the expiry on: the call price minus
    the put price is [S - K]; the call delta minus the put delta is 1
    unless the spot is exactly at the strike, where both deltas are 0. *)
Theorem put_call_parity_at_expiry
    (np_log np_exp np_sqrt norm_cdf : float -> float)
    (K : float) (expiry : Timestamp) (S r sigma : float)
    (current_date : Timestamp) :
  let call := EuropeanOption.__init__ K expiry "call" in
  let put := EuropeanOption.__init__ K expiry "put" in
  at_expiry call current_date ->
  let delta_of o :=
    EuropeanOption.delta np_log np_sqrt norm_cdf o S current_date r sigma in
  EuropeanOption.price np_log np_exp np_sqrt norm_cdf call S current_date
    r sigma
  - EuropeanOption.price np_log np_exp np_sqrt norm_cdf put S current_date
      r sigma
  = S - K /\
  (S <> K -> delta_of call - delta_of put = 1) /\
  (S = K -> delta_of call = 0 /\ delta_of put = 0).
Proof.
  intros call put Hexp delta_of. subst delta_of. cbn beta.
  unfold EuropeanOption.price, EuropeanOption.delta.
  change (EuropeanOption.get_time_to_maturity put current_date)
    with (EuropeanOption.get_time_to_maturity call current_date).
  rewrite (time_to_maturity_zero call current_date Hexp).
  change (Qcleb 0 (lit 1 1000000)) with true.
  change (Qcltb 0 (lit 1 1000000)) with true.
  change (EuropeanOption.is_call call) with true.
  change (EuropeanOption.is_call put) with false.
  change (EuropeanOption.strike call) with K.
  change (EuropeanOption.strike put) with K.
  cbn iota. split; [| split].
  - apply py_max_parity. ring.
  - intros Hne. destruct (Qc_dec S K) as [[Hlt | Hgt] | Heq].
    + pose proof (proj2 (Qcltb_lt S K) Hlt) as E1.
      pose proof (proj2 (Qcltb_ge K S) (Qclt_le_weak _ _ Hlt)) as E2.
      rewrite E1, E2. ring.
    + pose proof (proj2 (Qcltb_lt K S) Hgt) as E1.
      pose proof (proj2 (Qcltb_ge S K) (Qclt_le_weak _ _ Hgt)) as E2.
      rewrite E1, E2. ring.
    + contradiction.
  - intros ->.
    pose proof (proj2 (Qcltb_ge K K) (Qcle_refl K)) as E.
    now rewrite E.
Qed.

(** The same pair on the day of the expiry, the spot at 120. *)
Lemma put_call_parity_at_expiry_witness :
  let id := fun x : float => x in
  let call := EuropeanOption.__init__ (lit 100 1) (Examples.day 30) "call" in
  let put := EuropeanOption.__init__ (lit 100 1) (Examples.day 30) "put" in
  at_expiry call (Examples.day 30) /\
  EuropeanOption.price id id id id call (lit 120 1) (Examples.day 30)
    (lit 1 25) (lit 1 5)
  - EuropeanOption.price id id id id put (lit 120 1) (Examples.day 30)
      (lit 1 25) (lit 1 5)
  = lit 120 1 - lit 100 1.
Proof.
  intros id call put.
  assert (Hexp : at_expiry call (Examples.day 30)) by reflexivity.
  split; [exact Hexp |].
  exact (proj1 (put_call_parity_at_expiry id id id id (lit 100 1)
                  (Examples.day 30) (lit 120 1) (lit 1 25) (lit 1 5)
                  (Examples.day 30) Hexp)).
Defined.

(** ** [EuropeanOption]: the option type *)

Lemma lower_ascii_idempotent (c : ascii) :
  lower_ascii (lower_ascii c) = lower_ascii c.
Proof.
  destruct c as [[] [] [] [] [] [] [] []]; reflexivity.
Qed.

Lemma lower_idempotent (s : string) : lower (lower s) = lower s.
Proof.
  induction s as [| c s IH]; cbn [lower]; [reflexivity |].
  now rewrite lower_ascii_idempotent, IH.
Qed.

Lemma option_ext (np_log np_exp np_sqrt norm_cdf norm_pdf : float -> float)
    (K : float) (expiry : Timestamp) (t1 t2 : string) S current_date r sigma :
  String.eqb t1 "call" = String.eqb t2 "call" ->
  let o1 := EuropeanOption.mk K expiry t1 in
  let o2 := EuropeanOption.mk K expiry t2 in
  EuropeanOption.price np_log np_exp np_sqrt norm_cdf o1 S current_date r sigma
  = EuropeanOption.price np_log np_exp np_sqrt norm_cdf o2 S current_date
      r sigma /\
  EuropeanOption.delta np_log np_sqrt norm_cdf o1 S current_date r sigma
  = EuropeanOption.delta np_log np_sqrt norm_cdf o2 S current_date r sigma.
Proof.
  intros H o1 o2.
  unfold EuropeanOption.price, EuropeanOption.delta, EuropeanOption.is_call,
    EuropeanOption._calculate_d1_d2, EuropeanOption.get_time_to_maturity.
  subst o1 o2. cbn [EuropeanOption.option_type EuropeanOption.strike
                      EuropeanOption.expiry_date].
  rewrite H. split; reflexivity.
Qed.

(** X5.  The option type is read without regard to case, and only the
    word [call] is recognised: an option constructed with a type that
    lower-cases to [call] prices and hedges as a call; with any other type
    string it prices and hedges exactly as a put; gamma and vega do not
    depend on the type at all. *)
Theorem option_type_dispatch
    (np_log np_exp np_sqrt norm_cdf norm_pdf : float -> float)
    (K : float) (expiry : Timestamp) (ty : string) (S r sigma : float)
    (current_date : Timestamp) :
  let o := EuropeanOption.__init__ K expiry ty in
  let call := EuropeanOption.__init__ K expiry "call" in
  let put := EuropeanOption.__init__ K expiry "put" in
  let price_of x :=
    EuropeanOption.price np_log np_exp np_sqrt norm_cdf x S current_date
      r sigma in
  let delta_of x :=
    EuropeanOption.delta np_log np_sqrt norm_cdf x S current_date r sigma in
  (lower ty = "call"%string ->
   price_of o = price_of call /\ delta_of o = delta_of call) /\
  (lower ty <> "call"%string ->
   price_of o = price_of put /\ delta_of o = delta_of put) /\
  EuropeanOption.gamma np_log np_sqrt norm_pdf o S current_date r sigma
  = EuropeanOption.gamma np_log np_sqrt norm_pdf call S current_date r sigma /\
  EuropeanOption.vega np_log np_sqrt norm_pdf o S current_date r sigma
  = EuropeanOption.vega np_log np_sqrt norm_pdf put S current_date r sigma /\
  lower "CALL" = "call"%string /\ lower "Call" = "call"%string.
Proof.
  intros o call put price_of delta_of. subst o call put price_of delta_of.
  cbn beta. unfold EuropeanOption.__init__.
  split; [| split; [| split; [| split]]].
  - intros H.
    apply (option_ext np_log np_exp np_sqrt norm_cdf norm_pdf).
    rewrite H. reflexivity.
  - intros H.
    apply (option_ext np_log np_exp np_sqrt norm_cdf norm_pdf).
    apply String.eqb_neq in H. rewrite H. reflexivity.
  - reflexivity.
  - reflexivity.
  - split; reflexivity.
Qed.

(** ** [PortfolioManager]: linearity *)

Lemma get_greeks_single S vol date r inst q :
  PortfolioManager.get_greeks (PortfolioManager.mk (mkPosition inst q :: nil))
    S vol date r
  = Greeks.mk (price inst S date r vol * q) (delta inst S date r vol * q)
              (gamma inst S date r vol * q) (vega inst S date r vol * q).
Proof.
  unfold PortfolioManager.get_greeks, PortfolioManager.accumulate. cbn.
  apply greeks_eq; cbn; ring.
Qed.

(** X6.  The aggregator is linear in the quantities: multiplying every
    quantity by [c] multiplies the risk vector by [c]; two positions in
    the same instrument aggregate as one position in their summed
    quantity; a position of quantity 0 contributes nothing. *)
Theorem get_greeks_linear (S vol : float) (current_date : Timestamp)
    (r : float) :
  let agg ps :=
    PortfolioManager.get_greeks (PortfolioManager.mk ps) S vol current_date r in
  (forall c ps, agg (scale_positions c ps) = greeks_scale c (agg ps)) /\
  (forall ps inst q1 q2 qs,
      agg (ps ++ mkPosition inst q1 :: mkPosition inst q2 :: qs)
      = agg (ps ++ mkPosition inst (q1 + q2) :: qs)) /\
  (forall ps inst qs, agg (ps ++ mkPosition inst 0 :: qs) = agg (ps ++ qs)).
Proof.
  intros agg. subst agg. cbn beta. split; [| split].
  - intros c ps. induction ps as [| [inst q] ps IH].
    + apply greeks_eq; cbn; ring.
    + cbn [scale_positions map instrument qty].
      rewrite (get_greeks_cons S vol current_date r _ (scale_positions c ps)).
      rewrite (get_greeks_cons S vol current_date r _ ps).
      fold (scale_positions c ps) in IH. rewrite IH, !get_greeks_single.
      apply greeks_eq; cbn; ring.
  - intros ps inst q1 q2 qs. rewrite !get_greeks_app. f_equal.
    rewrite (get_greeks_cons S vol current_date r (mkPosition inst q1)).
    rewrite (get_greeks_cons S vol current_date r (mkPosition inst q2)).
    rewrite (get_greeks_cons S vol current_date r (mkPosition inst (q1 + q2))).
    rewrite !get_greeks_single, greeks_add_assoc. f_equal.
    apply greeks_eq; cbn; ring.
  - intros ps inst qs. rewrite !get_greeks_app. f_equal.
    rewrite (get_greeks_cons S vol current_date r (mkPosition inst 0)).
    rewrite get_greeks_single.
    rewrite <- (greeks_add_zero_l
                  (PortfolioManager.get_greeks (PortfolioManager.mk qs) S vol
                     current_date r)) at 2.
    f_equal. apply greeks_eq; cbn; ring.
Qed.

(** ** The engine: the risk view and the ledger through a re-hedge *)

Lemma leg_zero inst metric S date sofr vol :
  leg inst metric 0 S date sofr vol = 0.
Proof. unfold leg. destruct inst; ring. Qed.

Lemma add_hedge_risk view inst pos view' S date sofr vol :
  add_hedge view inst pos = Some view' ->
  PortfolioManager.get_greeks view' S vol date sofr
  = Greeks.add (PortfolioManager.get_greeks view S vol date sofr)
      (Greeks.mk (leg inst price pos S date sofr vol)
                 (leg inst delta pos S date sofr vol)
                 (leg inst gamma pos S date sofr vol)
                 (leg inst vega pos S date sofr vol)).
Proof.
  unfold add_hedge. destruct (Qceqb pos 0) eqn:E; cbn [negb].
  - intros [= <-]. apply Qceqb_eq in E. subst pos. rewrite !leg_zero.
    symmetry. apply greeks_add_zero_r.
  - destruct inst as [i |]; [| discriminate]. intros [= <-].
    destruct view as [ps]. unfold PortfolioManager.add_position.
    cbn [PortfolioManager.positions]. rewrite get_greeks_snoc.
    unfold PortfolioManager.accumulate, leg. apply greeks_eq; cbn; ring.
Qed.

(** The risk view built at the start of a re-hedge is the risk of the
    book. *)
Lemma view_is_book_risk self view S date sofr vol :
  current_portfolio_view self = Some view ->
  PortfolioManager.get_greeks view S vol date sofr
  = book_risk self S date sofr vol.
Proof.
  unfold current_portfolio_view. rewrite copy_positions_id.
  destruct (add_hedge (portfolio self) _ _) as [view1 |] eqn:E1;
    [| discriminate].
  intros E2.
  rewrite (add_hedge_risk _ _ _ _ S date sofr vol E2).
  rewrite (add_hedge_risk _ _ _ _ S date sofr vol E1).
  unfold book_risk. apply greeks_eq; cbn; ring.
Qed.

(** What the stages keep: the [delta] and [vega] of the working risk view
    follow the book through the gamma stage, the [delta] through the vega
    stage, and each stage takes from the ledger value its own cost and
    nothing else. *)
Lemma rehedge_gamma_tracks self S date sofr vol pg :
  Greeks.delta pg = Greeks.delta (book_risk self S date sofr vol) ->
  Greeks.vega pg = Greeks.vega (book_risk self S date sofr vol) ->
  forall self_a pg_a cost,
    rehedge_gamma self S date sofr vol pg = (self_a, pg_a, cost) ->
    Greeks.delta pg_a = Greeks.delta (book_risk self_a S date sofr vol) /\
    Greeks.vega pg_a = Greeks.vega (book_risk self_a S date sofr vol) /\
    ledger_value self_a S date sofr vol
    = ledger_value self S date sofr vol - cost /\
    pos_stock self_a = pos_stock self.
Proof.
  intros Hd Hv self_a pg_a cost. unfold rehedge_gamma.
  destruct (gamma_inst self) as [g |] eqn:Eg.
  - destruct (above_eps _).
    + intros [= <- <- <-].
      unfold book_risk, ledger_value, pv_hedges, leg in *.
      cbn in *. rewrite Eg in *. cbn in *. rewrite Hd, Hv.
      destruct (vega_inst self); repeat split; ring.
    + intros [= <- <- <-]. repeat split; try assumption.
      unfold ledger_value. ring.
  - intros [= <- <- <-]. repeat split; try assumption.
    unfold ledger_value. ring.
Qed.

Lemma rehedge_vega_tracks self S date sofr vol pg :
  Greeks.delta pg = Greeks.delta (book_risk self S date sofr vol) ->
  forall self_b pg_b cost,
    rehedge_vega self S date sofr vol pg = (self_b, pg_b, cost) ->
    Greeks.delta pg_b = Greeks.delta (book_risk self_b S date sofr vol) /\
    ledger_value self_b S date sofr vol
    = ledger_value self S date sofr vol - cost /\
    pos_stock self_b = pos_stock self.
Proof.
  intros Hd self_b pg_b cost. unfold rehedge_vega.
  destruct (vega_inst self) as [v |] eqn:Ev.
  - destruct (above_eps _).
    + intros [= <- <- <-].
      unfold book_risk, ledger_value, pv_hedges, leg in *.
      cbn in *. rewrite Ev in *. cbn in *. rewrite Hd.
      destruct (gamma_inst self); repeat split; ring.
    + intros [= <- <- <-]. repeat split; try assumption.
      unfold ledger_value. ring.
  - intros [= <- <- <-]. repeat split; try assumption.
    unfold ledger_value. ring.
Qed.

Lemma rehedge_delta_neutral self S date sofr vol pg self_c cost :
  Greeks.delta pg = Greeks.delta (book_risk self S date sofr vol) ->
  rehedge_delta self S vol pg = (self_c, cost) ->
  Greeks.delta (book_risk self_c S date sofr vol) + pos_stock self_c = 0 /\
  book_risk self_c S date sofr vol = book_risk self S date sofr vol /\
  ledger_value self_c S date sofr vol
  = ledger_value self S date sofr vol - cost.
Proof.
  intros Hd. unfold rehedge_delta. intros [= <- <-].
  unfold book_risk, ledger_value, pv_hedges, leg in *. cbn in *.
  rewrite Hd.
  destruct (gamma_inst self), (vega_inst self); repeat split; ring.
Qed.

Lemma rehedge_gamma_neutral self S date sofr vol pg g self_a pg_a cost :
  gamma_inst self = Some g ->
  eps < Qcabs (gamma g S date sofr vol) ->
  Greeks.gamma pg = Greeks.gamma (book_risk self S date sofr vol) ->
  rehedge_gamma self S date sofr vol pg = (self_a, pg_a, cost) ->
  Greeks.gamma (book_risk self_a S date sofr vol) = 0.
Proof.
  intros Eg Hu Hg. unfold rehedge_gamma. rewrite Eg.
  pose proof (proj2 (above_eps_iff _) Hu) as Ha. rewrite Ha.
  pose proof (above_eps_nonzero _ Ha) as Hnz.
  intros [= <- _ _]. unfold book_risk, leg in *. cbn in *.
  rewrite Eg in *. cbn in *. rewrite Hg.
  destruct (vega_inst self); field; exact Hnz.
Qed.

Lemma rehedge_vega_neutral self S date sofr vol pg v self_b pg_b cost :
  vega_inst self = Some v ->
  eps < Qcabs (vega v S date sofr vol) ->
  Greeks.vega pg = Greeks.vega (book_risk self S date sofr vol) ->
  rehedge_vega self S date sofr vol pg = (self_b, pg_b, cost) ->
  Greeks.vega (book_risk self_b S date sofr vol) = 0.
Proof.
  intros Ev Hu Hv. unfold rehedge_vega. rewrite Ev.
  pose proof (proj2 (above_eps_iff _) Hu) as Ha. rewrite Ha.
  pose proof (above_eps_nonzero _ Ha) as Hnz.
  intros [= <- _ _]. unfold book_risk, leg in *. cbn in *.
  rewrite Ev in *. cbn in *. rewrite Hv.
  destruct (gamma_inst self); field; exact Hnz.
Qed.

(** The vega stage changes the gamma of the book by the gamma of what it
    trades, and by nothing when it does not trade. *)
Lemma rehedge_vega_gamma self S date sofr vol pg self_b pg_b cost :
  rehedge_vega self S date sofr vol pg = (self_b, pg_b, cost) ->
  Greeks.gamma (book_risk self_b S date sofr vol)
  = Greeks.gamma (book_risk self S date sofr vol)
    + leg (vega_inst self) gamma (pos_vega_hedge self_b - pos_vega_hedge self)
        S date sofr vol /\
  gamma_inst self_b = gamma_inst self /\ vega_inst self_b = vega_inst self /\
  pos_gamma_hedge self_b = pos_gamma_hedge self.
Proof.
  unfold rehedge_vega.
  destruct (vega_inst self) as [v |] eqn:Ev.
  - destruct (above_eps _).
    + intros [= <- _ _]. unfold book_risk, leg. cbn. rewrite Ev.
      repeat split. destruct (gamma_inst self); ring.
    + intros [= <- _ _]. rewrite Ev. repeat split.
      unfold leg. ring.
  - intros [= <- _ _]. rewrite Ev. repeat split. unfold leg. ring.
Qed.

(** A re-hedge, start to end. *)
Lemma rebalance_outcome self date row self' cg cv cd :
  rebalance self date row = Some (self', (cg, cv, cd)) ->
  let S := spot row in
  let sofr := sofr row in
  let vol := vol row in
  Greeks.delta (book_risk self' S date sofr vol) + pos_stock self' = 0 /\
  ledger_value self' S date sofr vol
  = ledger_value self S date sofr vol - (cd + cg + cv) /\
  (forall v, vega_inst self = Some v ->
             eps < Qcabs (vega v S date sofr vol) ->
             Greeks.vega (book_risk self' S date sofr vol) = 0) /\
  (forall g, gamma_inst self = Some g ->
             eps < Qcabs (gamma g S date sofr vol) ->
             Greeks.gamma (book_risk self' S date sofr vol)
             = leg (vega_inst self) gamma
                 (pos_vega_hedge self' - pos_vega_hedge self)
                 S date sofr vol).
Proof.
  unfold rebalance.
  destruct (current_portfolio_view self) as [view |] eqn:Eview;
    [| discriminate].
  pose proof (view_is_book_risk self view (spot row) date (sofr row) (vol row)
                Eview) as Hview.
  set (pg := PortfolioManager.get_greeks view (spot row) (vol row) date
               (sofr row)) in *.
  destruct (rehedge_gamma self (spot row) date (sofr row) (vol row) pg)
    as [[self_a pg_a] cg0] eqn:Ea.
  destruct (rehedge_vega self_a (spot row) date (sofr row) (vol row) pg_a)
    as [[self_b pg_b] cv0] eqn:Eb.
  destruct (rehedge_delta self_b (spot row) (vol row) pg_b)
    as [self_c cd0] eqn:Ec.
  intros [= <- <- <- <-]. cbv zeta.
  destruct (rehedge_gamma_tracks self _ _ _ _ pg
              (f_equal Greeks.delta Hview) (f_equal Greeks.vega Hview)
              _ _ _ Ea) as (Hda & Hva & Hla & Hsa).
  destruct (rehedge_vega_tracks self_a _ _ _ _ pg_a Hda _ _ _ Eb)
    as (Hdb & Hlb & Hsb).
  destruct (rehedge_delta_neutral self_b _ date (sofr row) _ pg_b _ _ Hdb Ec)
    as (Hn & Hbook & Hlc).
  pose proof (rehedge_gamma_config self (spot row) date (sofr row) (vol row)
                pg) as Hca.
  rewrite Ea in Hca. cbn [fst] in Hca.
  destruct (config_fields _ _ Hca) as (_ & Hga & Hvia & _).
  destruct (rehedge_vega_gamma self_a _ _ _ _ pg_a _ _ _ Eb)
    as (Hgam & _ & _ & _).
  assert (Hpv : pos_vega_hedge self_a = pos_vega_hedge self).
  { revert Ea. unfold rehedge_gamma.
    destruct (gamma_inst self); [destruct (above_eps _) |];
      intros [= <- _ _]; reflexivity. }
  assert (Hpc : pos_vega_hedge self_c = pos_vega_hedge self_b).
  { revert Ec. unfold rehedge_delta. intros [= <- _]. reflexivity. }
  split; [exact Hn |]. split; [| split].
  - rewrite Hlc, Hlb, Hla. ring.
  - intros v Ev Hu. rewrite Hbook.
    eapply rehedge_vega_neutral; [| exact Hu | exact Hva | exact Eb].
    now rewrite Hvia.
  - intros g Eg Hu. rewrite Hbook, Hgam, Hvia, Hpc, Hpv.
    rewrite (rehedge_gamma_neutral self _ _ _ _ pg g _ _ _ Eg Hu
               (f_equal Greeks.gamma Hview) Ea).
    ring.
Qed.

Lemma gate_rehedges self k date row self' costs :
  gate self k date row = Some (self', costs) ->
  (k mod rehedge_interval self = 0)%Z ->
  rebalance self date row = Some (self', costs).
Proof.
  unfold gate. destruct (rehedge_interval self =? 0)%Z; [discriminate |].
  intros H Hmod. apply Z.eqb_eq in Hmod. now rewrite Hmod in H.
Qed.

Lemma ledger_value_accrue self row S date sofr vol :
  ledger_value (accrue_funding self row) S date sofr vol
  = ledger_value self S date sofr vol + funding self row.
Proof.
  unfold ledger_value, accrue_funding, pv_hedges. cbn.
  destruct (gamma_inst self), (vega_inst self); ring.
Qed.

Lemma book_risk_accrue self row S date sofr vol :
  book_risk (accrue_funding self row) S date sofr vol
  = book_risk self S date sofr vol.
Proof. reflexivity. Qed.

(** What one step does to the ledger value, whether it re-hedges or not. *)
Lemma gate_ledger self k date row self' cg cv cd :
  gate self k date row = Some (self', (cg, cv, cd)) ->
  ledger_value self' (spot row) date (sofr row) (vol row)
  = ledger_value self (spot row) date (sofr row) (vol row) - (cd + cg + cv).
Proof.
  unfold gate. destruct (rehedge_interval self =? 0)%Z; [discriminate |].
  destruct (_ =? 0)%Z.
  - intros H. now destruct (rebalance_outcome _ _ _ _ _ _ _ H) as (_ & Hl & _).
  - intros [= <- <- <- <-]. ring.
Qed.

(** X7.  Whatever the configuration (hedge instruments given or not,
    degenerate or not), right after construction the hedges and the cash
    are worth zero at the Day-0 prices, and the book of base portfolio,
    option hedges and stock is delta-neutral at the first snapshot. *)
Theorem day0_self_financed_and_delta_neutral portfolio date row0 rest
    gamma_hedge_inst vega_hedge_inst N :
  exists self,
    __init__ portfolio ((date, row0) :: rest) gamma_hedge_inst
      vega_hedge_inst N = Some self /\
    ledger_value self (spot row0) date (sofr row0) (vol row0) = 0 /\
    Greeks.delta (book_risk self (spot row0) date (sofr row0) (vol row0))
    + pos_stock self = 0.
Proof.
  eexists. split; [reflexivity |].
  unfold ledger_value, book_risk, pv_hedges, leg. cbn.
  rewrite copy_positions_id.
  destruct gamma_hedge_inst, vega_hedge_inst; split; ring.
Qed.

(** X8.  After every step of a run whose counter is divisible by the
    re-hedge interval, the book of base portfolio, option hedges and stock
    is delta-neutral at the step's snapshot, and the stock position the
    row reports is minus the delta of the option book. *)
Theorem rehedge_leaves_delta_neutral self tr (i : nat) date row s' res :
  trace self = Some tr ->
  nth_error (scenario_df self) i = Some (date, row) ->
  nth_error tr i = Some (s', res) ->
  (Z.of_nat i mod rehedge_interval self = 0)%Z ->
  Greeks.delta (book_risk s' (spot row) date (sofr row) (vol row))
  + pos_stock s' = 0 /\
  Result.stock_pos res
  = - Greeks.delta (book_risk s' (spot row) date (sofr row) (vol row)).
Proof.
  intros Htr Hrow Hnth Hmod.
  destruct (run_loop_nth _ _ _ _ _ _ _ Htr Hrow)
    as (s & s1 & res1 & _ & Hn & Hstep & Hc).
  rewrite Hnth in Hn. injection Hn as <- <-.
  destruct (config_fields _ _ Hc) as (_ & _ & _ & HN).
  destruct (step_inv _ _ _ _ _ _ Hstep) as ([[cg cv] cd] & Hgate & ->).
  apply gate_rehedges in Hgate.
  2:{ change (rehedge_interval (accrue_funding s row))
        with (rehedge_interval s). now rewrite HN, Z.add_0_l. }
  destruct (rebalance_outcome _ _ _ _ _ _ _ Hgate) as (Hneutral & _).
  split; [exact Hneutral |].
  destruct (report_fields s' date row (cg, cv, cd) (funding s row))
    as (_ & -> & _).
  set (d := Greeks.delta _) in *.
  replace (pos_stock s') with ((d + pos_stock s') - d) by ring.
  rewrite Hneutral. ring.
Qed.

(** The third row (counter 2) of the desk's run: a re-hedging step. *)
Lemma rehedge_leaves_delta_neutral_witness :
  exists self tr s' res,
    Examples.desk = Some self /\
    trace self = Some tr /\
    nth_error (scenario_df self) 2 = Some (Examples.day 2, Examples.row2) /\
    nth_error tr 2 = Some (s', res) /\
    (Z.of_nat 2 mod rehedge_interval self = 0)%Z /\
    Greeks.delta (book_risk s' (lit 95 1) (Examples.day 2) (lit 1 20)
                    (lit 3 10))
    + pos_stock s' = 0.
Proof.
  destruct desk_runs as (self & tr & Hself & Hdf & HN & Htr).
  assert (Hrow : nth_error (scenario_df self) 2
                 = Some (Examples.day 2, Examples.row2))
    by (rewrite Hdf; reflexivity).
  assert (Hmod : (Z.of_nat 2 mod rehedge_interval self = 0)%Z)
    by (rewrite HN; reflexivity).
  destruct (trace_at self tr 2 _ _ Htr Hrow) as (s & s' & res & _ & Hn).
  exists self, tr, s', res. repeat split; try assumption.
  exact (proj1 (rehedge_leaves_delta_neutral self tr 2 _ _ s' res
                  Htr Hrow Hn Hmod)).
Defined.

(** X9.  After every re-hedging step of a run: if a vega-hedge instrument
    is configured and its unit vega at the snapshot exceeds 1e-9 in
    absolute value, the book of base portfolio and option hedges has zero
    vega; if a gamma-hedge instrument is configured with a unit gamma
    above 1e-9, the gamma left in that book is the gamma of what the vega
    stage traded in this step, so it is zero when no vega-hedge instrument
    is configured. *)
Theorem rehedge_option_neutrality self tr (i : nat) date row s s' res :
  trace self = Some tr ->
  nth_error (scenario_df self) i = Some (date, row) ->
  before self tr i = Some s ->
  nth_error tr i = Some (s', res) ->
  (Z.of_nat i mod rehedge_interval self = 0)%Z ->
  let S := spot row in
  let r := sofr row in
  let sigma := vol row in
  (forall v, vega_inst self = Some v ->
             eps < Qcabs (vega v S date r sigma) ->
             Greeks.vega (book_risk s' S date r sigma) = 0) /\
  (forall g, gamma_inst self = Some g ->
             eps < Qcabs (gamma g S date r sigma) ->
             Greeks.gamma (book_risk s' S date r sigma)
             = leg (vega_inst self) gamma
                 (pos_vega_hedge s' - pos_vega_hedge s) S date r sigma) /\
  (forall g, gamma_inst self = Some g ->
             eps < Qcabs (gamma g S date r sigma) ->
             vega_inst self = None ->
             Greeks.gamma (book_risk s' S date r sigma) = 0).
Proof.
  intros Htr Hrow Hbef Hnth Hmod S r sigma. subst S r sigma.
  destruct (run_loop_nth _ _ _ _ _ _ _ Htr Hrow)
    as (s0 & s1 & res1 & Hb & Hn & Hstep & Hc).
  rewrite Hbef in Hb. injection Hb as <-.
  rewrite Hnth in Hn. injection Hn as <- <-.
  destruct (config_fields _ _ Hc) as (_ & Hg & Hv & HN).
  destruct (step_inv _ _ _ _ _ _ Hstep) as ([[cg cv] cd] & Hgate & ->).
  apply gate_rehedges in Hgate.
  2:{ change (rehedge_interval (accrue_funding s row))
        with (rehedge_interval s). now rewrite HN, Z.add_0_l. }
  destruct (rebalance_outcome _ _ _ _ _ _ _ Hgate) as (_ & _ & Hvega & Hgamma).
  change (vega_inst (accrue_funding s row)) with (vega_inst s) in *.
  change (gamma_inst (accrue_funding s row)) with (gamma_inst s) in *.
  change (pos_vega_hedge (accrue_funding s row)) with (pos_vega_hedge s) in *.
  rewrite Hg, Hv in *.
  split; [exact Hvega |]. split; [exact Hgamma |].
  intros g Eg Hu Enone. rewrite (Hgamma g Eg Hu), Enone. reflexivity.
Qed.

(** The third row of the desk's run: unit vega 1/2 of the vega hedge. *)
Lemma rehedge_option_neutrality_witness :
  exists self tr s s' res,
    Examples.desk = Some self /\
    trace self = Some tr /\
    nth_error (scenario_df self) 2 = Some (Examples.day 2, Examples.row2) /\
    before self tr 2 = Some s /\
    nth_error tr 2 = Some (s', res) /\
    (Z.of_nat 2 mod rehedge_interval self = 0)%Z /\
    vega_inst self = Some Examples.long_dated /\
    eps < Qcabs (vega Examples.long_dated (lit 95 1) (Examples.day 2)
                   (lit 1 20) (lit 3 10)) /\
    Greeks.vega (book_risk s' (lit 95 1) (Examples.day 2) (lit 1 20)
                   (lit 3 10)) = 0.
Proof.
  destruct desk_runs as (self & tr & Hself & Hdf & HN & Htr).
  assert (Hrow : nth_error (scenario_df self) 2
                 = Some (Examples.day 2, Examples.row2))
    by (rewrite Hdf; reflexivity).
  assert (Hmod : (Z.of_nat 2 mod rehedge_interval self = 0)%Z)
    by (rewrite HN; reflexivity).
  assert (Hv : vega_inst self = Some Examples.long_dated).
  { destruct (init_some _ _ _ _ _ _ Hself) as (d & r0 & rest & _ & Hcfg).
    unfold config in Hcfg. now injection Hcfg as _ _ _ -> _ _ _ _. }
  assert (Hu : eps < Qcabs (vega Examples.long_dated (lit 95 1)
                              (Examples.day 2) (lit 1 20) (lit 3 10)))
    by reflexivity.
  destruct (trace_at self tr 2 _ _ Htr Hrow) as (s & s' & res & Hb & Hn).
  exists self, tr, s, s', res. repeat split; try assumption.
  exact (proj1 (rehedge_option_neutrality self tr 2 _ _ s s' res
                  Htr Hrow Hb Hn Hmod) _ Hv Hu).
Defined.

(** X10.  Every step of a run is self-financing up to friction: the
    [total_pnl] of its row is the value of the base portfolio, plus the
    hedges held before the step marked at the step's prices, plus the cash
    before the step, plus the funding of the step, minus the transaction
    costs of the step.  Trading moves the total only by its cost. *)
Theorem step_pnl_attribution self tr (i : nat) date row s s' res :
  trace self = Some tr ->
  nth_error (scenario_df self) i = Some (date, row) ->
  before self tr i = Some s ->
  nth_error tr i = Some (s', res) ->
  Result.total_pnl res
  = Greeks.price
      (PortfolioManager.get_greeks (portfolio self) (spot row) (vol row) date
         (sofr row))
    + pv_hedges s (spot row) date (sofr row) (vol row)
    + cash s
    + Result.funding_cost res
    - Result.txn_costs res.
Proof.
  intros Htr Hrow Hbef Hnth.
  destruct (run_loop_nth _ _ _ _ _ _ _ Htr Hrow)
    as (s0 & s1 & res1 & Hb & Hn & Hstep & Hc).
  rewrite Hbef in Hb. injection Hb as <-.
  rewrite Hnth in Hn. injection Hn as <- <-.
  pose proof (step_config _ _ _ _ _ _ Hstep) as Hc1. rewrite Hc in Hc1.
  destruct (config_fields _ _ Hc1) as (Hp & _).
  destruct (step_inv _ _ _ _ _ _ Hstep) as ([[cg cv] cd] & Hgate & ->).
  destruct (report_fields s' date row (cg, cv, cd) (funding s row))
    as (-> & _ & _ & _ & -> & ->).
  cbn [fst snd].
  pose proof (gate_ledger _ _ _ _ _ _ _ _ Hgate) as Hl.
  rewrite ledger_value_accrue in Hl. unfold ledger_value in Hl.
  unfold pv_base. rewrite copy_positions_id, Hp.
  set (b := Greeks.price _).
  transitivity (b + (pv_hedges s' (spot row) date (sofr row) (vol row)
                     + cash s')); [ring |].
  rewrite Hl. ring.
Qed.

(** The second row of the desk's run. *)
Lemma step_pnl_attribution_witness :
  exists self tr s s' res,
    Examples.desk = Some self /\
    trace self = Some tr /\
    nth_error (scenario_df self) 1 = Some (Examples.day 1, Examples.row1) /\
    before self tr 1 = Some s /\
    nth_error tr 1 = Some (s', res) /\
    Result.total_pnl res
    = Greeks.price
        (PortfolioManager.get_greeks (portfolio self) (lit 98 1) (lit 1 4)
           (Examples.day 1) (lit 1 25))
      + pv_hedges s (lit 98 1) (Examples.day 1) (lit 1 25) (lit 1 4)
      + cash s + Result.funding_cost res - Result.txn_costs res.
Proof.
  destruct desk_runs as (self & tr & Hself & Hdf & _ & Htr).
  assert (Hrow : nth_error (scenario_df self) 1
                 = Some (Examples.day 1, Examples.row1))
    by (rewrite Hdf; reflexivity).
  destruct (trace_at self tr 1 _ _ Htr Hrow) as (s & s' & res & Hb & Hn).
  exists self, tr, s, s', res. repeat split; try assumption.
  exact (step_pnl_attribution self tr 1 _ _ s s' res Htr Hrow Hb Hn).
Defined.

(** ** The engine: costs, quiet runs, and what [run] returns *)

Lemma trace_In_step self tr s' res :
  trace self = Some tr -> In (s', res) tr ->
  exists (i : nat) date row s,
    nth_error (scenario_df self) i = Some (date, row) /\
    before self tr i = Some s /\
    nth_error tr i = Some (s', res) /\
    step s (Z.of_nat i) date row = Some (s', res) /\
    config s = config self.
Proof.
  intros Htr Hin.
  destruct (In_nth_error _ _ Hin) as [i Hi].
  assert (Hlt : (i < List.length (scenario_df self))%nat).
  { rewrite <- (run_loop_length _ _ _ _ Htr).
    apply nth_error_Some. now rewrite Hi. }
  destruct (nth_error (scenario_df self) i) as [[date row] |] eqn:Hrow.
  2:{ apply nth_error_None in Hrow. lia. }
  destruct (run_loop_nth _ _ _ _ _ _ _ Htr Hrow)
    as (s & s1 & res1 & Hb & Hn & Hstep & Hc).
  rewrite Hi in Hn. injection Hn as <- <-.
  exists i, date, row, s. rewrite Z.add_0_l in Hstep. auto.
Qed.

Lemma spread_cost_nonneg self notional current_vol is_option :
  0 < base_vol self -> 0 <= stock_spread_bps self ->
  0 <= option_spread_bps self -> 0 <= current_vol ->
  0 <= _get_spread_cost self notional current_vol is_option.
Proof.
  intros Hb Hs Ho Hv. unfold _get_spread_cost, Qcdiv.
  apply Qcmult_nonneg; [apply Qcabs_nonneg |].
  apply Qcmult_nonneg; [| discriminate].
  apply Qcmult_nonneg; [| discriminate].
  apply Qcmult_nonneg; [destruct is_option; assumption |].
  apply Qcmult_nonneg; [exact Hv |].
  now apply Qclt_le_weak, Qcinv_pos.
Qed.

(** The friction parameters are sound: a positive base volatility and
    non-negative base spreads. *)
Lemma gate_costs_nonneg self k date row self' cg cv cd :
  0 < base_vol self -> 0 <= stock_spread_bps self ->
  0 <= option_spread_bps self -> 0 <= vol row ->
  gate self k date row = Some (self', (cg, cv, cd)) ->
  0 <= cg /\ 0 <= cv /\ 0 <= cd.
Proof.
  intros Hb Hs Ho Hv. unfold gate.
  destruct (rehedge_interval self =? 0)%Z; [discriminate |].
  destruct (_ =? 0)%Z.
  2:{ intros [= _ <- <- <-]. repeat split; apply Qcle_refl. }
  unfold rebalance.
  destruct (current_portfolio_view self) as [view |]; [| discriminate].
  set (pg := PortfolioManager.get_greeks _ _ _ _ _).
  pose proof (rehedge_gamma_config self (spot row) date (sofr row) (vol row)
                pg) as Hca.
  assert (Hcg : 0 <= snd (rehedge_gamma self (spot row) date (sofr row)
                            (vol row) pg)).
  { unfold rehedge_gamma. destruct (gamma_inst self); [| apply Qcle_refl].
    destruct (above_eps _); [| apply Qcle_refl].
    cbn [snd]. now apply spread_cost_nonneg. }
  destruct (rehedge_gamma _ _ _ _ _ pg) as [[self_a pg_a] cg0].
  cbn [fst snd] in Hca, Hcg.
  unfold config in Hca. injection Hca as _ _ _ _ _ Hb1 Hs1 Ho1.
  pose proof (rehedge_vega_config self_a (spot row) date (sofr row) (vol row)
                pg_a) as Hcb.
  assert (Hcv : 0 <= snd (rehedge_vega self_a (spot row) date (sofr row)
                            (vol row) pg_a)).
  { unfold rehedge_vega. destruct (vega_inst self_a); [| apply Qcle_refl].
    destruct (above_eps _); [| apply Qcle_refl].
    cbn [snd]. apply spread_cost_nonneg; try assumption;
      now rewrite ?Hb1, ?Hs1, ?Ho1. }
  destruct (rehedge_vega _ _ _ _ _ pg_a) as [[self_b pg_b] cv0].
  cbn [fst snd] in Hcb, Hcv.
  unfold config in Hcb. injection Hcb as _ _ _ _ _ Hb2 Hs2 Ho2.
  unfold rehedge_delta. intros [= _ <- <- <-].
  repeat split; try assumption.
  apply spread_cost_nonneg; try assumption;
    now rewrite ?Hb2, ?Hs2, ?Ho2, ?Hb1, ?Hs1, ?Ho1.
Qed.

(** X11.  On a scenario whose first volatility is positive and whose
    volatilities are all non-negative, every row of the run of a
    constructed engine reports a non-negative transaction cost. *)
Theorem txn_costs_nonneg portfolio df gamma_hedge_inst vega_hedge_inst N
    self tr :
  __init__ portfolio df gamma_hedge_inst vega_hedge_inst N = Some self ->
  0 < base_vol self ->
  Forall (fun x => 0 <= vol (snd x)) df ->
  trace self = Some tr ->
  Forall (fun x => 0 <= Result.txn_costs (snd x)) tr.
Proof.
  intros Hinit Hb Hvols Htr. apply Forall_forall. intros [s' res] Hin.
  destruct (init_some _ _ _ _ _ _ Hinit) as (d0 & r0 & rest & _ & Hcfg).
  destruct (init_spreads _ _ _ _ _ _ Hinit) as [Hs Ho].
  destruct (trace_In_step _ _ _ _ Htr Hin)
    as (i & date & row & s & Hrow & _ & _ & Hstep & Hc).
  assert (Hdf : scenario_df self = df).
  { unfold config in Hcfg. now injection Hcfg as _ -> _ _ _ _ _ _. }
  assert (Hv : 0 <= vol row).
  { rewrite Hdf in Hrow. apply nth_error_In in Hrow.
    rewrite Forall_forall in Hvols. apply (Hvols _ Hrow). }
  destruct (step_inv _ _ _ _ _ _ Hstep) as ([[cg cv] cd] & Hgate & ->).
  unfold config in Hc. injection Hc as _ _ _ _ _ Hb1 Hs1 Ho1.
  assert (Hb' : 0 < base_vol (accrue_funding s row))
    by (change (0 < base_vol s); now rewrite Hb1).
  assert (Hs' : 0 <= stock_spread_bps (accrue_funding s row))
    by (change (0 <= stock_spread_bps s); rewrite Hs1, Hs; discriminate).
  assert (Ho' : 0 <= option_spread_bps (accrue_funding s row))
    by (change (0 <= option_spread_bps s); rewrite Ho1, Ho; discriminate).
  destruct (gate_costs_nonneg _ _ _ _ _ _ _ _ Hb' Hs' Ho' Hv Hgate)
    as (Hcg & Hcv & Hcd).
  cbn [snd]. destruct (report_fields s' date row (cg, cv, cd)
                         (funding s row)) as (_ & _ & _ & _ & _ & ->).
  cbn [fst snd].
  replace 0 with (0 + 0 + 0) by ring.
  repeat apply Qcplus_le_compat; assumption.
Qed.

(** The desk of [Examples]: volatilities 0.2, 0.25 and 0.3. *)
Lemma txn_costs_nonneg_witness :
  exists self tr,
    Examples.desk = Some self /\
    0 < base_vol self /\
    Forall (fun x => 0 <= vol (snd x)) Examples.scenario /\
    trace self = Some tr /\
    Forall (fun x => 0 <= Result.txn_costs (snd x)) tr.
Proof.
  destruct desk_runs as (self & tr & Hself & _ & _ & Htr).
  assert (Hb : 0 < base_vol self).
  { destruct (init_some _ _ _ _ _ _ Hself) as (d & r0 & rest & Hdf & Hcfg).
    unfold config in Hcfg. injection Hcfg as _ _ _ _ _ -> _ _.
    injection Hdf as _ <- _. reflexivity. }
  assert (Hv : Forall (fun x => 0 <= vol (snd x)) Examples.scenario)
    by (repeat constructor; discriminate).
  exists self, tr. repeat split; try assumption.
  exact (txn_costs_nonneg _ _ _ _ _ _ _ Hself Hb Hv Htr).
Defined.

Lemma run_loop_invariant (P : t -> Prop) (Q : t -> Result.t -> Prop) rows :
  (forall s k date row s' res,
      In (date, row) rows -> P s -> step s k date row = Some (s', res) ->
      P s' /\ Q s' res) ->
  forall self k tr,
    P self -> run_loop rows self k = Some tr ->
    Forall (fun x => P (fst x) /\ Q (fst x) (snd x)) tr.
Proof.
  induction rows as [| [d0 r0] rows IH]; intros Hstep self k tr HP Hrun.
  - injection Hrun as <-. constructor.
  - cbn [run_loop] in Hrun.
    destruct (step self k d0 r0) as [[self1 res1] |] eqn:E; [| discriminate].
    destruct (run_loop rows self1 (k + 1)) as [tr1 |] eqn:Hrest;
      [| discriminate].
    injection Hrun as <-.
    destruct (Hstep _ _ _ _ _ _ (or_introl eq_refl) HP E) as [HP1 HQ1].
    constructor; [split; assumption |].
    eapply IH; [| exact HP1 | exact Hrest].
    intros s k0 date row s' res Hin. apply Hstep. now right.
Qed.

Lemma spread_cost_zero_notional self current_vol is_option :
  _get_spread_cost self 0 current_vol is_option = 0.
Proof. unfold _get_spread_cost. rewrite Qcabs_0. ring. Qed.

(** A re-hedge with no option hedge configured is the delta stage alone. *)
Lemma rebalance_delta_only self date row self' cg cv cd :
  gamma_inst self = None -> vega_inst self = None ->
  rebalance self date row = Some (self', (cg, cv, cd)) ->
  cg = 0 /\ cv = 0 /\
  (self', cd)
  = rehedge_delta self (spot row) (vol row)
      (book_risk self (spot row) date (sofr row) (vol row)).
Proof.
  intros Eg Ev. unfold rebalance.
  destruct (current_portfolio_view self) as [view |] eqn:Eview;
    [| discriminate].
  rewrite (view_is_book_risk self view _ _ _ _ Eview).
  rewrite rehedge_gamma_none, rehedge_vega_none by assumption.
  destruct (rehedge_delta _ _ _ _) as [self_c cd0].
  intros [= <- <- <- <-]. auto.
Qed.

(** X12.  With no option hedge configured and a base portfolio whose
    aggregate delta is the same at every snapshot of the scenario (a book
    of the underlying alone, for one), the run never trades: the stock
    position stays at its Day-0 value and every row reports a transaction
    cost of 0, whatever the re-hedge interval. *)
Theorem constant_delta_run_is_quiet portfolio date row0 rest N self tr :
  __init__ portfolio ((date, row0) :: rest) None None N = Some self ->
  (forall d row,
      In (d, row) ((date, row0) :: rest) ->
      Greeks.delta
        (PortfolioManager.get_greeks portfolio (spot row) (vol row) d
           (sofr row))
      = Greeks.delta
          (PortfolioManager.get_greeks portfolio (spot row0) (vol row0) date
             (sofr row0))) ->
  trace self = Some tr ->
  Forall (fun x =>
            pos_stock (fst x) = pos_stock self /\
            Result.stock_pos (snd x) = pos_stock self /\
            Result.txn_costs (snd x) = 0) tr.
Proof.
  intros Hinit Hconst Htr.
  destruct (init_some _ _ _ _ _ _ Hinit) as (d0 & r0 & rest0 & _ & Hcfg).
  pose proof (init_hedges_configured _ _ _ _ _ _ Hinit) as Hwf.
  assert (H0 : pos_stock self
               = - Greeks.delta
                     (PortfolioManager.get_greeks portfolio (spot row0)
                        (vol row0) date (sofr row0))).
  { revert Hinit. unfold __init__. intros [= <-]. cbn.
    rewrite copy_positions_id. ring. }
  set (P := fun s : t => config s = config self /\
                         pos_stock s = pos_stock self).
  set (Q := fun (s : t) (res : Result.t) =>
              Result.stock_pos res = pos_stock self /\
              Result.txn_costs res = 0).
  assert (Hinv : Forall (fun x => P (fst x) /\ Q (fst x) (snd x)) tr).
  { apply (run_loop_invariant P Q (scenario_df self)) with (self := self)
                                                            (k := 0%Z);
      [| split; reflexivity | exact Htr].
    intros s k d row s' res Hin [Hc Hpos] Hstep.
    assert (Hin' : In (d, row) ((date, row0) :: rest)).
    { unfold config in Hcfg. injection Hcfg as _ Hdf _ _ _ _ _ _.
      now rewrite <- Hdf. }
    pose proof (step_config _ _ _ _ _ _ Hstep) as Hc'.
    destruct (step_inv _ _ _ _ _ _ Hstep) as ([[cg cv] cd] & Hgate & ->).
    destruct (report_fields s' d row (cg, cv, cd) (funding s row))
      as (_ & Hsp & _ & _ & _ & Htx).
    unfold P, Q. rewrite Hsp, Htx. cbn [fst snd].
    assert (Hgoal : pos_stock s' = pos_stock self /\ cd + cg + cv = 0).
    { unfold gate in Hgate.
      destruct (rehedge_interval _ =? 0)%Z; [discriminate |].
      destruct (_ =? 0)%Z.
      2:{ injection Hgate as <- <- <- <-. split; [exact Hpos | ring]. }
      assert (Eg : gamma_inst (accrue_funding s row) = None).
      { change (gamma_inst s = None). rewrite Hc, Hcfg in *.
        unfold config in Hc. now injection Hc as _ _ -> _ _ _ _ _. }
      assert (Ev : vega_inst (accrue_funding s row) = None).
      { change (vega_inst s = None). rewrite Hcfg in Hc.
        unfold config in Hc. now injection Hc as _ _ _ -> _ _ _ _. }
      destruct (rebalance_delta_only _ _ _ _ _ _ _ Eg Ev Hgate)
        as (-> & -> & Hd).
      unfold rehedge_delta in Hd. injection Hd as -> ->.
      assert (Hdelta :
                Greeks.delta
                  (PortfolioManager.get_greeks (HedgingSimulation.portfolio s)
                     (spot row) (vol row) d (sofr row))
                + (leg (gamma_inst s) delta (pos_gamma_hedge s) (spot row) d
                     (sofr row) (vol row)
                   + leg (vega_inst s) delta (pos_vega_hedge s) (spot row) d
                       (sofr row) (vol row))
                = - pos_stock self).
      { change (gamma_inst s = None) in Eg. change (vega_inst s = None) in Ev.
        unfold leg. rewrite Eg, Ev.
        rewrite Hcfg in Hc. unfold config in Hc.
        injection Hc as -> _ _ _ _ _ _ _.
        rewrite (Hconst d row Hin'), H0. ring. }
      cbn [pos_stock set_pos_stock set_cash]. rewrite !Hdelta.
      rewrite Hpos. split; [ring |].
      replace (- - pos_stock self - pos_stock self) with 0 by ring.
      replace (0 * spot row) with 0 by ring.
      rewrite spread_cost_zero_notional. ring. }
    destruct Hgoal as [Hp Hz].
    repeat split; try assumption. now rewrite Hc'. }
  eapply Forall_impl; [| exact Hinv].
  intros [s res] [[_ Hp] [Hs Ht]]. auto.
Qed.

(** The book of 100 units of the underlying: the stock hedge is -100 from
    Day 0 to the end. *)
Lemma constant_delta_run_is_quiet_witness :
  exists self tr,
    Examples.stock_desk = Some self /\
    (forall d row,
        In (d, row) Examples.scenario ->
        Greeks.delta
          (PortfolioManager.get_greeks Examples.stock_book (spot row)
             (vol row) d (sofr row))
        = Greeks.delta
            (PortfolioManager.get_greeks Examples.stock_book
               (spot Examples.row0) (vol Examples.row0) (Examples.day 0)
               (sofr Examples.row0))) /\
    trace self = Some tr /\
    pos_stock self = lit (-100) 1 /\
    Forall (fun x =>
              pos_stock (fst x) = pos_stock self /\
              Result.stock_pos (snd x) = pos_stock self /\
              Result.txn_costs (snd x) = 0) tr.
Proof.
  destruct (init_total Examples.stock_book (Examples.day 0) Examples.row0
              [(Examples.day 1, Examples.row1); (Examples.day 2, Examples.row2)]
              None None 1) as [self Hself].
  destruct (constructed_runs _ _ _ _ _ _ Hself) as (tr & Htr & _);
    [discriminate |].
  assert (Hconst : forall d row,
             In (d, row) Examples.scenario ->
             Greeks.delta
               (PortfolioManager.get_greeks Examples.stock_book (spot row)
                  (vol row) d (sofr row))
             = Greeks.delta
                 (PortfolioManager.get_greeks Examples.stock_book
                    (spot Examples.row0) (vol Examples.row0) (Examples.day 0)
                    (sofr Examples.row0)))
    by (intros; reflexivity).
  exists self, tr. split; [exact Hself |]. split; [exact Hconst |].
  split; [exact Htr |]. split.
  - revert Hself. unfold __init__. intros [= <-].
    apply Qc_is_canon. reflexivity.
  - exact (constant_delta_run_is_quiet _ _ _ _ _ _ _ Hself Hconst Htr).
Defined.

Lemma run_loop_dates rows : forall self k tr,
  run_loop rows self k = Some tr ->
  map (fun x => (Result.date (snd x), Result.spot (snd x))) tr
  = map (fun x => (fst x, spot (snd x))) rows.
Proof.
  induction rows as [| [d0 r0] rows IH]; intros self k tr Hrun.
  - now injection Hrun as <-.
  - cbn [run_loop] in Hrun.
    destruct (step self k d0 r0) as [[self1 res1] |] eqn:E; [| discriminate].
    destruct (run_loop rows self1 (k + 1)) as [tr1 |] eqn:Hrest;
      [| discriminate].
    injection Hrun as <-. cbn [map fst snd]. rewrite (IH _ _ _ Hrest).
    destruct (step_inv _ _ _ _ _ _ E) as ([[cg cv] cd] & _ & ->).
    reflexivity.
Qed.

(** X13.  Construction raises exactly on an empty scenario.  The run of a
    constructed engine raises when the re-hedge interval is 0 and otherwise
    returns one row per snapshot, carrying the dates and the spots of the
    scenario in their order. *)
Theorem construction_and_run_outcomes portfolio df gamma_hedge_inst
    vega_hedge_inst N :
  (df = [] ->
   __init__ portfolio df gamma_hedge_inst vega_hedge_inst N = None) /\
  (df <> [] ->
   exists self,
     __init__ portfolio df gamma_hedge_inst vega_hedge_inst N = Some self /\
     (N = 0%Z -> run self = None) /\
     (N <> 0%Z ->
      exists rows,
        run self = Some rows /\
        map (fun res => (Result.date res, Result.spot res)) rows
        = map (fun x => (fst x, spot (snd x))) df)).
Proof.
  split; [now intros -> |].
  intros Hne. destruct df as [| [date row0] rest]; [contradiction |].
  destruct (init_total portfolio date row0 rest gamma_hedge_inst
              vega_hedge_inst N) as [self Hself].
  exists self. split; [exact Hself |].
  destruct (init_some _ _ _ _ _ _ Hself) as (d & r0 & rest0 & _ & Hcfg).
  unfold config in Hcfg. injection Hcfg as _ Hdf _ _ HN _ _ _.
  split.
  - intros ->. unfold run, trace. rewrite Hdf. cbn [run_loop].
    unfold step, gate.
    change (rehedge_interval (accrue_funding self row0))
      with (rehedge_interval self).
    rewrite HN. reflexivity.
  - intros HN0.
    destruct (constructed_runs _ _ _ _ _ _ Hself HN0) as (tr & Htr & Hlen & _).
    unfold run. rewrite Htr. destruct tr as [| x tr]; [discriminate |].
    eexists. split; [reflexivity |].
    rewrite map_map. unfold trace in Htr. rewrite Hdf in Htr.
    exact (run_loop_dates _ _ _ _ Htr).
Qed.

(** ** The engine: funding *)

Lemma dt_pos : 0 < dt.
Proof. reflexivity. Qed.

Lemma Qcle_of_diff (p q : float) : 0 <= q - p -> p <= q.
Proof. intros H. now apply Qcle_minus_iff. Qed.

Lemma Qcneg_pos (c : float) : c < 0 -> 0 < - c.
Proof. intros H. apply Qclt_minus_iff in H. now rewrite Qcplus_0_l in H. Qed.

Lemma Qcpos_neg (c : float) : 0 < c -> - c < 0.
Proof.
  intros H. apply Qclt_minus_iff. now rewrite Qcplus_0_l, Qcopp_involutive.
Qed.

(** X14.  Funding is asymmetric.  With a non-negative rate and credit
    spread: a negative cash balance is charged (funding at most 0) at
    [sofr + credit_spread], a non-negative balance earns (funding at least
    0) at [sofr]; and borrowing an amount costs at least what lending the
    same amount earns, the difference being the amount times the credit
    spread times 1/252. *)
Theorem funding_is_asymmetric (self : t) (row : Row) :
  0 <= sofr row -> 0 <= credit_spread row ->
  (cash self < 0 -> funding self row <= 0) /\
  (0 <= cash self -> 0 <= funding self row) /\
  (forall c, 0 < c ->
     - funding (set_cash self (- c)) row - funding (set_cash self c) row
     = c * credit_spread row * dt /\
     funding (set_cash self c) row <= - funding (set_cash self (- c)) row).
Proof.
  intros Hr Hcs. unfold funding, funding_rate. split; [| split].
  - intros Hneg. rewrite (proj2 (Qcltb_lt _ _) Hneg).
    apply Qcle_of_diff.
    replace (0 - cash self * (sofr row + credit_spread row) * dt)
      with (- cash self * (sofr row + credit_spread row) * dt) by ring.
    apply Qcmult_nonneg; [apply Qcmult_nonneg |].
    + now apply Qclt_le_weak, Qcneg_pos.
    + replace 0 with (0 + 0) by ring. now apply Qcplus_le_compat.
    + apply Qclt_le_weak, dt_pos.
  - intros Hpos. rewrite (proj2 (Qcltb_ge _ _) Hpos).
    apply Qcmult_nonneg; [apply Qcmult_nonneg; assumption |].
    apply Qclt_le_weak, dt_pos.
  - intros c Hc. cbn [cash set_cash].
    rewrite (proj2 (Qcltb_lt _ _) (Qcpos_neg c Hc)).
    rewrite (proj2 (Qcltb_ge _ _) (Qclt_le_weak _ _ Hc)).
    assert (Heq : - (- c * (sofr row + credit_spread row) * dt)
                  - c * sofr row * dt
                  = c * credit_spread row * dt) by ring.
    split; [exact Heq |].
    apply Qcle_of_diff. rewrite Heq.
    apply Qcmult_nonneg; [apply Qcmult_nonneg; try assumption |].
    + now apply Qclt_le_weak.
    + apply Qclt_le_weak, dt_pos.
Qed.

(** The desk of [Examples] on the second day: rate 4%, spread 1.5%. *)
Lemma funding_is_asymmetric_witness :
  exists self,
    Examples.desk = Some self /\
    0 <= sofr Examples.row1 /\ 0 <= credit_spread Examples.row1 /\
    - funding (set_cash self (- lit 1000 1)) Examples.row1
    - funding (set_cash self (lit 1000 1)) Examples.row1
    = lit 1000 1 * lit 3 200 * dt.
Proof.
  destruct (init_total Examples.book (Examples.day 0) Examples.row0
              [(Examples.day 1, Examples.row1); (Examples.day 2, Examples.row2)]
              (Some Examples.short_dated) (Some Examples.long_dated) 2)
    as [self Hself].
  assert (Hr : 0 <= sofr Examples.row1) by discriminate.
  assert (Hcs : 0 <= credit_spread Examples.row1) by discriminate.
  exists self. repeat split; try assumption.
  apply (proj2 (proj2 (funding_is_asymmetric self Examples.row1 Hr Hcs))).
  reflexivity.
Defined.

(** ** [MarketEnvironment]: the generated paths *)

Lemma float_of_int_add (a b : Z) :
  float_of_int (a + b) = float_of_int a + float_of_int b.
Proof.
  unfold float_of_int, Qcplus. apply Qc_is_canon.
  change (Qred (inject_Z (a + b))
          == Qred (Qred (inject_Z a) + Qred (inject_Z b)))%Q.
  rewrite !Qred_correct, inject_Z_plus. reflexivity.
Qed.

Lemma of_nat_succ (n : nat) : of_nat (S n) = of_nat n + 1.
Proof.
  unfold of_nat. rewrite Nat2Z.inj_succ, <- Z.add_1_r.
  now rewrite float_of_int_add.
Qed.

Lemma of_nat_0 : of_nat 0 = 0.
Proof. apply Qc_is_canon. reflexivity. Qed.

Lemma Qcpower_succ (q : float) (n : nat) : q ^ (S n) = q * q ^ n.
Proof. destruct n; cbn; ring. Qed.

Section Paths.

Variables (self : MarketEnvironment.t).
Variables (spot_daily_ret r_sofr_step cs_step vol_mult : float).

Let run_evolve :=
  MarketEnvironment.evolve self spot_daily_ret r_sofr_step cs_step vol_mult.

Lemma evolve_zero_spot n current_spot sofr_prev spread_prev :
  MarketEnvironment.S0 self = 0 ->
  run_evolve (S n) current_spot sofr_prev spread_prev
  = Raises ZeroDivisionError.
Proof.
  intros H. unfold run_evolve. cbn [MarketEnvironment.evolve].
  now rewrite H.
Qed.

(** With a non-zero start the loop returns one row per iteration, and the
    row of iteration [i] is given in closed form. *)
Lemma evolve_closed_form n :
  MarketEnvironment.S0 self <> 0 ->
  forall current_spot sofr_prev spread_prev,
  exists rows,
    run_evolve n current_spot sofr_prev spread_prev = Returns rows /\
    List.length rows = n /\
    forall i row,
      nth_error rows i = Some row ->
      spot row = current_spot * (1 + spot_daily_ret) ^ (S i) /\
      sofr row = sofr_prev + of_nat (S i) * r_sofr_step /\
      credit_spread row = spread_prev + of_nat (S i) * cs_step /\
      vol row = vol_after self vol_mult (spot row).
Proof.
  intros Hnz.
  assert (E : Qceqb (MarketEnvironment.S0 self) 0 = false).
  { destruct (Qceqb _ 0) eqn:E; [| reflexivity].
    apply Qceqb_eq in E. contradiction. }
  induction n as [| n IH]; intros current_spot sofr_prev spread_prev.
  - exists []. split; [reflexivity |]. split; [reflexivity |].
    intros [| i] row; discriminate.
  - unfold run_evolve. cbn [MarketEnvironment.evolve]. rewrite E.
    fold run_evolve.
    destruct (IH (current_spot * (1 + spot_daily_ret))
                 (sofr_prev + r_sofr_step) (spread_prev + cs_step))
      as (rows & -> & Hlen & Hrows).
    eexists. split; [reflexivity |]. split; [cbn; now rewrite Hlen |].
    intros [| i] row Hi.
    + injection Hi as Hi. subst row. cbn [spot sofr credit_spread vol].
      rewrite !of_nat_succ, of_nat_0. repeat split; try ring.
      cbn. ring.
    + cbn [nth_error] in Hi.
      destruct (Hrows i row Hi) as (Hs & Hr & Hc & Hv).
      rewrite Hs, Hr, Hc. repeat split.
      * rewrite (Qcpower_succ _ (S i)). ring.
      * rewrite (of_nat_succ (S i)). ring.
      * rewrite (of_nat_succ (S i)). ring.
      * rewrite Hv, Hs. reflexivity.
Qed.

End Paths.

Lemma business_days_length (n : nat) : forall d,
  List.length (Examples.business_days n d) = n.
Proof.
  induction n as [| n IH]; intros d; cbn; [reflexivity |].
  now rewrite IH.
Qed.

(** The calendar of the examples gives [periods] dates for every
    non-negative [periods]. *)
Lemma examples_calendar_gives start periods :
  (0 <= periods)%Z ->
  exists dates,
    MarketEnvironment.calendar_gives Examples.bdate_range start periods dates.
Proof.
  intros H. eexists. split; [reflexivity |].
  rewrite length_map, business_days_length. lia.
Qed.

Lemma four_days_given :
  MarketEnvironment.calendar_gives Examples.bdate_range (Examples.day 0)
    (3 + 1) Examples.four_days.
Proof. split; reflexivity. Qed.

Lemma six_days_given :
  MarketEnvironment.calendar_gives Examples.bdate_range (Examples.day 0)
    (5 + 1) Examples.six_days.
Proof. split; reflexivity. Qed.

Lemma nth_error_combine_inv {A B : Type} (l : list A) : forall (l' : list B) i a b,
  nth_error (combine l l') i = Some (a, b) ->
  nth_error l i = Some a /\ nth_error l' i = Some b.
Proof.
  induction l as [| x l IH]; intros [| y l'] [| i] a b H;
    try discriminate.
  - injection H as <- <-. split; reflexivity.
  - cbn in H |- *. now apply IH.
Qed.

Lemma nth_error_combine_some {A B : Type} (l : list A) : forall (l' : list B) i b,
  List.length l = List.length l' ->
  nth_error l' i = Some b ->
  exists a, nth_error (combine l l') i = Some (a, b).
Proof.
  induction l as [| x l IH]; intros [| y l'] [| i] b Hlen H;
    try discriminate.
  - injection H as <-. exists x. reflexivity.
  - cbn in H |- *. apply IH; [now injection Hlen | assumption].
Qed.

Lemma map_fst_combine_eq {A B : Type} (l : list A) : forall (l' : list B),
  List.length l = List.length l' -> map fst (combine l l') = l.
Proof.
  induction l as [| x l IH]; intros [| y l'] Hlen; try discriminate.
  - reflexivity.
  - cbn. f_equal. apply IH. now injection Hlen.
Qed.

Lemma float_of_int_pos (n : Z) : (1 <= n)%Z -> 0 < float_of_int n.
Proof.
  intros H. apply Qclt_le_trans with (float_of_int 1); [reflexivity |].
  now apply float_of_int_le.
Qed.

Lemma float_of_int_nonzero (n : Z) : (1 <= n)%Z -> float_of_int n <> 0.
Proof.
  intros H E. pose proof (float_of_int_pos n H) as P.
  rewrite E in P. discriminate P.
Qed.

Lemma of_nat_to_nat (n : Z) : (0 <= n)%Z -> of_nat (Z.to_nat n) = float_of_int n.
Proof. intros H. unfold of_nat. now rewrite Z2Nat.id. Qed.

(** What [simulate_scenario] returns for at least one day and a non-zero
    start, when the calendar gives [num_days + 1] dates: those dates,
    against as many rows, each on the path. *)
Lemma simulate_scenario_returns bdate_range dates self start_date num_days
    spot_ret vol_mult d_sofr d_spread :
  MarketEnvironment.calendar_gives bdate_range start_date (num_days + 1) dates ->
  (1 <= num_days)%Z ->
  MarketEnvironment.S0 self <> 0 ->
  exists rows,
    MarketEnvironment.simulate_scenario bdate_range self start_date num_days
      spot_ret vol_mult d_sofr d_spread
    = Returns (combine dates rows) /\
    List.length dates = S (Z.to_nat num_days) /\
    List.length rows = S (Z.to_nat num_days) /\
    forall i row, nth_error rows i = Some row ->
      on_path self num_days spot_ret vol_mult d_sofr d_spread i row.
Proof.
  intros [Hdates Hlen] Hn Hnz.
  assert (Hl : List.length dates = S (Z.to_nat num_days)) by lia.
  unfold MarketEnvironment.simulate_scenario. rewrite Hdates, Hl.
  assert (E : (num_days =? 0)%Z = false) by (apply Z.eqb_neq; lia).
  rewrite E.
  destruct (evolve_closed_form self (spot_ret / float_of_int num_days)
              (d_sofr / float_of_int num_days)
              (d_spread / float_of_int num_days) vol_mult
              (Z.to_nat num_days) Hnz
              (MarketEnvironment.S0 self) (MarketEnvironment.r0 self)
              (MarketEnvironment.cs0 self))
    as (rows & Hrows & Hlr & Hpath).
  cbv zeta. rewrite Hrows.
  eexists. split; [reflexivity |].
  split; [reflexivity |]. split; [cbn; now rewrite Hlr |].
  intros [| i] row Hi.
  - injection Hi as Hi. subst row. unfold on_path.
    cbn [spot sofr credit_spread vol]. rewrite of_nat_0.
    repeat split; cbn; ring.
  - cbn [nth_error] in Hi. exact (Hpath i row Hi).
Qed.

(** X15 ([simulate_scenario], error outcomes).  An error of the calendar
    call is passed on.  Whenever the calendar returns an empty index (as
    [pd.bdate_range] does when [periods = num_days + 1] is not positive)
    [simulate_scenario] raises [IndexError]: the start values are written
    into empty arrays.  On a non-empty index it raises [ZeroDivisionError]
    for [num_days = 0] (the daily increments divide by [num_days]).  And
    it raises [ZeroDivisionError] when the environment starts from a zero
    spot, [num_days] is not 0 and the index has two dates or more. *)
Theorem simulate_scenario_raises bdate_range self start_date num_days
    spot_ret vol_mult d_sofr d_spread :
  (forall e,
     bdate_range start_date (num_days + 1)%Z = Raises e ->
     MarketEnvironment.simulate_scenario bdate_range self start_date num_days
       spot_ret vol_mult d_sofr d_spread = Raises e) /\
  (bdate_range start_date (num_days + 1)%Z = Returns [] ->
   MarketEnvironment.simulate_scenario bdate_range self start_date num_days
     spot_ret vol_mult d_sofr d_spread = Raises IndexError) /\
  (forall d dates,
     bdate_range start_date (num_days + 1)%Z = Returns (d :: dates) ->
     (num_days = 0)%Z ->
     MarketEnvironment.simulate_scenario bdate_range self start_date num_days
       spot_ret vol_mult d_sofr d_spread = Raises ZeroDivisionError) /\
  (forall d d' dates,
     bdate_range start_date (num_days + 1)%Z = Returns (d :: d' :: dates) ->
     (num_days <> 0)%Z ->
     MarketEnvironment.S0 self = 0 ->
     MarketEnvironment.simulate_scenario bdate_range self start_date num_days
       spot_ret vol_mult d_sofr d_spread = Raises ZeroDivisionError).
Proof.
  unfold MarketEnvironment.simulate_scenario.
  split; [| split; [| split]].
  - intros e ->. reflexivity.
  - intros ->. reflexivity.
  - intros d dates -> ->. reflexivity.
  - intros d d' dates -> Hn Hz. cbn [List.length].
    apply Z.eqb_neq in Hn. rewrite Hn. cbv zeta.
    cbn [MarketEnvironment.evolve]. rewrite Hz. reflexivity.
Qed.

(** X16 ([simulate_scenario], shape of the result).  When the calendar
    gives [num_days + 1] dates (what [pd.bdate_range] does for a valid
    start date), for at least one day and a non-zero starting spot,
    [simulate_scenario] returns a frame of [num_days + 1] rows indexed by
    exactly those dates, and its first row carries the environment's start
    values unchanged. *)
Theorem simulate_scenario_shape bdate_range dates self start_date num_days
    spot_ret vol_mult d_sofr d_spread :
  MarketEnvironment.calendar_gives bdate_range start_date (num_days + 1) dates ->
  (1 <= num_days)%Z ->
  MarketEnvironment.S0 self <> 0 ->
  exists df,
    MarketEnvironment.simulate_scenario bdate_range self start_date num_days
      spot_ret vol_mult d_sofr d_spread = Returns df /\
    map fst df = dates /\
    Z.of_nat (List.length df) = (num_days + 1)%Z /\
    exists d0,
      nth_error df 0
      = Some (d0, mkRow (MarketEnvironment.S0 self)
                    (MarketEnvironment.sigma0 self)
                    (MarketEnvironment.r0 self)
                    (MarketEnvironment.cs0 self)).
Proof.
  intros Hcal Hn Hnz.
  destruct (simulate_scenario_returns bdate_range dates self start_date
              num_days spot_ret vol_mult d_sofr d_spread Hcal Hn Hnz)
    as (rows & Hsim & Hld & Hlr & Hpath).
  exists (combine dates rows).
  split; [exact Hsim |].
  split; [apply map_fst_combine_eq; congruence |].
  split; [rewrite length_combine, Hld, Hlr; lia |].
  destruct dates as [| d0 dates]; [discriminate Hld |].
  destruct rows as [| row rows]; [discriminate Hlr |].
  exists d0. cbn [combine nth_error]. do 2 f_equal.
  destruct (Hpath 0%nat row eq_refl) as (Hs & Hr & Hc & Hv).
  destruct row as [s v r c]. cbn in Hs, Hr, Hc, Hv.
  rewrite of_nat_0 in Hr, Hc. subst s v r c. f_equal; ring.
Qed.

Lemma simulate_scenario_shape_witness :
  MarketEnvironment.calendar_gives Examples.bdate_range (Examples.day 0)
    (3 + 1) Examples.four_days /\
  (1 <= 3)%Z /\
  MarketEnvironment.S0 MarketEnvironment.default <> 0 /\
  exists df,
    MarketEnvironment.simulate_scenario Examples.bdate_range
      MarketEnvironment.default (Examples.day 0) 3
      (lit (-10) 100) (lit 2 1) (lit 1 100) (lit 1 100) = Returns df /\
    map fst df = Examples.four_days /\
    Z.of_nat (List.length df) = (3 + 1)%Z /\
    exists d0,
      nth_error df 0
      = Some (d0, mkRow (MarketEnvironment.S0 MarketEnvironment.default)
                    (MarketEnvironment.sigma0 MarketEnvironment.default)
                    (MarketEnvironment.r0 MarketEnvironment.default)
                    (MarketEnvironment.cs0 MarketEnvironment.default)).
Proof.
  assert (H : MarketEnvironment.S0 MarketEnvironment.default <> 0)
    by discriminate.
  split; [exact four_days_given |]. split; [lia |].
  split; [exact H |].
  apply (simulate_scenario_shape Examples.bdate_range Examples.four_days
           MarketEnvironment.default (Examples.day 0) 3
           (lit (-10) 100) (lit 2 1) (lit 1 100) (lit 1 100)
           four_days_given); [lia | exact H].
Defined.

Lemma Qcplus_nonneg (a b : float) : 0 <= a -> 0 <= b -> 0 <= a + b.
Proof.
  intros Ha Hb. apply Qcle_trans with (0 + 0); [discriminate |].
  now apply Qcplus_le_compat.
Qed.

Lemma Qcplus_nonneg_pos (a b : float) : 0 <= a -> 0 < b -> 0 < a + b.
Proof.
  intros Ha Hb. apply Qcle_lt_trans with a; [exact Ha |].
  apply Qclt_minus_iff. now replace (a + b + - a) with b by ring.
Qed.

Lemma Qclt_of_diff (p q : float) : 0 < q - p -> p < q.
Proof. intros H. now apply Qclt_minus_iff. Qed.

Lemma Qcdiff_nonneg (p q : float) : p <= q -> 0 <= q - p.
Proof. intros H. now apply Qcle_minus_iff in H. Qed.

Lemma Qcsquare_nonneg (x : float) : 0 <= x * x.
Proof.
  destruct (Qclt_le_dec x 0) as [H | H].
  - replace (x * x) with ((- x) * (- x)) by ring.
    apply Qcmult_nonneg; apply Qclt_le_weak, Qcneg_pos, H.
  - now apply Qcmult_nonneg.
Qed.

Lemma Qcsquare_pos (x : float) : x <> 0 -> 0 < x * x.
Proof.
  intros Hx. destruct (Qcle_lt_or_eq _ _ (Qcsquare_nonneg x)) as [H | H];
    [exact H |].
  symmetry in H. apply Qcmult_integral in H. destruct H; contradiction.
Qed.

Lemma of_nat_nonneg (n : nat) : 0 <= of_nat n.
Proof.
  unfold of_nat. change 0 with (float_of_int 0).
  apply float_of_int_le. lia.
Qed.

Lemma Qcpower_pos_strict (q : float) (n : nat) : 0 < q -> 0 < q ^ n.
Proof.
  intros Hq. induction n as [| n IH]; [reflexivity |].
  rewrite Qcpower_succ. now apply Qcmult_pos.
Qed.

Lemma Qcpower_ge_1 (q : float) (n : nat) : 1 <= q -> 1 <= q ^ n.
Proof.
  intros Hq. induction n as [| n IH]; [discriminate |].
  rewrite Qcpower_succ. apply Qcle_of_diff.
  replace (q * q ^ n - 1) with ((q - 1) * q ^ n + (q ^ n - 1)) by ring.
  apply Qcplus_nonneg.
  - apply Qcmult_nonneg.
    + apply Qcle_minus_iff in Hq. exact Hq.
    + apply Qcle_trans with 1; [discriminate | exact IH].
  - apply Qcle_minus_iff in IH. exact IH.
Qed.

Lemma Qcpower_decreasing (q : float) (n : nat) :
  0 <= q -> q <= 1 -> q ^ (S n) <= q ^ n.
Proof.
  intros H0 H1. rewrite Qcpower_succ. apply Qcle_of_diff.
  replace (q ^ n - q * q ^ n) with ((1 - q) * q ^ n) by ring.
  apply Qcmult_nonneg.
  - apply Qcle_minus_iff in H1. exact H1.
  - now apply Qcpower_pos.
Qed.

Lemma Qcpower_lt_1 (q : float) (n : nat) : 0 <= q -> q < 1 -> q ^ (S n) < 1.
Proof.
  intros H0 H1. induction n as [| n IH].
  - now replace (q ^ 1) with q by (cbn; ring).
  - apply Qcle_lt_trans with (q ^ (S n)); [| exact IH].
    apply Qcpower_decreasing; [exact H0 | now apply Qclt_le_weak].
Qed.

(** Bernoulli's inequality, which separates daily compounding from the
    total return. *)
Lemma bernoulli (x : float) (n : nat) :
  - (1) <= x -> 1 + of_nat n * x <= (1 + x) ^ n.
Proof.
  intros Hx.
  assert (H1 : 0 <= 1 + x).
  { apply Qcle_minus_iff in Hx. now replace (x + - - (1)) with (1 + x) in Hx by ring. }
  induction n as [| n IH].
  - rewrite of_nat_0. replace (1 + 0 * x) with 1 by ring. discriminate.
  - rewrite Qcpower_succ, of_nat_succ. apply Qcle_of_diff.
    replace ((1 + x) * (1 + x) ^ n - (1 + (of_nat n + 1) * x))
      with ((1 + x) * ((1 + x) ^ n - (1 + of_nat n * x))
            + of_nat n * (x * x)) by ring.
    apply Qcplus_nonneg.
    + apply Qcmult_nonneg; [exact H1 |].
      exact (Qcdiff_nonneg _ _ IH).
    + apply Qcmult_nonneg; [apply of_nat_nonneg | apply Qcsquare_nonneg].
Qed.

Lemma bernoulli_strict (x : float) (n : nat) :
  - (1) <= x -> x <> 0 -> 1 + of_nat (S (S n)) * x < (1 + x) ^ (S (S n)).
Proof.
  intros Hx Hnz.
  assert (H1 : 0 <= 1 + x).
  { apply Qcle_minus_iff in Hx. now replace (x + - - (1)) with (1 + x) in Hx by ring. }
  pose proof (bernoulli x (S n) Hx) as IH.
  rewrite (Qcpower_succ _ (S n)), (of_nat_succ (S n)). apply Qclt_of_diff.
  replace ((1 + x) * (1 + x) ^ (S n) - (1 + (of_nat (S n) + 1) * x))
    with ((1 + x) * ((1 + x) ^ (S n) - (1 + of_nat (S n) * x))
          + of_nat (S n) * (x * x)) by ring.
  apply Qcplus_nonneg_pos.
  - apply Qcmult_nonneg; [exact H1 |].
    exact (Qcdiff_nonneg _ _ IH).
  - apply Qcmult_pos; [| now apply Qcsquare_pos].
    rewrite of_nat_succ. apply Qcplus_nonneg_pos; [apply of_nat_nonneg | reflexivity].
Qed.

(** The frame [simulate_scenario] returns, row by row: every row is on
    the path, and there is a row for each day up to [num_days]. *)
Lemma simulate_scenario_rows bdate_range dates self start_date num_days
    spot_ret vol_mult d_sofr d_spread :
  MarketEnvironment.calendar_gives bdate_range start_date (num_days + 1) dates ->
  (1 <= num_days)%Z ->
  MarketEnvironment.S0 self <> 0 ->
  exists df,
    MarketEnvironment.simulate_scenario bdate_range self start_date num_days
      spot_ret vol_mult d_sofr d_spread = Returns df /\
    List.length df = S (Z.to_nat num_days) /\
    (forall i d row, nth_error df i = Some (d, row) ->
       on_path self num_days spot_ret vol_mult d_sofr d_spread i row) /\
    (forall i, (i <= Z.to_nat num_days)%nat ->
       exists d row, nth_error df i = Some (d, row)).
Proof.
  intros Hcal Hn Hnz.
  destruct (simulate_scenario_returns bdate_range dates self start_date
              num_days spot_ret vol_mult d_sofr d_spread Hcal Hn Hnz)
    as (rows & Hsim & Hld & Hlr & Hpath).
  exists (combine dates rows). split; [exact Hsim |].
  split; [rewrite length_combine, Hld, Hlr; lia |]. split.
  - intros i d row Hi. apply nth_error_combine_inv in Hi.
    apply Hpath, Hi.
  - intros i Hi.
    destruct (nth_error rows i) as [row |] eqn:E.
    + destruct (nth_error_combine_some dates rows i row) as [d Hd];
        [congruence | exact E |].
      now exists d, row.
    + apply nth_error_None in E. lia.
Qed.

(** X17 ([simulate_scenario], the rate, spread and spot paths).  Floats
    are read as exact rationals.  When the calendar gives [num_days + 1]
    dates, for at least one day and a non-zero starting spot: on day [i]
    of the returned scenario the funding rate is
    [r0 + i * d_sofr / num_days] and the credit spread
    [cs0 + i * d_spread / num_days], so that the last day carries
    [r0 + d_sofr] and [cs0 + d_spread]; the spot is
    [S0 * (1 + spot_ret / num_days) ^ i]. *)
Theorem scenario_paths bdate_range dates self start_date num_days
    spot_ret vol_mult d_sofr d_spread :
  MarketEnvironment.calendar_gives bdate_range start_date (num_days + 1) dates ->
  (1 <= num_days)%Z ->
  MarketEnvironment.S0 self <> 0 ->
  exists df,
    MarketEnvironment.simulate_scenario bdate_range self start_date num_days
      spot_ret vol_mult d_sofr d_spread = Returns df /\
    (forall i d row, nth_error df i = Some (d, row) ->
       spot row
       = MarketEnvironment.S0 self
         * (1 + spot_ret / float_of_int num_days) ^ i /\
       sofr row
       = MarketEnvironment.r0 self
         + of_nat i * (d_sofr / float_of_int num_days) /\
       credit_spread row
       = MarketEnvironment.cs0 self
         + of_nat i * (d_spread / float_of_int num_days)) /\
    exists d row,
      nth_error df (Z.to_nat num_days) = Some (d, row) /\
      sofr row = MarketEnvironment.r0 self + d_sofr /\
      credit_spread row = MarketEnvironment.cs0 self + d_spread.
Proof.
  intros Hcal Hn Hnz.
  destruct (simulate_scenario_rows bdate_range dates self start_date num_days
              spot_ret vol_mult d_sofr d_spread Hcal Hn Hnz)
    as (df & Hsim & _ & Hpath & Hex).
  exists df. split; [exact Hsim |]. split.
  - intros i d row Hi. destruct (Hpath i d row Hi) as (Hs & Hr & Hc & _).
    now repeat split.
  - destruct (Hex (Z.to_nat num_days) (le_n _)) as (d & row & Hi).
    exists d, row. split; [exact Hi |].
    destruct (Hpath _ d row Hi) as (_ & Hr & Hc & _).
    rewrite Hr, Hc, of_nat_to_nat by lia.
    pose proof (float_of_int_nonzero num_days Hn) as Hz.
    split; field; exact Hz.
Qed.

Lemma scenario_paths_witness :
  MarketEnvironment.calendar_gives Examples.bdate_range (Examples.day 0)
    (3 + 1) Examples.four_days /\
  (1 <= 3)%Z /\
  MarketEnvironment.S0 MarketEnvironment.default <> 0 /\
  exists df,
    MarketEnvironment.simulate_scenario Examples.bdate_range
      MarketEnvironment.default (Examples.day 0) 3
      (lit (-10) 100) (lit 2 1) (lit 1 100) (lit 1 100) = Returns df /\
    (forall i d row, nth_error df i = Some (d, row) ->
       spot row
       = MarketEnvironment.S0 MarketEnvironment.default
         * (1 + lit (-10) 100 / float_of_int 3) ^ i /\
       sofr row
       = MarketEnvironment.r0 MarketEnvironment.default
         + of_nat i * (lit 1 100 / float_of_int 3) /\
       credit_spread row
       = MarketEnvironment.cs0 MarketEnvironment.default
         + of_nat i * (lit 1 100 / float_of_int 3)) /\
    exists d row,
      nth_error df (Z.to_nat 3) = Some (d, row) /\
      sofr row = MarketEnvironment.r0 MarketEnvironment.default + lit 1 100 /\
      credit_spread row
      = MarketEnvironment.cs0 MarketEnvironment.default + lit 1 100.
Proof.
  assert (H : MarketEnvironment.S0 MarketEnvironment.default <> 0)
    by discriminate.
  split; [exact four_days_given |]. split; [lia |].
  split; [exact H |].
  apply (scenario_paths Examples.bdate_range Examples.four_days
           MarketEnvironment.default (Examples.day 0) 3
           (lit (-10) 100) (lit 2 1) (lit 1 100) (lit 1 100)
           four_days_given); [lia | exact H].
Defined.

Lemma daily_return_bounds (num_days : Z) (spot_ret : float) :
  (1 <= num_days)%Z ->
  - float_of_int num_days <= spot_ret ->
  - (1) <= spot_ret / float_of_int num_days.
Proof.
  intros Hn H. pose proof (float_of_int_pos num_days Hn) as Hp.
  replace (- (1)) with (- float_of_int num_days / float_of_int num_days)
    by (field; now apply Qclt_not_eq, not_eq_sym in Hp).
  now apply Qcdiv_le_compat.
Qed.

Lemma daily_return_nonzero (num_days : Z) (spot_ret : float) :
  (1 <= num_days)%Z -> spot_ret <> 0 ->
  spot_ret / float_of_int num_days <> 0.
Proof.
  intros Hn H E. apply H.
  pose proof (float_of_int_nonzero num_days Hn) as Hz.
  replace spot_ret
    with (spot_ret / float_of_int num_days * float_of_int num_days)
    by (field; exact Hz).
  rewrite E. ring.
Qed.

(** X18 ([simulate_scenario], the terminal spot).  Floats are read as
    exact rationals.  [spot_ret] is applied as a daily rate
    [spot_ret / num_days] compounded over [num_days] days: when the
    calendar gives [num_days + 1] dates, from a positive start, over two
    days or more and for any non-zero [spot_ret] not below [-num_days],
    the last spot of the scenario lies strictly above
    [S0 * (1 + spot_ret)]. *)
Theorem terminal_spot_overshoots bdate_range dates self start_date num_days
    spot_ret vol_mult d_sofr d_spread :
  MarketEnvironment.calendar_gives bdate_range start_date (num_days + 1) dates ->
  (2 <= num_days)%Z ->
  0 < MarketEnvironment.S0 self ->
  spot_ret <> 0 ->
  - float_of_int num_days <= spot_ret ->
  exists df d row,
    MarketEnvironment.simulate_scenario bdate_range self start_date num_days
      spot_ret vol_mult d_sofr d_spread = Returns df /\
    nth_error df (Z.to_nat num_days) = Some (d, row) /\
    MarketEnvironment.S0 self * (1 + spot_ret) < spot row.
Proof.
  intros Hcal Hn Hpos Hret Hlow.
  assert (Hn1 : (1 <= num_days)%Z) by lia.
  assert (Hnz : MarketEnvironment.S0 self <> 0).
  { intros E. rewrite E in Hpos. discriminate Hpos. }
  destruct (simulate_scenario_rows bdate_range dates self start_date num_days
              spot_ret vol_mult d_sofr d_spread Hcal Hn1 Hnz)
    as (df & Hsim & _ & Hpath & Hex).
  destruct (Hex (Z.to_nat num_days) (le_n _)) as (d & row & Hi).
  exists df, d, row. split; [exact Hsim |]. split; [exact Hi |].
  destruct (Hpath _ d row Hi) as (Hs & _). rewrite Hs.
  pose proof (float_of_int_nonzero num_days Hn1) as Hz.
  assert (Hk : Z.to_nat num_days = S (S (Z.to_nat (num_days - 2)))) by lia.
  pose proof (bernoulli_strict (spot_ret / float_of_int num_days)
                (Z.to_nat (num_days - 2))
                (daily_return_bounds num_days spot_ret Hn1 Hlow)
                (daily_return_nonzero num_days spot_ret Hn1 Hret)) as B.
  rewrite <- Hk, of_nat_to_nat in B by lia.
  replace (float_of_int num_days * (spot_ret / float_of_int num_days))
    with spot_ret in B by (field; exact Hz).
  rewrite !(Qcmult_comm (MarketEnvironment.S0 self)).
  now apply Qcmult_lt_compat_r.
Qed.

Lemma terminal_spot_overshoots_witness :
  MarketEnvironment.calendar_gives Examples.bdate_range (Examples.day 0)
    (3 + 1) Examples.four_days /\
  (2 <= 3)%Z /\
  0 < MarketEnvironment.S0 MarketEnvironment.default /\
  lit (-10) 100 <> 0 /\
  - float_of_int 3 <= lit (-10) 100 /\
  exists df d row,
    MarketEnvironment.simulate_scenario Examples.bdate_range
      MarketEnvironment.default (Examples.day 0) 3
      (lit (-10) 100) (lit 2 1) (lit 1 100) (lit 1 100) = Returns df /\
    nth_error df (Z.to_nat 3) = Some (d, row) /\
    MarketEnvironment.S0 MarketEnvironment.default * (1 + lit (-10) 100)
    < spot row.
Proof.
  assert (H1 : 0 < MarketEnvironment.S0 MarketEnvironment.default)
    by reflexivity.
  assert (H2 : lit (-10) 100 <> 0) by discriminate.
  assert (H3 : - float_of_int 3 <= lit (-10) 100) by discriminate.
  split; [exact four_days_given |]. split; [lia |].
  split; [exact H1 |]. split; [exact H2 |]. split; [exact H3 |].
  apply (terminal_spot_overshoots Examples.bdate_range Examples.four_days
           MarketEnvironment.default (Examples.day 0) 3
           (lit (-10) 100) (lit 2 1) (lit 1 100) (lit 1 100)
           four_days_given); [lia | exact H1 | exact H2 | exact H3].
Defined.

Lemma pos_nonzero (x : float) : 0 < x -> x <> 0.
Proof. intros H E. rewrite E in H. discriminate H. Qed.

Lemma vol_after_rally (self : MarketEnvironment.t) (vol_mult q : float) :
  0 < MarketEnvironment.S0 self -> 1 <= q ->
  vol_after self vol_mult (MarketEnvironment.S0 self * q)
  = py_max (lit 5 100) (MarketEnvironment.sigma0 self * lit 95 100).
Proof.
  intros Hpos Hq. unfold vol_after. cbv zeta.
  replace ((MarketEnvironment.S0 self - MarketEnvironment.S0 self * q)
           / MarketEnvironment.S0 self)
    with (1 - q) by (field; now apply pos_nonzero).
  assert (E : Qcltb 0 (1 - q) = false).
  { apply Qcltb_ge. apply Qcle_of_diff.
    replace (0 - (1 - q)) with (q - 1) by ring.
    now apply Qcdiff_nonneg. }
  now rewrite E.
Qed.

Lemma vol_after_drop (self : MarketEnvironment.t) (vol_mult q : float) :
  0 < MarketEnvironment.S0 self -> q < 1 ->
  vol_after self vol_mult (MarketEnvironment.S0 self * q)
  = MarketEnvironment.sigma0 self * (1 + (1 - q) * vol_mult).
Proof.
  intros Hpos Hq. unfold vol_after. cbv zeta.
  replace ((MarketEnvironment.S0 self - MarketEnvironment.S0 self * q)
           / MarketEnvironment.S0 self)
    with (1 - q) by (field; now apply pos_nonzero).
  assert (E : Qcltb 0 (1 - q) = true).
  { apply Qcltb_lt. now apply Qclt_minus_iff in Hq. }
  now rewrite E.
Qed.

Section OnPath.

Variables (self : MarketEnvironment.t) (num_days : Z).
Variables (spot_ret vol_mult d_sofr d_spread : float).
Hypothesis Hn : (1 <= num_days)%Z.
Hypothesis Hpos : 0 < MarketEnvironment.S0 self.

Let q := 1 + spot_ret / float_of_int num_days.

Lemma rally_factor : 0 <= spot_ret -> 1 <= q.
Proof.
  intros Hret. apply Qcle_of_diff. unfold q.
  replace (1 + spot_ret / float_of_int num_days - 1)
    with (spot_ret * / float_of_int num_days) by (unfold Qcdiv; ring).
  apply Qcmult_nonneg; [exact Hret |].
  now apply Qclt_le_weak, Qcinv_pos, float_of_int_pos.
Qed.

Lemma drop_factor :
  spot_ret < 0 -> - float_of_int num_days <= spot_ret -> 0 <= q /\ q < 1.
Proof.
  intros Hneg Hlow. split.
  - pose proof (daily_return_bounds num_days spot_ret Hn Hlow) as B.
    apply Qcdiff_nonneg in B. unfold q.
    now replace (spot_ret / float_of_int num_days - - (1))
      with (1 + spot_ret / float_of_int num_days) in B by ring.
  - apply Qclt_of_diff. unfold q.
    replace (1 - (1 + spot_ret / float_of_int num_days))
      with (- spot_ret * / float_of_int num_days) by (unfold Qcdiv; ring).
    apply Qcmult_pos; [now apply Qcneg_pos |].
    now apply Qcinv_pos, float_of_int_pos.
Qed.

(** After the first day of a scenario that does not fall. *)
Lemma on_path_vol_rally i row :
  0 <= spot_ret ->
  on_path self num_days spot_ret vol_mult d_sofr d_spread (S i) row ->
  vol row = py_max (lit 5 100) (MarketEnvironment.sigma0 self * lit 95 100).
Proof.
  intros Hret (Hs & _ & _ & Hv). rewrite Hv, Hs.
  apply vol_after_rally; [exact Hpos |].
  now apply Qcpower_ge_1, rally_factor.
Qed.

(** On any day of a scenario that falls. *)
Lemma on_path_vol_drop i row :
  spot_ret < 0 -> - float_of_int num_days <= spot_ret ->
  on_path self num_days spot_ret vol_mult d_sofr d_spread i row ->
  spot row = MarketEnvironment.S0 self * q ^ i /\
  vol row = MarketEnvironment.sigma0 self * (1 + (1 - q ^ i) * vol_mult).
Proof.
  intros Hneg Hlow (Hs & _ & _ & Hv). fold q in Hs.
  destruct (drop_factor Hneg Hlow) as [Hq0 Hq1].
  split; [exact Hs |]. destruct i as [| i].
  - rewrite Hv. cbn. ring.
  - rewrite Hv, Hs. apply vol_after_drop; [exact Hpos |].
    now apply Qcpower_lt_1.
Qed.

Lemma on_path_vol_drop_spot i row :
  spot_ret < 0 -> - float_of_int num_days <= spot_ret ->
  on_path self num_days spot_ret vol_mult d_sofr d_spread i row ->
  vol row
  = MarketEnvironment.sigma0 self
    * (1 + (1 - spot row / MarketEnvironment.S0 self) * vol_mult).
Proof.
  intros Hneg Hlow Hrow.
  destruct (on_path_vol_drop i row Hneg Hlow Hrow) as [Hs Hv].
  rewrite Hv, Hs. f_equal. f_equal. f_equal. f_equal.
  field. now apply pos_nonzero.
Qed.

End OnPath.

(** X19 ([simulate_scenario], the volatility path).  Floats are read as
    exact rationals.  When the calendar gives [num_days + 1] dates, from
    a positive start: when [spot_ret] is not negative, every day after the
    first carries the volatility [max(0.05, 0.95 * sigma0)], whatever
    [vol_mult]; when [spot_ret] is negative (and not below [-num_days])
    every day carries [sigma0 * (1 + (1 - spot / S0) * vol_mult)], and for
    non-negative [sigma0] and [vol_mult] the volatility never falls from
    one day to the next. *)
Theorem scenario_vol_path bdate_range dates self start_date num_days
    spot_ret vol_mult d_sofr d_spread :
  MarketEnvironment.calendar_gives bdate_range start_date (num_days + 1) dates ->
  (1 <= num_days)%Z ->
  0 < MarketEnvironment.S0 self ->
  exists df,
    MarketEnvironment.simulate_scenario bdate_range self start_date num_days
      spot_ret vol_mult d_sofr d_spread = Returns df /\
    (0 <= spot_ret ->
     forall i d row, nth_error df (S i) = Some (d, row) ->
       vol row
       = py_max (lit 5 100) (MarketEnvironment.sigma0 self * lit 95 100)) /\
    (spot_ret < 0 -> - float_of_int num_days <= spot_ret ->
     (forall i d row, nth_error df i = Some (d, row) ->
        vol row
        = MarketEnvironment.sigma0 self
          * (1 + (1 - spot row / MarketEnvironment.S0 self) * vol_mult)) /\
     (0 <= MarketEnvironment.sigma0 self -> 0 <= vol_mult ->
      forall i d row d' row',
        nth_error df i = Some (d, row) ->
        nth_error df (S i) = Some (d', row') ->
        vol row <= vol row')).
Proof.
  intros Hcal Hn Hpos.
  pose proof (pos_nonzero _ Hpos) as Hnz.
  destruct (simulate_scenario_rows bdate_range dates self start_date num_days
              spot_ret vol_mult d_sofr d_spread Hcal Hn Hnz)
    as (df & Hsim & _ & Hpath & _).
  exists df. split; [exact Hsim |]. split.
  - intros Hret i d row Hi.
    exact (on_path_vol_rally self num_days spot_ret vol_mult d_sofr d_spread
             Hn Hpos i row Hret (Hpath _ d row Hi)).
  - intros Hneg Hlow. split.
    + intros i d row Hi.
      exact (on_path_vol_drop_spot self num_days spot_ret vol_mult d_sofr
               d_spread Hn Hpos i row Hneg Hlow (Hpath _ d row Hi)).
    + intros Hsig Hvm i d row d' row' Hi Hi'.
      destruct (drop_factor num_days spot_ret Hn Hneg Hlow) as [Hq0 Hq1].
      destruct (on_path_vol_drop self num_days spot_ret vol_mult d_sofr
                  d_spread Hn Hpos i row Hneg Hlow (Hpath _ d row Hi))
        as [_ Hv].
      destruct (on_path_vol_drop self num_days spot_ret vol_mult d_sofr
                  d_spread Hn Hpos (S i) row' Hneg Hlow (Hpath _ d' row' Hi'))
        as [_ Hv'].
      rewrite Hv, Hv'. apply Qcle_of_diff.
      set (q := 1 + spot_ret / float_of_int num_days) in *.
      replace (MarketEnvironment.sigma0 self * (1 + (1 - q ^ S i) * vol_mult)
               - MarketEnvironment.sigma0 self * (1 + (1 - q ^ i) * vol_mult))
        with (MarketEnvironment.sigma0 self * vol_mult * (q ^ i - q ^ S i))
        by ring.
      apply Qcmult_nonneg; [now apply Qcmult_nonneg |].
      apply Qcdiff_nonneg, Qcpower_decreasing;
        [exact Hq0 | now apply Qclt_le_weak].
Qed.

Lemma scenario_vol_path_witness :
  MarketEnvironment.calendar_gives Examples.bdate_range (Examples.day 0)
    (3 + 1) Examples.four_days /\
  (1 <= 3)%Z /\
  0 < MarketEnvironment.S0 MarketEnvironment.default /\
  exists df,
    MarketEnvironment.simulate_scenario Examples.bdate_range
      MarketEnvironment.default (Examples.day 0) 3
      (lit (-10) 100) (lit 2 1) (lit 1 100) (lit 1 100) = Returns df /\
    forall i d row d' row',
      nth_error df i = Some (d, row) ->
      nth_error df (S i) = Some (d', row') ->
      vol row <= vol row'.
Proof.
  assert (H1 : 0 < MarketEnvironment.S0 MarketEnvironment.default)
    by reflexivity.
  split; [exact four_days_given |]. split; [lia |].
  split; [exact H1 |].
  destruct (scenario_vol_path Examples.bdate_range Examples.four_days
              MarketEnvironment.default (Examples.day 0) 3
              (lit (-10) 100) (lit 2 1) (lit 1 100) (lit 1 100)
              four_days_given) as (df & Hsim & _ & Hdrop);
    [lia | exact H1 |].
  exists df. split; [exact Hsim |].
  destruct Hdrop as [_ Hmono]; [reflexivity | discriminate |].
  apply Hmono; discriminate.
Defined.

(** ** [MarketEnvironment]: the presets *)

Lemma simulate_scenario_ends_at bdate_range dates self start_date num_days
    spot_ret vol_mult d_sofr d_spread :
  MarketEnvironment.calendar_gives bdate_range start_date (num_days + 1) dates ->
  (1 <= num_days)%Z ->
  MarketEnvironment.S0 self <> 0 ->
  ends_at
    (MarketEnvironment.simulate_scenario bdate_range self start_date num_days
       spot_ret vol_mult d_sofr d_spread)
    num_days
    (MarketEnvironment.r0 self + d_sofr)
    (MarketEnvironment.cs0 self + d_spread).
Proof.
  intros Hcal Hn Hnz.
  destruct (simulate_scenario_rows bdate_range dates self start_date num_days
              spot_ret vol_mult d_sofr d_spread Hcal Hn Hnz)
    as (df & Hsim & Hlen & Hpath & Hex).
  destruct (Hex (Z.to_nat num_days) (le_n _)) as (d & row & Hi).
  exists df, d, row. split; [exact Hsim |]. split; [lia |].
  split; [exact Hi |].
  destruct (Hpath _ d row Hi) as (_ & Hr & Hc & _).
  rewrite Hr, Hc, of_nat_to_nat by lia.
  pose proof (float_of_int_nonzero num_days Hn) as Hz.
  split; field; exact Hz.
Qed.

(** X20 (presets [taper_tantrum_2013] and [covid_crash_2020]).  Both call
    [self.simulate_custom_scenario], a method the class does not define:
    for every calendar, environment, start date and number of days they
    raise [AttributeError] and produce no scenario. *)
Theorem presets_without_method bdate_range self start_date days :
  MarketEnvironment.taper_tantrum_2013 bdate_range self start_date days
  = Raises AttributeError /\
  MarketEnvironment.covid_crash_2020 bdate_range self start_date days
  = Raises AttributeError.
Proof. split; reflexivity. Qed.

(** X21 (presets [trump_reflation_2016], [repo_crisis_2019],
    [inflation_shock_2022], [liberation_day_2025]).  Floats are read as
    exact rationals.  When the calendar gives [days + 1] dates, for at
    least one day and a non-zero starting spot, each returns a scenario of
    [days + 1] rows, whose last row carries the start rate and spread
    moved by the preset's shifts: 0 and -10bp, +500bp and +300bp, +150bp
    and +50bp, +25bp and +200bp. *)
Theorem presets_end_states bdate_range dates self start_date days :
  MarketEnvironment.calendar_gives bdate_range start_date (days + 1) dates ->
  (1 <= days)%Z ->
  MarketEnvironment.S0 self <> 0 ->
  ends_at
    (MarketEnvironment.trump_reflation_2016 bdate_range self start_date days)
    days (MarketEnvironment.r0 self)
    (MarketEnvironment.cs0 self - lit 10 10000) /\
  ends_at
    (MarketEnvironment.repo_crisis_2019 bdate_range self start_date days)
    days (MarketEnvironment.r0 self + lit 5 100)
    (MarketEnvironment.cs0 self + lit 3 100) /\
  ends_at
    (MarketEnvironment.inflation_shock_2022 bdate_range self start_date days)
    days (MarketEnvironment.r0 self + lit 15 1000)
    (MarketEnvironment.cs0 self + lit 5 1000) /\
  ends_at
    (MarketEnvironment.liberation_day_2025 bdate_range self start_date days)
    days (MarketEnvironment.r0 self + lit 25 10000)
    (MarketEnvironment.cs0 self + lit 2 100).
Proof.
  intros Hcal Hn Hnz.
  split; [| split; [| split]].
  - pose proof (simulate_scenario_ends_at bdate_range dates self start_date days
                  (lit 10 100) 0 0 (lit (-10) 10000) Hcal Hn Hnz) as H.
    replace (MarketEnvironment.r0 self + 0)
      with (MarketEnvironment.r0 self) in H by ring.
    replace (MarketEnvironment.cs0 self + lit (-10) 10000)
      with (MarketEnvironment.cs0 self - lit 10 10000) in H
      by (unfold Qcminus; f_equal; apply Qc_is_canon; reflexivity).
    exact H.
  - exact (simulate_scenario_ends_at bdate_range dates self start_date days
             (lit (-2) 100) (lit 2 1) (lit 5 100) (lit 3 100) Hcal Hn Hnz).
  - exact (simulate_scenario_ends_at bdate_range dates self start_date days
             (lit (-15) 100) (lit 15 10) (lit 15 1000) (lit 5 1000)
             Hcal Hn Hnz).
  - exact (simulate_scenario_ends_at bdate_range dates self start_date days
             (lit (-15) 100) (lit 2 1) (lit 25 10000) (lit 2 100)
             Hcal Hn Hnz).
Qed.

Lemma presets_end_states_witness :
  MarketEnvironment.calendar_gives Examples.bdate_range (Examples.day 0)
    (5 + 1) Examples.six_days /\
  (1 <= 5)%Z /\
  MarketEnvironment.S0 MarketEnvironment.default <> 0 /\
  ends_at
    (MarketEnvironment.repo_crisis_2019 Examples.bdate_range
       MarketEnvironment.default (Examples.day 0) 5)
    5 (MarketEnvironment.r0 MarketEnvironment.default + lit 5 100)
    (MarketEnvironment.cs0 MarketEnvironment.default + lit 3 100).
Proof.
  assert (H : MarketEnvironment.S0 MarketEnvironment.default <> 0)
    by discriminate.
  split; [exact six_days_given |]. split; [lia |].
  split; [exact H |].
  apply (presets_end_states Examples.bdate_range Examples.six_days
           MarketEnvironment.default (Examples.day 0) 5
           six_days_given); [lia | exact H].
Defined.

(** ** A generated scenario fed to the engine *)

Lemma run_dates_spots portfolio df gamma_hedge_inst vega_hedge_inst N self :
  __init__ portfolio df gamma_hedge_inst vega_hedge_inst N = Some self ->
  N <> 0%Z ->
  exists rows,
    run self = Some rows /\
    map (fun res => (Result.date res, Result.spot res)) rows
    = map (fun x => (fst x, spot (snd x))) df.
Proof.
  intros Hself HN0.
  destruct (init_some _ _ _ _ _ _ Hself) as (d & r0 & rest0 & Hd & Hcfg).
  unfold config in Hcfg. injection Hcfg as _ Hdf _ _ _ _ _ _.
  destruct (constructed_runs _ _ _ _ _ _ Hself HN0) as (tr & Htr & Hlen & _).
  unfold run. rewrite Htr.
  destruct tr as [| x tr]; [rewrite Hd in Hlen; discriminate Hlen |].
  eexists. split; [reflexivity |].
  rewrite map_map. unfold trace in Htr. rewrite Hdf in Htr.
  exact (run_loop_dates _ _ _ _ Htr).
Qed.

Lemma map_eq_nth_error {A B C : Type} (f : A -> C) (g : B -> C) (l : list A) :
  forall (l' : list B) i a,
    map f l = map g l' -> nth_error l i = Some a ->
    exists b, nth_error l' i = Some b /\ f a = g b.
Proof.
  induction l as [| x l IH]; intros [| y l'] [| i] a Hmap Hi;
    try discriminate.
  - injection Hi as <-. injection Hmap as H _. now exists y.
  - injection Hmap as _ H. cbn in Hi |- *. now apply (IH l' i a).
Qed.

Lemma init_base_vol portfolio date row0 rest g v N self :
  __init__ portfolio ((date, row0) :: rest) g v N = Some self ->
  forall s, reached self s -> base_vol s = vol row0 /\
                              stock_spread_bps s = lit 5 1 /\
                              option_spread_bps s = lit 100 1.
Proof.
  intros Hself s Hs.
  destruct (init_some _ _ _ _ _ _ Hself) as (d & r0 & rest0 & Hdf & Hcfg).
  injection Hdf as <- <- <-.
  pose proof (reached_config _ _ Hs) as Hc. rewrite Hcfg in Hc.
  unfold config in Hc. injection Hc as _ _ _ _ _ Hbv Hss Hos.
  now repeat split.
Qed.

(** X22 (the scenario generator composed with the engine).  Floats are
    read as exact rationals.  When the calendar gives [num_days + 1]
    dates, a scenario generated for at least one day from a non-zero spot
    always builds an engine, whatever the book and the hedges; the
    engine's reference volatility is the environment's [sigma0]; and with
    a non-zero re-hedge interval its run returns [num_days + 1] rows, row
    [i] reporting the spot [S0 * (1 + spot_ret / num_days) ^ i]. *)
Theorem generated_scenario_runs bdate_range dates env start_date num_days
    spot_ret vol_mult d_sofr d_spread
    portfolio gamma_hedge_inst vega_hedge_inst N :
  MarketEnvironment.calendar_gives bdate_range start_date (num_days + 1) dates ->
  (1 <= num_days)%Z ->
  MarketEnvironment.S0 env <> 0 ->
  N <> 0%Z ->
  exists df self rows,
    MarketEnvironment.simulate_scenario bdate_range env start_date num_days
      spot_ret vol_mult d_sofr d_spread = Returns df /\
    __init__ portfolio df gamma_hedge_inst vega_hedge_inst N = Some self /\
    base_vol self = MarketEnvironment.sigma0 env /\
    run self = Some rows /\
    Z.of_nat (List.length rows) = (num_days + 1)%Z /\
    forall i res, nth_error rows i = Some res ->
      Result.spot res
      = MarketEnvironment.S0 env
        * (1 + spot_ret / float_of_int num_days) ^ i.
Proof.
  intros Hcal Hn Hnz HN.
  destruct (simulate_scenario_rows bdate_range dates env start_date num_days
              spot_ret vol_mult d_sofr d_spread Hcal Hn Hnz)
    as (df & Hsim & Hlen & Hpath & _).
  destruct df as [| [date row0] rest] eqn:Hdf; [discriminate Hlen |].
  rewrite <- Hdf in *.
  destruct (init_total portfolio date row0 rest gamma_hedge_inst
              vega_hedge_inst N) as [self Hself].
  rewrite <- Hdf in Hself.
  destruct (run_dates_spots _ _ _ _ _ _ Hself HN) as (rows & Hrun & Hmap).
  exists df, self, rows. split; [exact Hsim |]. split; [exact Hself |].
  split; [| split; [exact Hrun | split]].
  - rewrite Hdf in Hself.
    destruct (init_base_vol _ _ _ _ _ _ _ _ Hself self (or_introl eq_refl))
      as (-> & _).
    destruct (Hpath 0%nat date row0) as (_ & _ & _ & Hv);
      [now rewrite Hdf | exact Hv].
  - apply (f_equal (@List.length _)) in Hmap.
    rewrite !length_map in Hmap. lia.
  - intros i res Hi.
    destruct (map_eq_nth_error _ _ rows df i res Hmap Hi)
      as ([d row] & Hrow & E).
    injection E as _ ->. cbn [snd].
    now destruct (Hpath i d row Hrow) as (Hs & _).
Qed.

Lemma generated_scenario_runs_witness :
  MarketEnvironment.calendar_gives Examples.bdate_range (Examples.day 0)
    (3 + 1) Examples.four_days /\
  (1 <= 3)%Z /\
  MarketEnvironment.S0 MarketEnvironment.default <> 0 /\
  2%Z <> 0%Z /\
  exists df self rows,
    MarketEnvironment.simulate_scenario Examples.bdate_range
      MarketEnvironment.default (Examples.day 0) 3
      (lit (-10) 100) (lit 2 1) (lit 1 100) (lit 1 100) = Returns df /\
    __init__ Examples.book df (Some Examples.short_dated)
      (Some Examples.long_dated) 2 = Some self /\
    base_vol self = MarketEnvironment.sigma0 MarketEnvironment.default /\
    run self = Some rows /\
    Z.of_nat (List.length rows) = (3 + 1)%Z /\
    forall i res, nth_error rows i = Some res ->
      Result.spot res
      = MarketEnvironment.S0 MarketEnvironment.default
        * (1 + lit (-10) 100 / float_of_int 3) ^ i.
Proof.
  assert (H : MarketEnvironment.S0 MarketEnvironment.default <> 0)
    by discriminate.
  assert (H2 : 2%Z <> 0%Z) by lia.
  split; [exact four_days_given |]. split; [lia |].
  split; [exact H |]. split; [exact H2 |].
  apply (generated_scenario_runs Examples.bdate_range Examples.four_days
           MarketEnvironment.default (Examples.day 0) 3
           (lit (-10) 100) (lit 2 1) (lit 1 100) (lit 1 100)
           Examples.book (Some Examples.short_dated)
           (Some Examples.long_dated) 2
           four_days_given); [lia | exact H | exact H2].
Defined.

Lemma py_max_right (a b : float) : a <= b -> py_max a b = b.
Proof.
  intros H. unfold py_max. destruct (Qcltb a b) eqn:E; [reflexivity |].
  apply Qcltb_ge in E. now apply Qcle_antisym.
Qed.

(** X23 (friction on a generated scenario).  Floats are read as exact
    rationals.  When the calendar gives [num_days + 1] dates, on a
    scenario generated from a positive spot and run through the engine,
    the spread cost charged after the first day is fixed by the scenario's
    direction.  When [spot_ret] is not negative and [sigma0] is at least
    1/19, every trade pays 95% of the base spread; when [spot_ret] is
    negative (not below [-num_days]) and [sigma0] is positive, a trade on
    a day whose spot is [spot] pays the base spread times
    [1 + (1 - spot / S0) * vol_mult]. *)
Theorem generated_scenario_friction bdate_range dates env start_date num_days
    spot_ret vol_mult d_sofr d_spread
    portfolio gamma_hedge_inst vega_hedge_inst N :
  MarketEnvironment.calendar_gives bdate_range start_date (num_days + 1) dates ->
  (1 <= num_days)%Z ->
  0 < MarketEnvironment.S0 env ->
  exists df self,
    MarketEnvironment.simulate_scenario bdate_range env start_date num_days
      spot_ret vol_mult d_sofr d_spread = Returns df /\
    __init__ portfolio df gamma_hedge_inst vega_hedge_inst N = Some self /\
    forall s, reached self s ->
    forall i d row, nth_error df (S i) = Some (d, row) ->
    forall (notional : float) (is_option : bool),
      (0 <= spot_ret -> lit 1 19 <= MarketEnvironment.sigma0 env ->
       _get_spread_cost s notional (vol row) is_option
       = Qcabs notional
         * ((if is_option then lit 100 1 else lit 5 1) * lit 95 100
            / lit 10000 1) / lit 2 1) /\
      (spot_ret < 0 -> - float_of_int num_days <= spot_ret ->
       0 < MarketEnvironment.sigma0 env ->
       _get_spread_cost s notional (vol row) is_option
       = Qcabs notional
         * ((if is_option then lit 100 1 else lit 5 1)
            * (1 + (1 - spot row / MarketEnvironment.S0 env) * vol_mult)
            / lit 10000 1) / lit 2 1).
Proof.
  intros Hcal Hn Hpos.
  pose proof (pos_nonzero _ Hpos) as Hnz.
  destruct (simulate_scenario_rows bdate_range dates env start_date num_days
              spot_ret vol_mult d_sofr d_spread Hcal Hn Hnz)
    as (df & Hsim & Hlen & Hpath & _).
  destruct df as [| [date row0] rest] eqn:Hdf; [discriminate Hlen |].
  destruct (init_total portfolio date row0 rest gamma_hedge_inst
              vega_hedge_inst N) as [self Hself].
  exists ((date, row0) :: rest), self.
  split; [exact Hsim |]. split; [exact Hself |].
  intros s Hs i d row Hi notional is_option.
  destruct (init_base_vol _ _ _ _ _ _ _ _ Hself s Hs) as (Hbv & Hss & Hos).
  destruct (Hpath 0%nat date row0 eq_refl) as (_ & _ & _ & Hv0).
  unfold _get_spread_cost. cbv zeta. rewrite Hbv, Hss, Hos, Hv0.
  pose proof (Hpath _ d row Hi) as Hrow.
  split.
  - intros Hret Hsig.
    rewrite (on_path_vol_rally env num_days spot_ret vol_mult d_sofr d_spread
               Hn Hpos i row Hret Hrow).
    assert (Hs0 : MarketEnvironment.sigma0 env <> 0).
    { apply pos_nonzero. apply Qclt_le_trans with (lit 1 19);
        [reflexivity | exact Hsig]. }
    rewrite py_max_right.
    + destruct is_option; field; repeat split;
        first [exact Hs0 | discriminate].
    + replace (lit 5 100) with (lit 1 19 * lit 95 100)
        by (apply Qc_is_canon; reflexivity).
      apply Qcmult_le_compat_r; [exact Hsig | discriminate].
  - intros Hneg Hlow Hsig.
    rewrite (on_path_vol_drop_spot env num_days spot_ret vol_mult d_sofr
               d_spread Hn Hpos (S i) row Hneg Hlow Hrow).
    pose proof (pos_nonzero _ Hsig) as Hs0.
    destruct is_option; field; repeat split;
      first [exact Hs0 | exact Hnz | discriminate].
Qed.

Lemma generated_scenario_friction_witness :
  MarketEnvironment.calendar_gives Examples.bdate_range (Examples.day 0)
    (3 + 1) Examples.four_days /\
  (1 <= 3)%Z /\
  0 < MarketEnvironment.S0 MarketEnvironment.default /\
  exists df self,
    MarketEnvironment.simulate_scenario Examples.bdate_range
      MarketEnvironment.default (Examples.day 0) 3
      (lit 10 100) (lit 2 1) (lit 1 100) (lit 1 100) = Returns df /\
    __init__ Examples.book df (Some Examples.short_dated)
      (Some Examples.long_dated) 2 = Some self /\
    forall i d row, nth_error df (S i) = Some (d, row) ->
      _get_spread_cost self (lit 1000 1) (vol row) true
      = Qcabs (lit 1000 1)
        * (lit 100 1 * lit 95 100 / lit 10000 1) / lit 2 1.
Proof.
  assert (H1 : 0 < MarketEnvironment.S0 MarketEnvironment.default)
    by reflexivity.
  split; [exact four_days_given |]. split; [lia |].
  split; [exact H1 |].
  destruct (generated_scenario_friction Examples.bdate_range Examples.four_days
              MarketEnvironment.default (Examples.day 0) 3
              (lit 10 100) (lit 2 1) (lit 1 100) (lit 1 100)
              Examples.book (Some Examples.short_dated)
              (Some Examples.long_dated) 2
              four_days_given) as (df & self & Hsim & Hself & Hcost);
    [lia | exact H1 |].
  exists df, self. split; [exact Hsim |]. split; [exact Hself |].
  intros i d row Hi.
  apply (Hcost self (or_introl eq_refl) i d row Hi (lit 1000 1) true);
    discriminate.
Defined.
